(** * Amazon review pipeline: cleaner and NoSQL manager

    A shallow embedding of [src/preprocessing/cleaner.py] (class
    [DataCleaner]) and [src/storage/nosql_manager.py] (class
    [NoSQLManager]), with the properties of the storage core stated
    and proved over it.

    Python values are an inductive type, dictionaries with string keys
    are [gmap string pyval], floats are IEEE binary64 values in the
    representation of [SpecFloat], exceptions are an error monad. *)

From Stdlib Require Import ZArith String Ascii List SpecFloat Permutation Sorted Lia.
From stdpp Require Import base option list gmap strings pretty.

Set Warnings "-register-all,-clear-no-such-hyp".
Open Scope string_scope.
Open Scope Z_scope.

(** Closes an equation between closed terms by evaluation. *)
Ltac vm_refl :=
  lazymatch goal with
  | |- @eq ?A ?a ?b => exact (@eq_refl A b <: @eq A a b)
  end.

(** * The embedding *)

(** ** Python values and builtins *)

Module Py.

(** Binary64: 53 bits of precision, infinities at exponent 1024. *)
Definition prec : Z := 53.
Definition emax : Z := 1024.

Abbreviation float := spec_float.

Definition float_of_Z (z : Z) : float := binary_normalize prec emax z 0 false.

Definition f0 : float := S754_zero false.
Definition f1 : float := Eval vm_compute in float_of_Z 1.
Definition f3 : float := Eval vm_compute in float_of_Z 3.
Definition f4 : float := Eval vm_compute in float_of_Z 4.
Definition f5 : float := Eval vm_compute in float_of_Z 5.
Definition f7 : float := Eval vm_compute in float_of_Z 7.
(** 4.5 = 9 * 2^-1 *)
Definition f4_5 : float := Eval vm_compute in binary_normalize prec emax 9 (-1) false.

Definition fleb (a b : float) : bool := SFleb a b.
Definition feqb (a b : float) : bool := SFeqb a b.

Definition is_nan (f : float) : bool :=
  match f with S754_nan => true | _ => false end.

(** What [json.load] can produce. A nested dict keeps its items as a
    list; the top-level record of a review is a [gmap string pyval]. *)
Inductive pyval : Type :=
| VNone
| VBool (b : bool)
| VInt (z : Z)
| VFloat (f : float)
| VStr (s : string)
| VList (l : list pyval)
| VDict (d : list (string * pyval)).

Inductive exn : Set :=
| AttributeError | KeyError | OverflowError | TypeError | ValueError | IOError.

Inductive result (A : Type) : Type :=
| Ok (a : A)
| Raise (e : exn).
Arguments Ok {A} a.
Arguments Raise {A} e.

Definition bind {A B} (m : result A) (k : A -> result B) : result B :=
  match m with Ok a => k a | Raise e => Raise e end.

Notation "'let*' x ':=' m 'in' k" := (bind m (fun x => k))
  (at level 10, x name, m at level 100, k at level 200).

(** [try: m except (ValueError, TypeError): h] *)
Definition try_except {A} (m : result A) (caught : exn -> bool) (h : A) : result A :=
  match m with
  | Ok a => Ok a
  | Raise e => if caught e then Ok h else Raise e
  end.

Definition value_or_type_error (e : exn) : bool :=
  match e with ValueError | TypeError => true | _ => false end.

(** [bool(v)] *)
Definition truthy (v : pyval) : bool :=
  match v with
  | VNone => false
  | VBool b => b
  | VInt z => negb (Z.eqb z 0)
  | VFloat f => negb (feqb f f0)
  | VStr s => negb (String.eqb s "")
  | VList l => match l with [] => false | _ => true end
  | VDict d => match d with [] => false | _ => true end
  end.

(** *** Strings

    A [string] stands for a Python [str] whose code points are below
    256, one [ascii] per code point. *)

(** [str.isspace] on one code point: U+0009..U+000D, U+001C..U+0020,
    U+0085 and U+00A0. *)
Definition isspace (c : ascii) : bool :=
  let n := N_of_ascii c in
  ((9 <=? n) && (n <=? 13) || (28 <=? n) && (n <=? 32) || (n =? 133) || (n =? 160))%N.

Fixpoint lstrip (s : string) : string :=
  match s with
  | EmptyString => EmptyString
  | String c s' => if isspace c then lstrip s' else s
  end.

Fixpoint rstrip (s : string) : string :=
  match s with
  | EmptyString => EmptyString
  | String c s' =>
      match rstrip s' with
      | EmptyString => if isspace c then EmptyString else String c EmptyString
      | t => String c t
      end
  end.

(** [s.strip()] *)
Definition strip (s : string) : string := rstrip (lstrip s).

(** [s[:n]] *)
Fixpoint str_take (n : nat) (s : string) : string :=
  match n, s with
  | S n', String c s' => String c (str_take n' s')
  | _, _ => EmptyString
  end.

(** A string that does not begin with white space. *)
Definition starts_nonblank (s : string) : Prop :=
  match s with
  | EmptyString => True
  | String c _ => isspace c = false
  end.

(** [v.strip()] on an arbitrary value: only [str] has the attribute. *)
Definition call_strip (v : pyval) : result string :=
  match v with
  | VStr s => Ok (strip s)
  | _ => Raise AttributeError
  end.

(** *** Numbers *)

(** The exact order between a float and an integer, as Python compares
    them (no conversion of the integer). *)
Definition fcompare_Z (f : float) (z : Z) : option comparison :=
  match f with
  | S754_nan => None
  | S754_infinity s => Some (if s then Lt else Gt)
  | S754_zero _ => Some (0 ?= z)
  | S754_finite s m e =>
      let v := cond_Zopp s (Zpos m) in
      if Z.leb 0 e then Some (v * 2 ^ e ?= z)%Z else Some (v ?= z * 2 ^ (- e))%Z
  end.

(** The parts of the Python runtime that are library code with a large
    grammar of their own: [float(s)] and [int(s)] on a string ([None]
    for a [ValueError]), and the text [str(v)] of a value that is not
    a string. *)
Class Builtins := {
  float_of_str : string -> option float;
  int_of_str : string -> option Z;
  str_of : pyval -> string;
}.

Section WithBuiltins.
Context `{Builtins}.

(** [float(v)] *)
Definition py_float (v : pyval) : result float :=
  match v with
  | VNone => Raise TypeError
  | VBool b => Ok (if b then f1 else f0)
  | VInt z =>
      match float_of_Z z with
      | S754_infinity _ => Raise OverflowError
      | f => Ok f
      end
  | VFloat f => Ok f
  | VStr s => match float_of_str s with Some f => Ok f | None => Raise ValueError end
  | VList _ | VDict _ => Raise TypeError
  end.

(** [int(v)]; a float is truncated towards zero. *)
Definition py_int (v : pyval) : result Z :=
  match v with
  | VNone => Raise TypeError
  | VBool b => Ok (if b then 1 else 0)
  | VInt z => Ok z
  | VFloat f =>
      match f with
      | S754_nan => Raise ValueError
      | S754_infinity _ => Raise OverflowError
      | S754_zero _ => Ok 0
      | S754_finite s m e => Ok (cond_Zopp s (Z.shiftl (Zpos m) e))
      end
  | VStr s => match int_of_str s with Some z => Ok z | None => Raise ValueError end
  | VList _ | VDict _ => Raise TypeError
  end.

(** [f"{v}"] *)
Definition py_format (v : pyval) : string :=
  match v with
  | VStr s => s
  | _ => str_of v
  end.

End WithBuiltins.

(** A bool, an int or a float, as a number. *)
Inductive num : Set :=
| NInt (z : Z)
| NFloat (f : float).

Definition as_num (v : pyval) : option num :=
  match v with
  | VBool b => Some (NInt (if b then 1 else 0))
  | VInt z => Some (NInt z)
  | VFloat f => Some (NFloat f)
  | _ => None
  end.

Definition num_compare (a b : num) : option comparison :=
  match a, b with
  | NInt x, NInt y => Some (x ?= y)
  | NFloat f, NInt y => fcompare_Z f y
  | NInt x, NFloat g => CompOpp <$> fcompare_Z g x
  | NFloat f, NFloat g => SFcompare f g
  end.

Definition num_leb (a b : num) : bool :=
  match num_compare a b with Some (Lt | Eq) => true | _ => false end.

Definition num_eqb (a b : num) : bool :=
  match num_compare a b with Some Eq => true | _ => false end.

(** [a <= v] and [v <= b] for a float bound and an arbitrary value. *)
Definition float_le_val (a : float) (v : pyval) : result bool :=
  match as_num v with
  | Some n => Ok (num_leb (NFloat a) n)
  | None => Raise TypeError
  end.

Definition val_le_float (v : pyval) (b : float) : result bool :=
  match as_num v with
  | Some n => Ok (num_leb n (NFloat b))
  | None => Raise TypeError
  end.

(** [a == b] between two scalars. *)
Definition py_eqb (a b : pyval) : bool :=
  match a, b with
  | VNone, VNone => true
  | VStr s, VStr t => String.eqb s t
  | _, _ =>
      match as_num a, as_num b with
      | Some x, Some y => num_eqb x y
      | _, _ => false
      end
  end.

(** [d.get(k, default)] *)
Definition dict_get (d : gmap string pyval) (k : string) (default : pyval) : pyval :=
  match d !! k with Some v => v | None => default end.

End Py.
Export Py.

(** ** [DataCleaner] (src/preprocessing/cleaner.py) *)

Module Cleaner.
Section WithBuiltins.
Context `{Builtins}.

(** [v if v and v.strip() else default] *)
Definition keep_if_nonblank (v default : pyval) : result pyval :=
  if truthy v then
    let* s := call_strip v in
    Ok (if truthy (VStr s) then v else default)
  else Ok default.

(** [text.strip()[:n] if isinstance(text, str) else ''] *)
Definition clean_text (limit : option nat) (v : pyval) : pyval :=
  match v with
  | VStr s =>
      match limit with
      | Some n => VStr (str_take n (strip s))
      | None => VStr (strip s)
      end
  | _ => VStr ""
  end.

Definition clean_helpful (v : pyval) : pyval :=
  match v with
  | VList l => if (2 <=? length l)%nat then VList (take 2 l) else VList [VInt 0; VInt 0]
  | _ => VList [VInt 0; VInt 0]
  end.

Definition clean_overall (v : pyval) : result pyval :=
  try_except
    (let* overall_float := py_float v in
     Ok (if fleb f1 overall_float && fleb overall_float f5
           then VFloat overall_float else VFloat f3))
    value_or_type_error (VFloat f3).

Definition clean_unix_time (v : pyval) : result pyval :=
  try_except (let* z := py_int v in Ok (VInt z)) value_or_type_error (VInt 0).

Definition clean_review_data (review_data : gmap string pyval)
  : result (gmap string pyval) :=
  let cleaned_review : gmap string pyval := ∅ in
  let reviewerID := dict_get review_data "reviewerID" (VStr "UNKNOWN") in
  let* v := keep_if_nonblank reviewerID (VStr "UNKNOWN") in
  let cleaned_review := <["reviewerID" := v]> cleaned_review in
  let asin := dict_get review_data "asin" (VStr "UNKNOWN") in
  let cleaned_review :=
    <["asin" := if truthy asin then asin else VStr "UNKNOWN"]> cleaned_review in
  let reviewerName := dict_get review_data "reviewerName" (VStr "Anonymous") in
  let* v := keep_if_nonblank reviewerName (VStr "Anonymous") in
  let cleaned_review := <["reviewerName" := v]> cleaned_review in
  let helpful := dict_get review_data "helpful" (VList [VInt 0; VInt 0]) in
  let cleaned_review := <["helpful" := clean_helpful helpful]> cleaned_review in
  let review_text := dict_get review_data "reviewText" (VStr "") in
  let cleaned_review :=
    <["reviewText" := clean_text (Some 1000%nat) review_text]> cleaned_review in
  let overall := dict_get review_data "overall" (VFloat f3) in
  let* v := clean_overall overall in
  let cleaned_review := <["overall" := v]> cleaned_review in
  let summary := dict_get review_data "summary" (VStr "") in
  let cleaned_review :=
    <["summary" := clean_text (Some 200%nat) summary]> cleaned_review in
  let unix_time := dict_get review_data "unixReviewTime" (VInt 0) in
  let* v := clean_unix_time unix_time in
  let cleaned_review := <["unixReviewTime" := v]> cleaned_review in
  let review_time := dict_get review_data "reviewTime" (VStr "") in
  let cleaned_review := <["reviewTime" := clean_text None review_time]> cleaned_review in
  Ok cleaned_review.

End WithBuiltins.

(** [field not in review_data or not review_data[field]] for one of the
    required fields. *)
Definition missing_or_empty (review_data : gmap string pyval) (field : string) : bool :=
  match review_data !! field with
  | None => true
  | Some v => negb (truthy v)
  end.

Definition required_fields : list string := ["reviewerID"; "asin"; "overall"].

(** [1.0 <= v <= 5.0] *)
Definition in_rating_range (v : pyval) : result bool :=
  let* lo := float_le_val f1 v in
  if lo then val_le_float v f5 else Ok false.

(** [review_data.get('reviewText', '').strip() or
     review_data.get('summary', '').strip()], as a truth value. *)
Definition has_content (review_data : gmap string pyval) : result bool :=
  let* t := call_strip (dict_get review_data "reviewText" (VStr "")) in
  if truthy (VStr t) then Ok true
  else
    let* s := call_strip (dict_get review_data "summary" (VStr "")) in
    Ok (truthy (VStr s)).

Definition validate_review_quality (review_data : gmap string pyval) : result bool :=
  if existsb (missing_or_empty review_data) required_fields then Ok false
  else
    let* r := in_rating_range (dict_get review_data "overall" VNone) in
    if negb r then Ok false else has_content review_data.

Section WithBuiltins.
Context `{Builtins}.

(** The loop of [clean_batch]; an exception leaves the loop and the
    function. *)
Fixpoint clean_batch (reviews : list (gmap string pyval))
  : result (list (gmap string pyval)) :=
  match reviews with
  | [] => Ok []
  | review :: rest =>
      let* cleaned_review := clean_review_data review in
      let* ok := validate_review_quality cleaned_review in
      let* cleaned_reviews := clean_batch rest in
      Ok (if ok then cleaned_review :: cleaned_reviews else cleaned_reviews)
  end.

End WithBuiltins.
(** The dictionary that [clean_review_data] returns, from its nine values. *)
Definition assemble (rid asin name helpful text overall summary ut rt : pyval)
  : gmap string pyval :=
  <["reviewTime" := rt]> (<["unixReviewTime" := ut]> (<["summary" := summary]>
  (<["overall" := overall]> (<["reviewText" := text]> (<["helpful" := helpful]>
  (<["reviewerName" := name]> (<["asin" := asin]> (<["reviewerID" := rid]> ∅)))))))).

(** Field [k] of a raw record is a string, or is not there. *)
Definition str_or_absent (r : gmap string pyval) (k : string) : Prop :=
  match r !! k with
  | Some (VStr _) | None => True
  | Some _ => False
  end.

(** The rating of a document lies in the domain. *)
Definition rating_in_domain (d : gmap string pyval) : Prop :=
  exists f, d !! "overall" = Some (VFloat f) /\ fleb f1 f = true /\ fleb f f5 = true.

Definition text_of (d : gmap string pyval) (k : string) : string :=
  match d !! k with Some (VStr s) => s | _ => "" end.

(** No white space is left at either end of the two length-limited texts. *)
Definition settled (d : gmap string pyval) : Prop :=
  strip (text_of d "reviewText") = text_of d "reviewText" /\
  strip (text_of d "summary") = text_of d "summary".

End Cleaner.


(** ** [NoSQLManager] (src/storage/nosql_manager.py) *)

Module NoSQL.

(** A document is a dictionary; [self.tables] maps a table name to the
    documents of that table in the order of their document ids. The
    state is the store as the process sees it through the cache of
    [CachingMiddleware]. *)
Abbreviation document := (gmap string pyval).
Abbreviation tables := (gmap string (list document)).

Definition table_names : list string :=
  ["reviews"; "books"; "video_games"; "movies_tv"; "home_kitchen"; "tools";
   "patio_garden"; "metadata"].

(** [_init_tinydb] on a new file. *)
Definition init_tables : tables := list_to_map ((fun n => (n, [])) <$> table_names).

Definition mapping : gmap string string :=
  list_to_map
    [("Books", "books"); ("Video_Games", "video_games"); ("Movies_and_TV", "movies_tv");
     ("Home_and_Kitchen", "home_kitchen"); ("Tools_and_Home_Improvement", "tools");
     ("Patio_Lawn_and_Garden", "patio_garden")].

Definition _get_table_name (category : string) : string :=
  default "reviews" (mapping !! category).

(** The category partitions: the values of the table of [_get_table_name]. *)
Definition category_partition (name : string) : Prop :=
  exists c, mapping !! c = Some name.

(** Every document of a category partition is in the umbrella partition. *)
Definition duplicated (t : tables) : Prop :=
  forall name docs d,
    category_partition name -> t !! name = Some docs -> d ∈ docs ->
    exists reviews, t !! "reviews" = Some reviews /\ d ∈ reviews.

(** [if category:] for an argument that is [None] or a string. *)
Definition given (category : option string) : option string :=
  match category with
  | Some c => if String.eqb c "" then None else Some c
  | None => None
  end.

(** What the storage does with one table write: it goes through; or
    reading the store fails, before the cache is touched; or the flush
    of the cache to the file fails, after the cache took the write. *)
Inductive write_outcome : Set := Written | ReadFailed | FlushFailed.

(** The surroundings of one call of [insert_reviews]: the clock read
    for the [i]-th record, and the outcome of the [k]-th table write. *)
Record env : Type := {
  now : nat -> string;
  write : nat -> write_outcome;
}.

(** [self.tables[name].insert_multiple(docs)] *)
Definition insert_multiple (o : write_outcome) (name : string) (docs : list document)
    (t : tables) : tables * result unit :=
  match t !! name with
  | None => (t, Raise KeyError)
  | Some old =>
      match o with
      | Written => (<[name := (old ++ docs)%list]> t, Ok tt)
      | FlushFailed => (<[name := (old ++ docs)%list]> t, Raise IOError)
      | ReadFailed => (t, Raise IOError)
      end
  end.

Section WithBuiltins.
Context `{Builtins}.

Definition db_id (record : document) : string :=
  py_format (dict_get record "reviewerID" (VStr "unknown")) ++ "_" ++
  py_format (dict_get record "asin" (VStr "unknown")).

Definition process (e : env) (i : nat) (record : document) : document :=
  let processed_record := record in
  let processed_record := <["inserted_at" := VStr (now e i)]> processed_record in
  let processed_record := <["db_id" := VStr (db_id record)]> processed_record in
  processed_record.

(** The store after the call, and the value returned. *)
Definition insert_reviews (e : env) (data : list document) (category : option string)
    (t : tables) : tables * bool :=
  match data with
  | [] => (t, false)
  | _ =>
      let processed_data := imap (process e) data in
      match insert_multiple (write e 0) "reviews" processed_data t with
      | (t, Raise _) => (t, false)
      | (t, Ok _) =>
          match given category with
          | Some c =>
              let table_name := _get_table_name c in
              if bool_decide (is_Some (t !! table_name)) then
                match insert_multiple (write e 1) table_name processed_data t with
                | (t, Raise _) => (t, false)
                | (t, Ok _) => (t, true)
                end
              else (t, true)
          | None => (t, true)
          end
      end
  end.

(** All the ways a call of [insert_reviews] can go. *)
Inductive insert_case (e : env) (data : list document) (category : option string)
    (t : tables) : tables * bool -> Prop :=
| empty_batch :
    data = [] -> insert_case e data category t (t, false)
| no_reviews_table :
    data <> [] -> t !! "reviews" = None -> insert_case e data category t (t, false)
| first_read_failed reviews :
    data <> [] -> t !! "reviews" = Some reviews -> write e 0 = ReadFailed ->
    insert_case e data category t (t, false)
| first_flush_failed reviews :
    data <> [] -> t !! "reviews" = Some reviews -> write e 0 = FlushFailed ->
    insert_case e data category t
      (<["reviews" := (reviews ++ imap (process e) data)%list]> t, false)
| general_only reviews :
    data <> [] -> t !! "reviews" = Some reviews -> write e 0 = Written ->
    (given category = None \/
     exists c, given category = Some c /\
               <["reviews" := (reviews ++ imap (process e) data)%list]> t
                 !! _get_table_name c = None) ->
    insert_case e data category t
      (<["reviews" := (reviews ++ imap (process e) data)%list]> t, true)
| second_write reviews c old :
    data <> [] -> t !! "reviews" = Some reviews -> write e 0 = Written ->
    given category = Some c ->
    <["reviews" := (reviews ++ imap (process e) data)%list]> t !! _get_table_name c
      = Some old ->
    insert_case e data category t
      (match write e 1 with
       | ReadFailed => <["reviews" := (reviews ++ imap (process e) data)%list]> t
       | _ => <[_get_table_name c := (old ++ imap (process e) data)%list]>
                (<["reviews" := (reviews ++ imap (process e) data)%list]> t)
       end,
       match write e 1 with Written => true | _ => false end).

(** One call of [insert_reviews], and a sequence of calls. *)
Record call : Type := {
  call_env : env;
  call_data : list document;
  call_category : option string;
}.

Definition run (calls : list call) (t : tables) : tables :=
  foldl (fun t c => fst (insert_reviews (call_env c) (call_data c) (call_category c) t))
    t calls.

End WithBuiltins.

(** The table that a query reads: [self.tables.get(table_name,
    self.tables['reviews'])] under a category, [self.tables['reviews']]
    without. *)
Definition select_table (t : tables) (category : option string) : result (list document) :=
  match given category with
  | Some c =>
      let table_name := _get_table_name c in
      match t !! "reviews" with
      | None => Raise KeyError
      | Some reviews => Ok (default reviews (t !! table_name))
      end
  | None =>
      match t !! "reviews" with
      | None => Raise KeyError
      | Some reviews => Ok reviews
      end
  end.

(** [(Review.overall >= min_rating) & (Review.overall <= max_rating)]
    on one document; a document without the field fails the test. *)
Definition query_condition (min_rating max_rating : float) (doc : document) : result bool :=
  match doc !! "overall" with
  | None => Ok false
  | Some v =>
      let* lo := float_le_val min_rating v in
      if lo then val_le_float v max_rating else Ok false
  end.

(** [table.search(cond)] *)
Fixpoint search (cond : document -> result bool) (docs : list document)
  : result (list document) :=
  match docs with
  | [] => Ok []
  | doc :: rest =>
      let* keep := cond doc in
      let* found := search cond rest in
      Ok (if keep then doc :: found else found)
  end.

(** [try: ... except Exception: return fallback] *)
Definition or_else {A} (m : result A) (fallback : A) : A :=
  match m with Ok a => a | Raise _ => fallback end.

Definition query_by_rating (t : tables) (min_rating max_rating : float)
    (category : option string) : list document :=
  or_else
    (let* table := select_table t category in
     search (query_condition min_rating max_rating) table)
    [].

(** *** The data frame of a table *)

(** ['c' in df.columns] *)
Definition has_column (c : string) (records : list document) : bool :=
  existsb (fun d => bool_decide (is_Some (d !! c))) records.

(** A cell of a column: absent keys, [None] and NaN are null. *)
Definition is_null (cell : option pyval) : bool :=
  match cell with
  | None | Some VNone | Some (VFloat S754_nan) => true
  | _ => false
  end.

(** The dtype that [pd.DataFrame] gives a column, with the values that
    the figures are computed from: [int64] when every record has an
    integer of 64 bits there; [float64] when the cells are floats,
    such integers or null, with the values that are not null;
    [object] with a string, a list or a dict in it; [object] or
    another dtype for another reason (bools, integers outside the 64
    bits). *)
Inductive column : Type :=
| IntColumn (first : Z) (rest : list Z)
| FloatColumn (values : list float)
| TextColumn
| MixedColumn.

Definition int64 (z : Z) : bool := (- 2 ^ 63 <=? z) && (z <? 2 ^ 63).

Definition textual (cell : option pyval) : bool :=
  match cell with
  | Some (VStr _) | Some (VList _) | Some (VDict _) => true
  | _ => false
  end.

(** The cells as integers of 64 bits, when each of them is one. *)
Fixpoint int_cells (cells : list (option pyval)) : option (list Z) :=
  match cells with
  | [] => Some []
  | Some (VInt z) :: rest => if int64 z then cons z <$> int_cells rest else None
  | _ => None
  end.

(** The cells as floats, [None] for a null, when each of them is a
    float, an integer of 64 bits or null. *)
Fixpoint float_cells (cells : list (option pyval)) : option (list (option float)) :=
  match cells with
  | [] => Some []
  | cell :: rest =>
      if is_null cell then cons None <$> float_cells rest
      else
        match cell with
        | Some (VFloat f) => cons (Some f) <$> float_cells rest
        | Some (VInt z) =>
            if int64 z then cons (Some (float_of_Z z)) <$> float_cells rest else None
        | _ => None
        end
  end.

Definition column_of (cells : list (option pyval)) : column :=
  if existsb textual cells then TextColumn
  else
    match int_cells cells with
    | Some (z :: zs) => IntColumn z zs
    | _ =>
        match float_cells cells with
        | Some values => FloatColumn (omap id values)
        | None => MixedColumn
        end
    end.

(** The column has dtype [int64] or [float64]. *)
Definition numeric_dtype (cells : list (option pyval)) : bool :=
  match column_of cells with
  | IntColumn _ _ | FloatColumn _ => true
  | _ => false
  end.

(** A cell of such a column as a float, [None] for a null. *)
Definition float_value (cell : option pyval) : option float :=
  match cell with
  | Some (VFloat f) => if is_nan f then None else Some f
  | Some (VInt z) => Some (float_of_Z z)
  | _ => None
  end.

(** A cell used as a key (of a group, or counted by [nunique]): lists
    and dicts cannot be hashed. *)
Definition key_cell (cell : option pyval) : result (option pyval) :=
  if is_null cell then Ok None
  else
    match cell with
    | Some (VList _) | Some (VDict _) => Raise TypeError
    | Some v => Ok (Some v)
    | None => Ok None
    end.

(** The order in which sorted keys come out: numbers by value, before
    strings by code points. *)
Definition key_leb (a b : pyval) : bool :=
  match as_num a, as_num b with
  | Some x, Some y => num_leb x y
  | Some _, None => true
  | None, Some _ => false
  | None, None =>
      match a, b with
      | VStr s, VStr t => String.leb s t
      | _, _ => true
      end
  end.

(** Insertion of a key into a sorted list of distinct keys. *)
Fixpoint insert_key (k : pyval) (keys : list pyval) : list pyval :=
  match keys with
  | [] => [k]
  | k' :: rest =>
      if py_eqb k k' then keys
      else if key_leb k k' then k :: keys
      else k' :: insert_key k rest
  end.

Definition sorted_keys (cells : list pyval) : list pyval :=
  foldl (fun keys k => insert_key k keys) [] cells.

(** The documents of a table that review product [k]. *)
Definition reviews_product (k : pyval) (d : document) : bool :=
  match d !! "asin" with
  | Some v => py_eqb v k
  | None => false
  end.


(** One product of the ranking, a row of [to_dict('records')]. *)
Record top_product : Type := {
  asin : pyval;
  avg_rating : float;
  review_count : nat;
  sample_review : pyval;
}.

(** [b] may follow [a] in a column sorted in descending order, NaN last. *)
Definition may_follow (a b : float) : bool :=
  is_nan b || (negb (is_nan a) && fleb b a).

(** A ranking in descending order of the mean rating. *)
Abbreviation descending :=
  (Sorted (fun a b : top_product => may_follow (avg_rating a) (avg_rating b) = true)).

(** The figures of a rating column: its mean, its least and its
    greatest value, and its values with the number of times each
    occurs, in ascending order. *)
Record figures : Type := {
  fig_avg : pyval;
  fig_min : pyval;
  fig_max : pyval;
  fig_distribution : list (pyval * nat);
}.

(** The numeric kernels of pandas, and its sort: [sort_values] with
    the default [kind] promises a sorted rearrangement and no more.
    Three fields stand for what pandas does where the values are not
    plain numbers of a numeric column, and nothing is assumed of
    them: [object_figures], the figures of a column that is neither
    [int64] nor [float64] and holds no string, list or dict (a bool, an
    integer outside the 64 bits); [object_group_mean], the mean of the
    cells of one group of such a column, after [round]; [first_other],
    the [first] of the texts of a group, after [round], when that is
    not a string. Both take the column and the cells of the group. *)
Class Pandas := {
  series_mean : list float -> float;
  group_mean : list float -> float;
  round2 : float -> float;
  object_figures : list (option pyval) -> result figures;
  object_group_mean : list (option pyval) -> list (option pyval) -> result float;
  first_other : list (option pyval) -> list pyval -> pyval;
  sort_values : list top_product -> list top_product;
  sort_values_perm : forall rows, Permutation rows (sort_values rows);
  sort_values_sorted : forall rows, descending (sort_values rows);
}.

Fixpoint map_result {A B} (f : A -> result B) (l : list A) : result (list B) :=
  match l with
  | [] => Ok []
  | a :: rest =>
      let* b := f a in
      let* bs := map_result f rest in
      Ok (b :: bs)
  end.

(** A row of the frame restricted to the three columns of the ranking:
    the key under which [groupby('asin')] files the row, [None] for a
    row that it drops, and the two cells as the document has them. *)
Record frame_row : Type := {
  row_key : option pyval;
  row_rating : option pyval;
  row_text : option pyval;
}.

Definition to_row (doc : document) : result frame_row :=
  let* k := key_cell (doc !! "asin") in
  Ok {| row_key := k; row_rating := doc !! "overall"; row_text := doc !! "reviewText" |}.

Fixpoint to_frame (records : list document) : result (list frame_row) :=
  match records with
  | [] => Ok []
  | doc :: rest =>
      let* row := to_row doc in
      let* rows := to_frame rest in
      Ok (row :: rows)
  end.

Definition in_group (k : pyval) (row : frame_row) : bool :=
  match row_key row with
  | Some k' => py_eqb k' k
  | None => false
  end.

(** The documents of a table that review product [k], the number of
    them that have a rating, and the ratings (of a numeric column). *)
Definition product_reviews (k : pyval) (records : list document) : list document :=
  filter (fun d => reviews_product k d = true) records.

Definition rated_reviews (k : pyval) (records : list document) : nat :=
  length (filter (fun d : document => is_null (d !! "overall") = false)
            (product_reviews k records)).



(** A number that is no NaN, and a key of a group: a value that can be
    hashed and is not null. *)
Definition ordinary (n : num) : Prop :=
  match n with NInt _ => True | NFloat f => is_nan f = false end.

Definition is_key (k : pyval) : Prop := key_cell (Some k) = Ok (Some k).

(** Ascending order of the keys of the groups. *)
Abbreviation ascending := (Sorted (fun a b : pyval => key_leb a b = true)).

(** [n] of [head(n)]: the first [n] rows, or all but the last [-n]. *)
Definition head {A} (n : Z) (rows : list A) : list A :=
  if 0 <=? n then take (Z.to_nat n) rows
  else take (length rows - Z.to_nat (- n)) rows.

Section WithPandas.
Context `{Pandas}.

(** [mean] of the ratings of one group, after [round(2)]: [ratings] is
    the rating column, [cells] are its cells in the group. On a column
    of dtype [int64] or [float64] it is the rounded mean of the values
    that are not null. On another column the mean is computed on the
    cells as they are, which raises when a string, a list or a dict is
    among them. *)
Definition group_average (ratings cells : list (option pyval)) : result float :=
  if numeric_dtype ratings then Ok (round2 (group_mean (omap float_value cells)))
  else if existsb textual cells then Raise TypeError
  else object_group_mean ratings cells.

(** [first] of the texts of one group, the first of them that is not
    null: [texts] is the text column, [found] are the texts of the
    group that are not null. *)
Definition group_first (texts : list (option pyval)) (found : list pyval) : pyval :=
  match found with
  | VStr s :: _ => VStr s
  | _ => first_other texts found
  end.

(** [groupby('asin').agg({'overall': ['mean', 'count'], 'reviewText':
    'first'}).round(2)]: rows whose key is null belong to no group;
    the count is the number of the ratings of the group that are not
    null; there is one row per key, in sorted order. The aggregation
    raises when the ratings of one of the groups cannot be
    averaged. *)
Definition aggregate_group (rows : list frame_row) (k : pyval) : result top_product :=
  let group := filter (fun row => in_group k row = true) rows in
  let cells := row_rating <$> group in
  let* average := group_average (row_rating <$> rows) cells in
  Ok {| asin := k;
        avg_rating := average;
        review_count := length (filter (fun cell => is_null cell = false) cells);
        sample_review :=
          group_first (row_text <$> rows)
            (omap id (filter (fun cell => is_null cell = false) (row_text <$> group))) |}.

Definition product_ratings (rows : list frame_row) : result (list top_product) :=
  map_result (aggregate_group rows) (sorted_keys (omap row_key rows)).


Definition top_products_of (records : list document) (limit : Z) : result (list top_product) :=
  match records with
  | [] => Ok []
  | _ =>
      if negb (has_column "asin" records) || negb (has_column "overall" records) then Ok []
      else if negb (has_column "reviewText" records) then Raise KeyError
      else
        let* df := to_frame records in
        let* product_ratings := product_ratings df in
        Ok (head limit
              (sort_values
                 (filter (fun p => (2 <=? review_count p)%nat = true) product_ratings)))
  end.

Definition query_top_products (t : tables) (category : option string) (limit : Z)
  : list top_product :=
  or_else (let* records := select_table t category in top_products_of records limit) [].

End WithPandas.

(** *** Aggregation by category *)

Definition category_mapping : list (string * string) :=
  [("books", "Books"); ("video_games", "Video Games"); ("movies_tv", "Movies & TV");
   ("home_kitchen", "Home & Kitchen"); ("tools", "Tools & Home Improvement");
   ("patio_garden", "Patio, Lawn & Garden")].

(** The value stored under a display name. The three rating figures
    have the type of the rating column (the mean is a float), or are
    the integer 0 when no record has the field. *)
Record agg_data : Type := {
  agg_count : nat;
  agg_avg_rating : pyval;
  agg_min_rating : pyval;
  agg_max_rating : pyval;
  agg_unique_users : nat;
  agg_unique_products : nat;
  agg_rating_distribution : option (list (pyval * nat));
}.

(** [min()] and [max()] of the non-null values, NaN when there is none. *)
Definition series_min (values : list float) : float :=
  match values with
  | [] => S754_nan
  | v :: rest => foldl (fun m x => if fleb x m then x else m) v rest
  end.

Definition series_max (values : list float) : float :=
  match values with
  | [] => S754_nan
  | v :: rest => foldl (fun m x => if fleb m x then x else m) v rest
  end.

(** [value_counts().sort_index().to_dict()]: one entry per distinct
    value, in ascending order. *)
Fixpoint bump {A} (eqb leb : A -> A -> bool) (x : A) (dist : list (A * nat))
  : list (A * nat) :=
  match dist with
  | [] => [(x, 1%nat)]
  | (y, n) :: rest =>
      if eqb x y then (y, S n) :: rest
      else if leb x y then (x, 1%nat) :: dist
      else (y, n) :: bump eqb leb x rest
  end.

Definition value_counts {A} (eqb leb : A -> A -> bool) (values : list A) : list (A * nat) :=
  foldl (fun dist x => bump eqb leb x dist) [] values.

(** [df[c].nunique()] *)
Definition nunique (c : string) (records : list document) : result nat :=
  let* cells := map_result (fun d : document => key_cell (d !! c)) records in
  Ok (length (sorted_keys (omap id cells))).

(** The display names of the category tables that hold a document. *)
Definition nonempty_displays (t : tables) (items : list (string * string)) : list string :=
  omap (fun item : string * string =>
          match t !! item.1 with
          | Some (_ :: _) => Some item.2
          | _ => None
          end) items.

Section WithPandas.
Context `{Pandas}.

(** [mean()], [min()], [max()] and [value_counts().sort_index()] of
    the rating column: the mean of a column that holds a string, a
    list or a dict raises. *)
Definition column_figures (cells : list (option pyval)) : result figures :=
  match column_of cells with
  | IntColumn z zs =>
      Ok {| fig_avg := VFloat (series_mean (float_of_Z <$> z :: zs));
            fig_min := VInt (foldl Z.min z zs);
            fig_max := VInt (foldl Z.max z zs);
            fig_distribution :=
              prod_map VInt id <$> value_counts Z.eqb Z.leb (z :: zs) |}
  | FloatColumn values =>
      Ok {| fig_avg := VFloat (series_mean values);
            fig_min := VFloat (series_min values);
            fig_max := VFloat (series_max values);
            fig_distribution := prod_map VFloat id <$> value_counts feqb fleb values |}
  | TextColumn => Raise TypeError
  | MixedColumn => object_figures cells
  end.

(** The body of the loop of [aggregate_by_category] for one non-empty
    table. *)
Definition category_stats (records : list document) : result agg_data :=
  let with_overall := has_column "overall" records in
  let* ratings :=
    if with_overall
    then
      let* figs := column_figures ((fun d : document => d !! "overall") <$> records) in
      Ok (Some figs)
    else Ok None in
  let* users :=
    if has_column "reviewerID" records then nunique "reviewerID" records else Ok 0%nat in
  let* products :=
    if has_column "asin" records then nunique "asin" records else Ok 0%nat in
  Ok {| agg_count := length records;
        agg_avg_rating := from_option fig_avg (VInt 0) ratings;
        agg_min_rating := from_option fig_min (VInt 0) ratings;
        agg_max_rating := from_option fig_max (VInt 0) ratings;
        agg_unique_users := users;
        agg_unique_products := products;
        agg_rating_distribution := fig_distribution <$> ratings |}.

(** The stats of every non-empty table among [items] can be computed. *)
Definition stats_computable (t : tables) (items : list (string * string)) : Prop :=
  forall item records,
    item ∈ items -> t !! item.1 = Some records -> records <> [] ->
    exists a, category_stats records = Ok a.

Fixpoint aggregate_loop (t : tables) (items : list (string * string))
    (aggregations : gmap string agg_data) : result (gmap string agg_data) :=
  match items with
  | [] => Ok aggregations
  | (table_name, display_name) :: rest =>
      match t !! table_name with
      | Some ((_ :: _) as records) =>
          let* agg_data := category_stats records in
          aggregate_loop t rest (<[display_name := agg_data]> aggregations)
      | _ => aggregate_loop t rest aggregations
      end
  end.

Definition aggregate_by_category (t : tables) : gmap string agg_data :=
  or_else (aggregate_loop t category_mapping ∅) ∅.

End WithPandas.
End NoSQL.

(** ** The rest of [NoSQLManager]: loading and basic statistics *)

Module Loader.
Import NoSQL.

(** [self.db_type] and [str(self.db_path)], and what the file system
    answers for [round(st_size / (1024 * 1024), 2) if exists else 0]. *)
Record db_file : Type := {
  db_type : string;
  db_path : string;
  size_mb : result pyval;
}.

Record database_info : Type := {
  info_type : string;
  info_path : string;
  info_size_mb : pyval;
}.

Record basic_stats : Type := {
  total_reviews : nat;
  categories : gmap string nat;
  stats_database_info : database_info;
}.

Definition category_tables : list string :=
  ["books"; "video_games"; "movies_tv"; "home_kitchen"; "tools"; "patio_garden"].

(** [None] stands for the empty dictionary of the [except] branch. *)
Definition get_basic_stats (db : db_file) (t : tables) : option basic_stats :=
  match t !! "reviews" with
  | None => None
  | Some reviews =>
      match size_mb db with
      | Raise _ => None
      | Ok size =>
          Some {| total_reviews := length reviews;
                  categories :=
                    foldl (fun cats table_name =>
                             match t !! table_name with
                             | Some docs => <[table_name := length docs]> cats
                             | None => cats
                             end) ∅ category_tables;
                  stats_database_info :=
                    {| info_type := db_type db; info_path := db_path db;
                       info_size_mb := size |} |}
      end
  end.

(** The sum of the counts that [get_basic_stats] reports per category. *)
Definition category_total (stats : basic_stats) : nat :=
  sum_list ((fun name => default 0%nat (categories stats !! name)) <$> category_tables).

(** [processed/{category}_sample.json]: not there; there but not a
    JSON list of objects that [insert_reviews] can take (the read, the
    parse or the insert raises); or a list of records. *)
Inductive file_state : Type :=
| Missing
| Unusable
| Content (data : list document).

(** The surroundings of one call of [load_all_categories]. *)
Record load_env : Type := {
  file : string -> file_state;
  insert_env : string -> env;
  metadata_stamp : string;
  metadata_write : write_outcome;
}.

(** The local [categories] of [load_all_categories], in its order. *)
Definition load_categories : list (string * string) :=
  [("Books", "books"); ("Video_Games", "video_games"); ("Movies_and_TV", "movies_tv");
   ("Home_and_Kitchen", "home_kitchen"); ("Tools_and_Home_Improvement", "tools");
   ("Patio_Lawn_and_Garden", "patio_garden")].

(** [self.tables['metadata'].insert(metadata)] *)
Definition _save_load_metadata (db : db_file) (stamp : string) (o : write_outcome)
    (total_records categories_count : Z) (t : tables) : tables * result unit :=
  let metadata : document :=
    <["db_path" := VStr (db_path db)]> (<["db_type" := VStr (db_type db)]>
    (<["categories_loaded" := VInt categories_count]>
    (<["total_records" := VInt total_records]>
    (<["load_timestamp" := VStr stamp]> ∅)))) in
  insert_multiple o "metadata" [metadata] t.

Section WithBuiltins.
Context `{Builtins}.

(** One turn of the loop: the store and [total_inserted]. *)
Definition load_step (e : load_env) (acc : tables * Z) (category : string * string)
  : tables * Z :=
  let '(t, total_inserted) := acc in
  match file e category.1 with
  | Content data =>
      let '(t, success) := insert_reviews (insert_env e category.1) data (Some category.1) t in
      (t, if success then total_inserted + Z.of_nat (length data) else total_inserted)
  | Unusable => (t, total_inserted)
  | Missing => (t, total_inserted)
  end.

(** The store after the call; and the value returned, or the exception
    of the metadata write, which nothing catches. *)
Definition load_all_categories (db : db_file) (e : load_env) (t : tables)
  : tables * result bool :=
  let '(t, total_inserted) := foldl (load_step e) (t, 0) load_categories in
  match _save_load_metadata db (metadata_stamp e) (metadata_write e) total_inserted
          (Z.of_nat (length load_categories)) t with
  | (t, Ok _) => (t, Ok (0 <? total_inserted))
  | (t, Raise x) => (t, Raise x)
  end.

End WithBuiltins.
End Loader.

(** ** [DataTransformer] (src/preprocessing/transformer.py) *)

Module Transformer.
Import NoSQL.

Definition category_mapping : gmap string string :=
  list_to_map
    [("Books", "Entertainment"); ("Video_Games", "Entertainment");
     ("Movies_and_TV", "Entertainment"); ("Home_and_Kitchen", "Home");
     ("Tools_and_Home_Improvement", "Home"); ("Patio_Lawn_and_Garden", "Home")].

Definition category_group (category_name : string) : string :=
  default "Other" (category_mapping !! category_name).

Definition analysis_type (group : string) : string :=
  if String.eqb group "Entertainment" then "Leisure/Personal"
  else if String.eqb group "Home" then "Practical/Utility"
  else "General".

(** [timestamp] is [datetime.now().timestamp()]. *)
Definition enrich_review_data (timestamp : float) (review_data : document)
    (category_name : string) : document :=
  let review_data := <["category_group" := VStr (category_group category_name)]> review_data in
  let review_data :=
    <["analysis_type" := VStr (analysis_type (category_group category_name))]> review_data in
  let review_data := <["download_timestamp" := VFloat timestamp]> review_data in
  let review_data := <["original_category" := VStr category_name]> review_data in
  review_data.

End Transformer.

(** ** The review schema (config/database.py) *)

Module Schema.
Import NoSQL.

(** The fields of [REVIEW_SCHEMA] with their [required] flag, [False]
    where the entry has none. *)
Definition REVIEW_SCHEMA : list (string * bool) :=
  [("reviewerID", true); ("asin", true); ("reviewerName", false); ("helpful", false);
   ("reviewText", false); ("overall", true); ("summary", false);
   ("unixReviewTime", false); ("reviewTime", false); ("category_group", false);
   ("analysis_type", false); ("original_category", true); ("download_timestamp", false)].

Definition required_fields : list string :=
  fst <$> filter (fun entry : string * bool => entry.2 = true) REVIEW_SCHEMA.

Definition validate_review_schema (review : document) : bool :=
  if existsb (fun field => negb (bool_decide (is_Some (review !! field)))) required_fields
  then false
  else
    match review !! "overall" with
    | Some rating =>
        match as_num rating with
        | Some n => num_leb (NFloat f1) n && num_leb n (NFloat f5)
        | None => false
        end
    | None => true
    end.

End Schema.

(** ** Notions in which the properties are stated *)

Module Notions.
Import Cleaner NoSQL Loader Transformer.

(** The nine fields of a cleaned record. *)
Definition cleaned_fields : gset string :=
  list_to_set ["reviewerID"; "asin"; "reviewerName"; "helpful"; "reviewText"; "overall";
               "summary"; "unixReviewTime"; "reviewTime"].

(** [d] has content, as [validate_review_quality] finds it. *)
Definition with_content (d : gmap string pyval) : bool :=
  match has_content d with Ok b => b | Raise _ => false end.

Section WithBuiltins.
Context `{Builtins}.

(** The cleaned records of a batch, when every one can be cleaned. *)
Fixpoint clean_each (reviews : list (gmap string pyval))
  : result (list (gmap string pyval)) :=
  match reviews with
  | [] => Ok []
  | review :: rest =>
      let* d := clean_review_data review in
      let* ds := clean_each rest in
      Ok (d :: ds)
  end.

End WithBuiltins.

(** Every table of [t] is a table of [t'], with its documents first. *)
Definition extends (t t' : tables) : Prop :=
  (forall name old, t !! name = Some old ->
     exists added, t' !! name = Some (old ++ added)%list) /\
  dom t' = dom t.

(** The rating of [doc] is a number between the two bounds. *)
Definition rating_between (min_rating max_rating : float) (doc : document) : bool :=
  match doc !! "overall" with
  | Some v =>
      match as_num v with
      | Some n => num_leb (NFloat min_rating) n && num_leb n (NFloat max_rating)
      | None => false
      end
  | None => false
  end.

(** Every rating of the table is a bool, an int or a float. *)
Definition numeric_ratings (docs : list document) : Prop :=
  forall doc v, doc ∈ docs -> doc !! "overall" = Some v -> is_Some (as_num v).

Definition table_size (t : tables) (name : string) : nat :=
  length (default [] (t !! name)).

Definition category_sum (t : tables) : nat :=
  sum_list (table_size t <$> category_tables).

(** The category tables hold no more documents than 'reviews'. *)
Definition counted (t : tables) : Prop :=
  (category_sum t <= table_size t "reviews")%nat.

(** The tables of [_init_tinydb] are there. *)
Definition complete (t : tables) : Prop :=
  forall name, name ∈ table_names -> is_Some (t !! name).

(** The number of records that the file of a category offers. *)
Definition file_records (s : file_state) : nat :=
  match s with Content data => length data | _ => 0%nat end.

Definition offered (e : load_env) : nat :=
  sum_list ((fun c : string * string => file_records (file e c.1)) <$> load_categories).

(** Every table write of the inserts goes through. *)
Definition all_written (e : load_env) : Prop :=
  forall c k, write (insert_env e c) k = Written.

(** What the files of [cats] add to the table [n]. *)
Definition grown (e : load_env) (cats : list (string * string)) (n : string) : nat :=
  sum_list ((fun c : string * string =>
               if bool_decide (n = "reviews" \/ n = c.2)
               then file_records (file e c.1) else 0%nat) <$> cats).

(** The number of documents of a table that have a rating. *)
Definition rated (records : list document) : nat :=
  length (filter (fun d : document => is_null (d !! "overall") = false) records).

Definition known_categories : list string :=
  ["Books"; "Video_Games"; "Movies_and_TV"; "Home_and_Kitchen";
   "Tools_and_Home_Improvement"; "Patio_Lawn_and_Garden"].

End Notions.

(** ** A reference runtime

    Numbers written as plain decimal integers, with an optional sign
    and surrounding white space: the part of [float(s)] and [int(s)]
    used to run the definitions on concrete records. *)

Module Reference.

Definition digit_of (c : ascii) : option Z :=
  let n := N_of_ascii c in
  if ((48 <=? n) && (n <=? 57))%N then Some (Z.of_N n - 48) else None.

Fixpoint digits_from (acc : Z) (s : string) : option Z :=
  match s with
  | EmptyString => Some acc
  | String c s' =>
      match digit_of c with
      | Some d => digits_from (10 * acc + d) s'
      | None => None
      end
  end.

Definition decimal (s : string) : option Z :=
  match strip s with
  | EmptyString => None
  | String "-" (String c r) => Z.opp <$> digits_from 0 (String c r)
  | String "+" (String c r) => digits_from 0 (String c r)
  | t => digits_from 0 t
  end.

(** [str(v)] for [None], the booleans, the integers and strings; the
    text of a float, a list or a dict is left out. *)
Definition str_of (v : pyval) : string :=
  match v with
  | VNone => "None"
  | VBool true => "True"
  | VBool false => "False"
  | VInt z => pretty z
  | VStr s => s
  | _ => "..."
  end.

#[export] Instance builtins : Builtins := {|
  float_of_str s :=
    match decimal s with
    | Some z => match float_of_Z z with S754_infinity _ => None | f => Some f end
    | None => None
    end;
  int_of_str := decimal;
  Py.str_of := str_of;
|}.


(** A straightforward pandas: means by left-to-right summation,
    rounding to two decimals through the nearest integer of a hundred
    times the value, and a stable insertion sort. *)

Import NoSQL.

Definition fsum (values : list float) : float :=
  foldl (SFadd prec emax) f0 values.

Definition mean (values : list float) : float :=
  SFdiv prec emax (fsum values) (float_of_Z (Z.of_nat (length values))).

(** The integer nearest to a finite float, ties to even. *)
Definition nearest (f : float) : option Z :=
  match f with
  | S754_zero _ => Some 0
  | S754_finite s m e =>
      if 0 <=? e then Some (cond_Zopp s (Zpos m * 2 ^ e))
      else
        let d := 2 ^ (- e) in
        let q := Zpos m / d in
        let r := Zpos m mod d in
        Some (cond_Zopp s
                (match 2 * r ?= d with
                 | Lt => q
                 | Gt => q + 1
                 | Eq => if Z.even q then q else q + 1
                 end))
  | _ => None
  end.

Definition round2 (f : float) : float :=
  match nearest (SFmul prec emax f (float_of_Z 100)) with
  | Some z => SFdiv prec emax (float_of_Z z) (float_of_Z 100)
  | None => f
  end.

Fixpoint insert_desc (p : top_product) (rows : list top_product) : list top_product :=
  match rows with
  | [] => [p]
  | q :: rest =>
      if may_follow (avg_rating p) (avg_rating q) then p :: rows
      else q :: insert_desc p rest
  end.

Definition sort_desc (rows : list top_product) : list top_product :=
  foldr insert_desc [] rows.

(** The figures of a column of numbers of several types, compared as
    numbers: the least and the greatest are the first of their value;
    a cell that is no number raises. *)
Definition as_float (v : pyval) : option float :=
  match as_num v with
  | Some (NInt z) => Some (float_of_Z z)
  | Some (NFloat f) => Some f
  | None => None
  end.

Definition object_group_mean (ratings cells : list (option pyval)) : result float :=
  match mapM as_float (omap id (filter (fun cell => is_null cell = false) cells)) with
  | None => Raise TypeError
  | Some floats => Ok (mean floats)
  end.

Definition first_other (texts : list (option pyval)) (found : list pyval) : pyval :=
  default VNone (list.head found).

Definition object_figures (cells : list (option pyval)) : result figures :=
  let values := omap id (filter (fun cell => is_null cell = false) cells) in
  match mapM as_float values with
  | None => Raise TypeError
  | Some floats =>
      Ok {| fig_avg := VFloat (mean floats);
            fig_min :=
              match values with
              | [] => VFloat S754_nan
              | v :: rest => foldl (fun m x => if key_leb m x then m else x) v rest
              end;
            fig_max :=
              match values with
              | [] => VFloat S754_nan
              | v :: rest => foldl (fun m x => if key_leb x m then m else x) v rest
              end;
            fig_distribution := value_counts py_eqb key_leb values |}
  end.

End Reference.

(** ** Sample records and stores *)

Module Samples.
Import Cleaner.

Definition raw (overall : pyval) : gmap string pyval :=
  <["overall" := overall]> (<["reviewText" := VStr "  great  "]>
  (<["asin" := VStr "P1"]> (<["reviewerID" := VStr "A"]> ∅))).

Definition cleaned (overall : pyval) : gmap string pyval :=
  assemble (VStr "A") (VStr "P1") (VStr "Anonymous") (VList [VInt 0; VInt 0])
    (VStr "great") overall (VStr "") (VInt 0) (VStr "").

(** A record with neither [reviewerID] nor [asin]. *)
Definition raw_no_ids : gmap string pyval :=
  <["overall" := VFloat f5]> (<["reviewText" := VStr "great"]> ∅).

Definition cleaned_no_ids : gmap string pyval :=
  assemble (VStr "UNKNOWN") (VStr "UNKNOWN") (VStr "Anonymous") (VList [VInt 0; VInt 0])
    (VStr "great") (VFloat f5) (VStr "") (VInt 0) (VStr "").

(** A summary of 201 characters whose 200th is a space. *)
Definition a199 : string := string_of_list_ascii (repeat "a"%char 199).

Definition raw_long_summary : gmap string pyval :=
  <["summary" := VStr (a199 ++ " b")]> (raw (VFloat f5)).

Definition cleaned_long_summary (summary : string) : gmap string pyval :=
  assemble (VStr "A") (VStr "P1") (VStr "Anonymous") (VList [VInt 0; VInt 0])
    (VStr "great") (VFloat f5) (VStr summary) (VInt 0) (VStr "").

End Samples.

Module StoreSamples.
Import NoSQL.

Definition review (reviewer product : string) (overall : pyval) (text : string) : document :=
  <["reviewText" := VStr text]> (<["overall" := overall]>
  (<["asin" := VStr product]> (<["reviewerID" := VStr reviewer]> ∅))).

Definition stamp : string := "2024-01-01T00:00:00".

(** What [insert_reviews] makes of [review reviewer product ...]. *)
Definition stored (reviewer product : string) (overall : pyval) (text : string) : document :=
  <["db_id" := VStr (reviewer ++ "_" ++ product)]>
    (<["inserted_at" := VStr stamp]> (review reviewer product overall text)).

Definition calm : env := {| now := fun _ => stamp; write := fun _ => Written |}.
Definition broken : env := {| now := fun _ => stamp; write := fun _ => FlushFailed |}.

Definition a_p1 : document := review "A" "P1" (VFloat f5) "great".
Definition b_p1 : document := review "B" "P1" (VFloat f4) "good".

End StoreSamples.

Module QuerySamples.
Import NoSQL StoreSamples.

Definition with_reviews (docs : list document) : tables :=
  <["reviews" := docs]> init_tables.

(** The two reviews of product P1, loaded under 'Books'. *)
Definition loaded : tables :=
  <["books" := [stored "A" "P1" (VFloat f5) "great"; stored "B" "P1" (VFloat f4) "good"]]>
    (with_reviews [stored "A" "P1" (VFloat f5) "great"; stored "B" "P1" (VFloat f4) "good"]).

(** Product P1 with two reviews and product P2 with one. *)
Definition mixed : tables :=
  with_reviews [stored "A" "P1" (VFloat f5) "great"; stored "B" "P1" (VFloat f4) "good";
                stored "A" "P2" (VFloat f5) "superb"].



(** A review whose rating is the string "abc", loaded under 'Books'
    without passing through the cleaner. *)
Definition garbled : tables :=
  <["books" := [stored "A" "P1" (VStr "abc") "great"]]>
    (with_reviews [stored "A" "P1" (VStr "abc") "great"]).


End QuerySamples.

Module LoadSamples.
Import NoSQL Loader StoreSamples.

(** Only the file of 'Books' is there, with two records. *)
Definition books_only : load_env :=
  {| file := fun c => if String.eqb c "Books" then Content [a_p1; b_p1]
                      else if String.eqb c "Video_Games" then Unusable else Missing;
     insert_env := fun _ => calm;
     metadata_stamp := stamp;
     metadata_write := Written |}.

(** No file is there, and the storage does not take the metadata. *)
Definition nothing_there : load_env :=
  {| file := fun _ => Missing;
     insert_env := fun _ => broken;
     metadata_stamp := stamp;
     metadata_write := FlushFailed |}.

Definition sample_db : db_file :=
  {| db_type := "tinydb"; db_path := "data/amazon_reviews.json"; size_mb := Ok (VInt 0) |}.

End LoadSamples.

(** * Proofs *)

(** ** Properties of the string builtins *)

Module PyFacts.

Lemma bind_Ok {A B} (m : result A) (k : A -> result B) (b : B) :
  bind m k = Ok b -> exists a, m = Ok a /\ k a = Ok b.
Proof. destruct m as [a|e]; cbn; [eauto|discriminate]. Qed.


Lemma lstrip_starts_nonblank s : starts_nonblank (lstrip s).
Proof.
  induction s as [|c s IH]; cbn [lstrip]; [exact I|].
  destruct (isspace c) eqn:E; [exact IH|exact E].
Qed.

Lemma lstrip_fixed s : starts_nonblank s -> lstrip s = s.
Proof. destruct s as [|c s]; cbn [lstrip starts_nonblank]; [easy|]. now intros ->. Qed.

Lemma rstrip_cons_nonblank c s :
  isspace c = false -> rstrip (String c s) = String c (rstrip s).
Proof. intros E. cbn [rstrip]. destruct (rstrip s); [now rewrite E|easy]. Qed.

Lemma rstrip_idem s : rstrip (rstrip s) = rstrip s.
Proof.
  induction s as [|c s IH]; [easy|].
  cbn [rstrip]. destruct (rstrip s) as [|a t] eqn:E.
  - destruct (isspace c) eqn:Ec; [easy|]. cbn [rstrip]. now rewrite Ec.
  - change (rstrip (String c (String a t))) with
      (match rstrip (String a t) with
       | EmptyString => if isspace c then EmptyString else String c EmptyString
       | u => String c u end).
    now rewrite IH.
Qed.

Lemma rstrip_starts_nonblank s : starts_nonblank s -> starts_nonblank (rstrip s).
Proof.
  destruct s as [|c s]; [easy|]. cbn [starts_nonblank]. intros E.
  now rewrite rstrip_cons_nonblank.
Qed.

Lemma strip_idem s : strip (strip s) = strip s.
Proof.
  unfold strip.
  rewrite (lstrip_fixed (rstrip (lstrip s))).
  - apply rstrip_idem.
  - apply rstrip_starts_nonblank, lstrip_starts_nonblank.
Qed.

Lemma str_take_length n s : (String.length (str_take n s) <= n)%nat.
Proof.
  revert s; induction n as [|n IH]; intros [|c s]; cbn; try lia.
  specialize (IH s). lia.
Qed.

Lemma str_take_all n s : (String.length s <= n)%nat -> str_take n s = s.
Proof.
  revert s; induction n as [|n IH]; intros [|c s]; cbn; try easy; try lia.
  intros Hl. f_equal. apply IH. lia.
Qed.

Lemma str_take_idem n s : str_take n (str_take n s) = str_take n s.
Proof. apply str_take_all, str_take_length. Qed.

Lemma str_take_full n s :
  (String.length s <= String.length (str_take n s))%nat -> str_take n s = s.
Proof.
  revert s; induction n as [|n IH]; intros [|c s]; cbn; try easy; try lia.
  intros Hl. f_equal. apply IH. lia.
Qed.

Lemma lstrip_length s : (String.length (lstrip s) <= String.length s)%nat.
Proof.
  induction s as [|c s IH]; cbn [lstrip]; [easy|].
  destruct (isspace c); cbn [String.length]; lia.
Qed.

Lemma rstrip_length s : (String.length (rstrip s) <= String.length s)%nat.
Proof.
  induction s as [|c s IH]; cbn [rstrip]; [easy|].
  destruct (rstrip s); [destruct (isspace c)|]; cbn [String.length] in *; lia.
Qed.

Lemma strip_length s : (String.length (strip s) <= String.length s)%nat.
Proof.
  unfold strip. pose proof (rstrip_length (lstrip s)). pose proof (lstrip_length s). lia.
Qed.

(** Cutting a trimmed text changes nothing on a second pass exactly
    when the cut left no white space at its end. *)
Lemma take_strip_fixed n t :
  (String.length t <= n)%nat -> (str_take n (strip t) = t <-> strip t = t).
Proof.
  intros Hn. split.
  - intros E. rewrite <- E at 2. symmetry. apply str_take_full.
    rewrite E. apply strip_length.
  - intros E. rewrite E. now apply str_take_all.
Qed.

Lemma num_leb_float (a b : float) : num_leb (NFloat a) (NFloat b) = fleb a b.
Proof. reflexivity. Qed.

(** A float that is at least 1.0 is not zero. *)
Lemma ge_one_nonzero (f : float) : fleb f1 f = true -> feqb f f0 = false.
Proof. destruct f as [s|s| |s m e]; try destruct s; now vm_compute. Qed.

End PyFacts.

(** ** Properties of [DataCleaner] *)

Module CleanerFacts.
Import Cleaner PyFacts.


Ltac lookup_field :=
  unfold assemble;
  repeat (rewrite lookup_insert_ne by discriminate);
  first [apply lookup_insert_eq | apply lookup_empty].

Section Fields.
Variables rid asin name helpful text overall summary ut rt : pyval.
Let d := assemble rid asin name helpful text overall summary ut rt.

Lemma assemble_reviewerID : d !! "reviewerID" = Some rid.
Proof. subst d; lookup_field. Qed.
Lemma assemble_asin : d !! "asin" = Some asin.
Proof. subst d; lookup_field. Qed.
Lemma assemble_reviewerName : d !! "reviewerName" = Some name.
Proof. subst d; lookup_field. Qed.
Lemma assemble_helpful : d !! "helpful" = Some helpful.
Proof. subst d; lookup_field. Qed.
Lemma assemble_reviewText : d !! "reviewText" = Some text.
Proof. subst d; lookup_field. Qed.
Lemma assemble_overall : d !! "overall" = Some overall.
Proof. subst d; lookup_field. Qed.
Lemma assemble_summary : d !! "summary" = Some summary.
Proof. subst d; lookup_field. Qed.
Lemma assemble_unixReviewTime : d !! "unixReviewTime" = Some ut.
Proof. subst d; lookup_field. Qed.
Lemma assemble_reviewTime : d !! "reviewTime" = Some rt.
Proof. subst d; lookup_field. Qed.
End Fields.

Section WithBuiltins.
Context `{Builtins}.

Lemma clean_review_data_inv (r d : gmap string pyval) :
  clean_review_data r = Ok d ->
  exists rid name ov ut,
    keep_if_nonblank (dict_get r "reviewerID" (VStr "UNKNOWN")) (VStr "UNKNOWN") = Ok rid /\
    keep_if_nonblank (dict_get r "reviewerName" (VStr "Anonymous")) (VStr "Anonymous") = Ok name /\
    clean_overall (dict_get r "overall" (VFloat f3)) = Ok ov /\
    clean_unix_time (dict_get r "unixReviewTime" (VInt 0)) = Ok ut /\
    d = assemble rid
          (if truthy (dict_get r "asin" (VStr "UNKNOWN"))
           then dict_get r "asin" (VStr "UNKNOWN") else VStr "UNKNOWN")
          name
          (clean_helpful (dict_get r "helpful" (VList [VInt 0; VInt 0])))
          (clean_text (Some 1000%nat) (dict_get r "reviewText" (VStr "")))
          ov
          (clean_text (Some 200%nat) (dict_get r "summary" (VStr "")))
          ut
          (clean_text None (dict_get r "reviewTime" (VStr ""))).
Proof.
  unfold clean_review_data. intros E.
  apply bind_Ok in E as (rid & Hrid & E).
  apply bind_Ok in E as (name & Hname & E).
  apply bind_Ok in E as (ov & Hov & E).
  apply bind_Ok in E as (ut & Hut & E).
  injection E as <-.
  exists rid, name, ov, ut. repeat split; assumption.
Qed.

Lemma clean_review_data_assemble (r : gmap string pyval) rid name ov ut :
  keep_if_nonblank (dict_get r "reviewerID" (VStr "UNKNOWN")) (VStr "UNKNOWN") = Ok rid ->
  keep_if_nonblank (dict_get r "reviewerName" (VStr "Anonymous")) (VStr "Anonymous") = Ok name ->
  clean_overall (dict_get r "overall" (VFloat f3)) = Ok ov ->
  clean_unix_time (dict_get r "unixReviewTime" (VInt 0)) = Ok ut ->
  clean_review_data r =
    Ok (assemble rid
          (if truthy (dict_get r "asin" (VStr "UNKNOWN"))
           then dict_get r "asin" (VStr "UNKNOWN") else VStr "UNKNOWN")
          name
          (clean_helpful (dict_get r "helpful" (VList [VInt 0; VInt 0])))
          (clean_text (Some 1000%nat) (dict_get r "reviewText" (VStr "")))
          ov
          (clean_text (Some 200%nat) (dict_get r "summary" (VStr "")))
          ut
          (clean_text None (dict_get r "reviewTime" (VStr "")))).
Proof.
  intros Hrid Hname Hov Hut. unfold clean_review_data.
  rewrite Hrid; cbn [bind]. rewrite Hname; cbn [bind].
  rewrite Hov; cbn [bind]. rewrite Hut; cbn [bind]. reflexivity.
Qed.

(** The rating written by [clean_overall] is a float between 1.0 and 5.0. *)
Lemma clean_overall_range (v w : pyval) :
  clean_overall v = Ok w ->
  exists f, w = VFloat f /\ fleb f1 f = true /\ fleb f f5 = true.
Proof.
  unfold clean_overall, try_except, bind.
  destruct (py_float v) as [f|e].
  - destruct (fleb f1 f && fleb f f5) eqn:E; intros [= <-].
    + apply andb_prop in E as [? ?]. eauto.
    + exists f3. now vm_compute.
  - destruct (value_or_type_error e); [|discriminate].
    intros [= <-]. exists f3. now vm_compute.
Qed.

Lemma clean_overall_default (v w : pyval) (e : exn) :
  clean_overall v = Ok w -> py_float v = Raise e -> w = VFloat f3.
Proof.
  unfold clean_overall, try_except, bind. intros E Hp. rewrite Hp in E.
  destruct (value_or_type_error e); [now injection E|discriminate].
Qed.

Lemma clean_overall_outside (v : pyval) (f : float) :
  py_float v = Ok f -> fleb f1 f && fleb f f5 = false ->
  clean_overall v = Ok (VFloat f3).
Proof. unfold clean_overall, try_except, bind. now intros -> ->. Qed.

End WithBuiltins.
End CleanerFacts.


(** ** Cleaning a cleaned record, and when cleaning succeeds *)

Module SecondPass.
Import Cleaner PyFacts CleanerFacts.


Section WithBuiltins.
Context `{Builtins}.

Lemma clean_batch_inv (rs ds : list (gmap string pyval)) :
  clean_batch rs = Ok ds ->
  forall d, d ∈ ds ->
  exists r, r ∈ rs /\ clean_review_data r = Ok d /\ validate_review_quality d = Ok true.
Proof.
  revert ds; induction rs as [|r rs IH]; intros ds E d Hd.
  - injection E as <-. inversion Hd.
  - cbn [clean_batch] in E.
    apply bind_Ok in E as (c & Hc & E).
    apply bind_Ok in E as (ok & Hok & E).
    apply bind_Ok in E as (cs & Hcs & E).
    injection E as <-.
    assert (Hrest : d ∈ cs -> exists r0, r0 ∈ r :: rs /\ clean_review_data r0 = Ok d /\
                                 validate_review_quality d = Ok true).
    { intros Hin. destruct (IH cs Hcs d Hin) as (r0 & ? & ? & ?).
      exists r0. split; [now right|easy]. }
    destruct ok; [|now apply Hrest].
    apply elem_of_cons in Hd as [->|Hd]; [|now apply Hrest].
    exists r. split; [left|easy].
Qed.

Lemma keep_if_nonblank_again (v def w : pyval) :
  keep_if_nonblank def def = Ok def ->
  keep_if_nonblank v def = Ok w -> keep_if_nonblank w def = Ok w.
Proof.
  intros Hdef. unfold keep_if_nonblank at 1.
  destruct (truthy v) eqn:Tv.
  - destruct v; cbn [call_strip bind]; try discriminate.
    destruct (truthy (VStr (strip s))) eqn:Ts; intros [= <-]; [|exact Hdef].
    unfold keep_if_nonblank. rewrite Tv. cbn [call_strip bind]. now rewrite Ts.
  - intros [= <-]. exact Hdef.
Qed.

Lemma clean_helpful_idem v : clean_helpful (clean_helpful v) = clean_helpful v.
Proof.
  destruct v as [| | | | |l|]; try reflexivity.
  cbn [clean_helpful]. destruct (2 <=? length l)%nat eqn:E; [|reflexivity].
  apply Nat.leb_le in E. cbn [clean_helpful].
  destruct l as [|a [|b l]]; cbn in E; try lia. reflexivity.
Qed.

Lemma clean_overall_again (v w : pyval) :
  clean_overall v = Ok w -> clean_overall w = Ok w.
Proof.
  intros E. apply clean_overall_range in E as (f & -> & Hlo & Hhi).
  unfold clean_overall, try_except, bind. cbn [py_float]. now rewrite Hlo, Hhi.
Qed.

Lemma clean_unix_time_again (v w : pyval) :
  clean_unix_time v = Ok w -> clean_unix_time w = Ok w.
Proof.
  unfold clean_unix_time, try_except, bind.
  destruct (py_int v) as [z|e].
  - now intros [= <-].
  - destruct (value_or_type_error e); [|discriminate]. now intros [= <-].
Qed.

Lemma clean_text_none_idem v : clean_text None (clean_text None v) = clean_text None v.
Proof. destruct v; try reflexivity. cbn [clean_text]. now rewrite strip_idem. Qed.

Lemma clean_text_is_str limit v : exists t, clean_text limit v = VStr t.
Proof. destruct v, limit; cbn [clean_text]; eauto. Qed.

Lemma clean_text_length n v t :
  clean_text (Some n) v = VStr t -> (String.length t <= n)%nat.
Proof.
  destruct v; cbn [clean_text]; intros [= <-]; try (cbn; lia).
  apply str_take_length.
Qed.

Lemma py_float_raises v e :
  py_float v = Raise e -> e = OverflowError \/ value_or_type_error e = true.
Proof.
  destruct v; cbn [py_float]; try (intros [= <-]; now right); try discriminate.
  - destruct (float_of_Z z); try discriminate. intros [= <-]. now left.
  - destruct (float_of_str s); [discriminate|]. intros [= <-]. now right.
Qed.

Lemma py_int_raises v e :
  py_int v = Raise e -> e = OverflowError \/ value_or_type_error e = true.
Proof.
  destruct v; cbn [py_int]; try (intros [= <-]; now right); try discriminate.
  - destruct f; try discriminate; intros [= <-]; [now left|now right].
  - destruct (int_of_str s); [discriminate|]. intros [= <-]. now right.
Qed.

Lemma keep_if_nonblank_str (r : gmap string pyval) k def :
  str_or_absent r k ->
  exists w, keep_if_nonblank (dict_get r k (VStr def)) (VStr def) = Ok w.
Proof.
  unfold str_or_absent, dict_get. intros Hk.
  assert (G : forall s, exists w, keep_if_nonblank (VStr s) (VStr def) = Ok w).
  { intros s. unfold keep_if_nonblank. destruct (truthy (VStr s)); cbn [call_strip bind]; eauto. }
  destruct (r !! k) as [[]|]; try contradiction; apply G.
Qed.

(** [clean_review_data] returns a document unless a name field holds a
    non-empty value that is not a string, or a number is too large. *)
Lemma clean_review_data_total (r : gmap string pyval) :
  str_or_absent r "reviewerID" -> str_or_absent r "reviewerName" ->
  py_float (dict_get r "overall" (VFloat f3)) <> Raise OverflowError ->
  py_int (dict_get r "unixReviewTime" (VInt 0)) <> Raise OverflowError ->
  exists d, clean_review_data r = Ok d.
Proof.
  intros Hid Hname Hf Hi.
  destruct (keep_if_nonblank_str r "reviewerID" "UNKNOWN" Hid) as (rid & Hrid).
  destruct (keep_if_nonblank_str r "reviewerName" "Anonymous" Hname) as (name & Hn).
  assert (exists ov, clean_overall (dict_get r "overall" (VFloat f3)) = Ok ov) as (ov & Hov).
  { unfold clean_overall, try_except, bind.
    destruct (py_float _) as [f|e] eqn:E; [eauto|].
    destruct (py_float_raises _ _ E) as [-> | Hc]; [contradiction|rewrite Hc; eauto]. }
  assert (exists ut, clean_unix_time (dict_get r "unixReviewTime" (VInt 0)) = Ok ut)
    as (ut & Hut).
  { unfold clean_unix_time, try_except, bind.
    destruct (py_int _) as [z|e] eqn:E; [eauto|].
    destruct (py_int_raises _ _ E) as [-> | Hc]; [contradiction|rewrite Hc; eauto]. }
  eexists. exact (clean_review_data_assemble r rid name ov ut Hrid Hn Hov Hut).
Qed.

Lemma text_of_dict_get (r : gmap string pyval) k :
  text_of r k = match dict_get r k (VStr "") with VStr s => s | _ => "" end.
Proof. unfold text_of, dict_get. now destruct (r !! k) as [[]|]. Qed.

Lemma clean_text_settled n v t :
  clean_text (Some n) v = VStr t ->
  (String.length (strip (match v with VStr s => s | _ => "" end)) <= n)%nat ->
  strip t = t.
Proof.
  destruct v; cbn [clean_text]; intros [= <-] L; try reflexivity.
  rewrite str_take_all by assumption. apply strip_idem.
Qed.

End WithBuiltins.
End SecondPass.


(** ** The claims about [DataCleaner] *)

Module CleanerSpec.
Import Cleaner PyFacts CleanerFacts SecondPass Samples.

(** C1. Every document that [clean_review_data] produces carries a
    float rating between 1.0 and 5.0; a rating that [float] rejects
    (not a number, or a string that does not parse) becomes 3.0; a
    rating whose float value lies outside [1.0, 5.0] becomes 3.0; and
    so every document of a cleaned batch has its rating in the domain.
    A document is produced for every record whose name fields are
    strings (or absent) and whose numbers fit a float. *)
Theorem clean_review_data_rating_domain `{Builtins} :
  (forall r,
     str_or_absent r "reviewerID" -> str_or_absent r "reviewerName" ->
     py_float (dict_get r "overall" (VFloat f3)) <> Raise OverflowError ->
     py_int (dict_get r "unixReviewTime" (VInt 0)) <> Raise OverflowError ->
     exists d, clean_review_data r = Ok d /\ rating_in_domain d) /\
  (forall r d, clean_review_data r = Ok d -> rating_in_domain d) /\
  (forall r d e, clean_review_data r = Ok d ->
     py_float (dict_get r "overall" (VFloat f3)) = Raise e ->
     d !! "overall" = Some (VFloat f3)) /\
  (forall r d f, clean_review_data r = Ok d ->
     py_float (dict_get r "overall" (VFloat f3)) = Ok f ->
     fleb f1 f && fleb f f5 = false ->
     d !! "overall" = Some (VFloat f3)) /\
  (forall rs ds d, clean_batch rs = Ok ds -> d ∈ ds -> rating_in_domain d).
Proof.
  assert (Hdom : forall r d, clean_review_data r = Ok d -> rating_in_domain d).
  { intros r d E.
    apply clean_review_data_inv in E as (rid & name & ov & ut & _ & _ & Hov & _ & ->).
    apply clean_overall_range in Hov as (f & -> & Hlo & Hhi).
    exists f. split; [apply assemble_overall|easy]. }
  split.
  { intros r Hid Hname Hf Hi.
    destruct (clean_review_data_total r Hid Hname Hf Hi) as (d & Hd).
    exists d. split; [exact Hd|exact (Hdom r d Hd)]. }
  split; [exact Hdom|]. split; [|split].
  - intros r d e E Hf.
    apply clean_review_data_inv in E as (rid & name & ov & ut & _ & _ & Hov & _ & ->).
    rewrite assemble_overall. f_equal. exact (clean_overall_default _ _ _ Hov Hf).
  - intros r d f E Hf Hout.
    apply clean_review_data_inv in E as (rid & name & ov & ut & _ & _ & Hov & _ & ->).
    rewrite assemble_overall. f_equal.
    rewrite (clean_overall_outside _ _ Hf Hout) in Hov. now injection Hov.
  - intros rs ds d E Hd.
    destruct (clean_batch_inv rs ds E d Hd) as (r & _ & Hr & _).
    exact (Hdom r d Hr).
Qed.

Lemma clean_review_data_rating_domain_witness :
  (exists d, clean_review_data (H := Reference.builtins) (raw (VStr "abc")) = Ok d /\
             rating_in_domain d) /\
  rating_in_domain (cleaned (VFloat f3)) /\
  cleaned (VFloat f3) !! "overall" = Some (VFloat f3) /\
  cleaned (VFloat f3) !! "overall" = Some (VFloat f3) /\
  rating_in_domain (cleaned (VFloat f4)).
Proof.
  destruct (@clean_review_data_rating_domain Reference.builtins)
    as (H0 & H1 & H2 & H3 & H4).
  split; [|split; [|split; [|split]]].
  - apply (H0 (raw (VStr "abc"))); vm_compute; first [exact I | discriminate].
  - apply (H1 (raw (VStr "abc"))). vm_refl.
  - apply (H2 (raw (VStr "abc")) _ ValueError); vm_refl.
  - apply (H3 (raw (VFloat f7)) _ f7); vm_refl.
  - apply (H4 [raw (VStr "abc"); raw (VInt 4)] [cleaned (VFloat f3); cleaned (VFloat f4)]).
    + vm_refl.
    + right. left.
Defined.




(** C8 as the code has it: for a document [d] that [clean_review_data]
    produced, cleaning [d] again gives [d] back exactly when cutting
    the review text at 1000 and the summary at 200 characters left no
    white space at their ends; this is the case whenever the trimmed
    texts of the raw record fit within the limits. *)
Theorem clean_review_data_idempotent_iff_settled `{Builtins} (r d : gmap string pyval) :
  clean_review_data r = Ok d ->
  (clean_review_data d = Ok d <-> settled d) /\
  ((String.length (strip (text_of r "reviewText")) <= 1000)%nat ->
   (String.length (strip (text_of r "summary")) <= 200)%nat ->
   settled d).
Proof.
  intros E.
  apply clean_review_data_inv in E as (rid & name & ov & ut & Hrid & Hname & Hov & Hut & Hd).
  destruct (clean_text_is_str (Some 1000%nat) (dict_get r "reviewText" (VStr ""))) as (t & Ht).
  destruct (clean_text_is_str (Some 200%nat) (dict_get r "summary" (VStr ""))) as (u & Hu).
  rewrite Ht, Hu in Hd.
  pose proof (clean_text_length _ _ _ Ht) as Lt.
  pose proof (clean_text_length _ _ _ Hu) as Lu.
  set (a := if truthy (dict_get r "asin" (VStr "UNKNOWN"))
            then dict_get r "asin" (VStr "UNKNOWN") else VStr "UNKNOWN") in Hd.
  assert (Ha : (if truthy a then a else VStr "UNKNOWN") = a).
  { subst a. destruct (truthy (dict_get r "asin" (VStr "UNKNOWN"))) eqn:Ta;
      [now rewrite Ta|reflexivity]. }
  set (h := clean_helpful (dict_get r "helpful" (VList [VInt 0; VInt 0]))) in Hd.
  assert (Hh : clean_helpful h = h) by apply clean_helpful_idem.
  set (rt := clean_text None (dict_get r "reviewTime" (VStr ""))) in Hd.
  assert (Hrt : clean_text None rt = rt) by apply clean_text_none_idem.
  clearbody a h rt.
  assert (Tt : text_of d "reviewText" = t).
  { unfold text_of. subst d. now rewrite assemble_reviewText. }
  assert (Tu : text_of d "summary" = u).
  { unfold text_of. subst d. now rewrite assemble_summary. }
  assert (Hagain : clean_review_data d =
    Ok (assemble rid a name h (VStr (str_take 1000 (strip t))) ov
          (VStr (str_take 200 (strip u))) ut rt)).
  { assert (G : forall k v def, d !! k = Some v -> dict_get d k def = v).
    { intros k v def Hk. unfold dict_get. now rewrite Hk. }
    rewrite (clean_review_data_assemble d rid name ov ut).
    - rewrite (G "asin" a), (G "helpful" h), (G "reviewText" (VStr t)),
        (G "summary" (VStr u)), (G "reviewTime" rt)
        by (subst d; lookup_field).
      rewrite Ha, Hh, Hrt. reflexivity.
    - rewrite (G "reviewerID" rid) by (subst d; lookup_field).
      now apply (keep_if_nonblank_again _ (VStr "UNKNOWN") _ eq_refl Hrid).
    - rewrite (G "reviewerName" name) by (subst d; lookup_field).
      now apply (keep_if_nonblank_again _ (VStr "Anonymous") _ eq_refl Hname).
    - rewrite (G "overall" ov) by (subst d; lookup_field).
      now apply (clean_overall_again _ _ Hov).
    - rewrite (G "unixReviewTime" ut) by (subst d; lookup_field).
      now apply (clean_unix_time_again _ _ Hut). }
  split.
  - unfold settled. rewrite Tt, Tu, Hagain. split.
    + intros [= Eq]. rewrite Hd in Eq.
      pose proof (f_equal (fun m : gmap string pyval => m !! "reviewText") Eq) as E1.
      pose proof (f_equal (fun m : gmap string pyval => m !! "summary") Eq) as E2.
      cbv beta in E1, E2.
      rewrite !assemble_reviewText in E1. rewrite !assemble_summary in E2.
      injection E1 as E1. injection E2 as E2.
      split; [now apply (take_strip_fixed 1000)|now apply (take_strip_fixed 200)].
    + intros [E1 E2]. rewrite Hd.
      apply (take_strip_fixed 1000 t Lt) in E1. apply (take_strip_fixed 200 u Lu) in E2.
      now rewrite E1, E2.
  - intros L1 L2. unfold settled. rewrite Tt, Tu.
    rewrite text_of_dict_get in L1, L2.
    split; [exact (clean_text_settled _ _ _ Ht L1)|exact (clean_text_settled _ _ _ Hu L2)].
Qed.

Lemma clean_review_data_idempotent_iff_settled_witness :
  (clean_review_data (H := Reference.builtins) (cleaned (VFloat f3)) = Ok (cleaned (VFloat f3))
   <-> settled (cleaned (VFloat f3))) /\
  ((String.length (strip (text_of (raw (VStr "abc")) "reviewText")) <= 1000)%nat ->
   (String.length (strip (text_of (raw (VStr "abc")) "summary")) <= 200)%nat ->
   settled (cleaned (VFloat f3))).
Proof.
  apply (@clean_review_data_idempotent_iff_settled Reference.builtins (raw (VStr "abc"))).
  vm_refl.
Defined.

(** C8 as stated fails: the summary "a...a b" (199 letters, a space,
    a letter) is cut after the space by the first pass and loses the
    space in the second. *)
Lemma clean_review_data_not_idempotent :
  cleaned_long_summary (a199 ++ " ") <> cleaned_long_summary a199 /\
  forall B : Builtins,
    clean_review_data (H := B) raw_long_summary = Ok (cleaned_long_summary (a199 ++ " ")) /\
    clean_review_data (H := B) (cleaned_long_summary (a199 ++ " "))
    = Ok (cleaned_long_summary a199).
Proof.
  split.
  - intros Eq.
    pose proof (f_equal (fun m : gmap string pyval => m !! "summary") Eq) as E1.
    cbv beta in E1. unfold cleaned_long_summary in E1.
    rewrite !assemble_summary in E1. injection E1 as E1.
    apply (f_equal String.length) in E1. vm_compute in E1. discriminate E1.
  - intros B. split; vm_refl.
Qed.

End CleanerSpec.

(** ** The reference pandas meets the contract of [sort_values] *)

Module ReferenceFacts.
Import NoSQL Reference.

Lemma SFcompare_antisym (a b : float) :
  SFcompare b a = CompOpp <$> SFcompare a b.
Proof.
  destruct a as [s|s| |s m e], b as [s'|s'| |s' m' e']; try destruct s; try destruct s';
    try reflexivity; cbn [SFcompare fmap option_fmap option_map CompOpp].
  - rewrite (Z.compare_antisym e' e). change (Pos.compare_cont Eq m' m) with (m' ?= m)%positive.
    change (Pos.compare_cont Eq m m') with (m ?= m')%positive.
    rewrite (Pos.compare_antisym m' m).
    destruct (e' ?= e); destruct (m' ?= m)%positive; reflexivity.
  - rewrite (Z.compare_antisym e' e). change (Pos.compare_cont Eq m' m) with (m' ?= m)%positive.
    change (Pos.compare_cont Eq m m') with (m ?= m')%positive.
    rewrite (Pos.compare_antisym m' m).
    destruct (e' ?= e); destruct (m' ?= m)%positive; reflexivity.
Qed.

Lemma fleb_total (a b : float) :
  is_nan a = false -> is_nan b = false -> fleb a b = false -> fleb b a = true.
Proof.
  unfold fleb, SFleb. rewrite (SFcompare_antisym a b).
  destruct a, b; try discriminate; intros _ _;
    destruct (SFcompare _ _) as [[]|] eqn:E; try discriminate; try reflexivity;
    cbn in E; repeat match type of E with context [if ?x then _ else _] => destruct x end;
    discriminate.
Qed.

Lemma may_follow_total (a b : float) : may_follow a b = false -> may_follow b a = true.
Proof.
  unfold may_follow. intros E.
  apply orb_false_iff in E as [Nb E].
  destruct (is_nan a) eqn:Na; [reflexivity|].
  cbn [negb andb orb] in *. rewrite Nb. cbn [negb andb].
  now apply fleb_total.
Qed.

Lemma insert_desc_perm p rows : Permutation (p :: rows) (insert_desc p rows).
Proof.
  induction rows as [|q rest IH]; cbn [insert_desc]; [reflexivity|].
  destruct (may_follow (avg_rating p) (avg_rating q)); [reflexivity|].
  rewrite perm_swap. now constructor.
Qed.

Lemma sort_desc_perm rows : Permutation rows (sort_desc rows).
Proof.
  induction rows as [|p rest IH]; cbn [sort_desc foldr]; [constructor|].
  rewrite <- insert_desc_perm. now constructor.
Qed.

Lemma insert_desc_sorted p rows : descending rows -> descending (insert_desc p rows).
Proof.
  induction rows as [|q rest IH]; cbn [insert_desc]; intros Hs.
  - repeat constructor.
  - destruct (may_follow (avg_rating p) (avg_rating q)) eqn:E.
    + constructor; [exact Hs|]. now constructor.
    + apply Sorted_inv in Hs as [Hs Hd]. constructor; [now apply IH|].
      destruct rest as [|r rest]; cbn [insert_desc].
      * constructor. now apply may_follow_total.
      * destruct (may_follow (avg_rating p) (avg_rating r)).
        -- constructor. now apply may_follow_total.
        -- constructor. now apply HdRel_inv in Hd.
Qed.

Lemma sort_desc_sorted rows : descending (sort_desc rows).
Proof.
  induction rows as [|p rest IH]; cbn [sort_desc foldr]; [constructor|].
  now apply insert_desc_sorted.
Qed.

#[export] Instance pandas : Pandas := {|
  series_mean := Reference.mean;
  group_mean := Reference.mean;
  NoSQL.round2 := Reference.round2;
  NoSQL.object_figures := Reference.object_figures;
  NoSQL.object_group_mean := Reference.object_group_mean;
  NoSQL.first_other := Reference.first_other;
  sort_values := sort_desc;
  sort_values_perm := sort_desc_perm;
  sort_values_sorted := sort_desc_sorted;
|}.

End ReferenceFacts.

(** ** Properties of [NoSQLManager]: inserting *)

Module InsertFacts.
Import NoSQL.


Lemma category_partition_cases name :
  category_partition name ->
  name ∈ ["books"; "video_games"; "movies_tv"; "home_kitchen"; "tools"; "patio_garden"].
Proof.
  intros (c & Hc). apply elem_of_list_to_map_2 in Hc.
  repeat (apply elem_of_cons in Hc as [[= _ <-]|Hc]; [set_solver|]).
  inversion Hc.
Qed.

Lemma category_partition_not_reviews name : category_partition name -> name <> "reviews".
Proof.
  intros Hc%category_partition_cases ->.
  repeat (apply elem_of_cons in Hc as [Hc|Hc]; [discriminate Hc|]). inversion Hc.
Qed.

Lemma get_table_name_cases c :
  (mapping !! c = None /\ _get_table_name c = "reviews") \/
  category_partition (_get_table_name c).
Proof.
  unfold _get_table_name, category_partition.
  destruct (mapping !! c) as [name|] eqn:E; [right|left]; cbn [default]; eauto.
Qed.

Lemma duplicated_reviews_grow (t : tables) old extra :
  duplicated t -> t !! "reviews" = Some old ->
  duplicated (<["reviews" := (old ++ extra)%list]> t).
Proof.
  intros Ht Hold name docs d Hname Hdocs Hd.
  rewrite lookup_insert_ne in Hdocs by (symmetry; now apply category_partition_not_reviews).
  destruct (Ht name docs d Hname Hdocs Hd) as (rv & Hrv & Hin).
  rewrite Hold in Hrv. injection Hrv as <-.
  exists (old ++ extra)%list. rewrite lookup_insert_eq. split; [reflexivity|].
  apply elem_of_app. now left.
Qed.

Lemma duplicated_partition_grow (t : tables) name old reviews extra :
  duplicated t -> name <> "reviews" ->
  t !! "reviews" = Some reviews -> t !! name = Some old ->
  (forall d, d ∈ extra -> d ∈ reviews) ->
  duplicated (<[name := (old ++ extra)%list]> t).
Proof.
  intros Ht Hne Hrv Hold Hextra name' docs d Hname' Hdocs Hd.
  exists reviews. rewrite lookup_insert_ne by exact Hne. split; [exact Hrv|].
  destruct (decide (name = name')) as [<-|Hn].
  - rewrite lookup_insert_eq in Hdocs. injection Hdocs as <-.
    apply elem_of_app in Hd as [Hd|Hd]; [|now apply Hextra].
    destruct (Ht name old d Hname' Hold Hd) as (rv & Hrv' & Hin). congruence.
  - rewrite lookup_insert_ne in Hdocs by exact Hn.
    destruct (Ht name' docs d Hname' Hdocs Hd) as (rv & Hrv' & Hin). congruence.
Qed.

Lemma duplicated_init : duplicated init_tables.
Proof.
  intros name docs d Hname%category_partition_cases Hdocs Hd.
  repeat (apply elem_of_cons in Hname as [->|Hname];
          [match type of Hdocs with
           | ?l = _ => assert (E : l = Some []) by vm_refl; rewrite E in Hdocs
           end;
           injection Hdocs as <-; inversion Hd|]).
  inversion Hname.
Qed.

Section WithBuiltins.
Context `{Builtins}.


Lemma insert_reviews_case e data category t :
  insert_case e data category t (insert_reviews e data category t).
Proof.
  unfold insert_reviews.
  destruct data as [|record data]; [now constructor|].
  set (pd := imap (process e) (record :: data)). unfold insert_multiple at 1.
  destruct (t !! "reviews") as [reviews|] eqn:Hrv; [|now constructor].
  destruct (write e 0) eqn:W0.
  - destruct (given category) as [c|] eqn:G.
    + case_bool_decide as Hin.
      * destruct Hin as (old & Hold). unfold insert_multiple. rewrite Hold.
        pose proof (second_write e (record :: data) category t reviews c old) as Hc.
        fold pd in Hc. fold pd in Hold.
        specialize (Hc ltac:(discriminate) Hrv W0 G Hold).
        destruct (write e 1); exact Hc.
      * apply (general_only e (record :: data) category t reviews); try easy.
        right. exists c. split; [exact G|]. fold pd.
        now apply eq_None_not_Some.
    + apply (general_only e (record :: data) category t reviews); try easy. now left.
  - now apply (first_read_failed e (record :: data) category t reviews).
  - now apply (first_flush_failed e (record :: data) category t reviews).
Qed.

End WithBuiltins.
End InsertFacts.


(** ** The claims about [insert_reviews] *)

Module InsertSpec.
Import NoSQL InsertFacts StoreSamples.


Section WithBuiltins.
Context `{Builtins}.

Lemma insert_reviews_duplicated e data category t :
  duplicated t -> duplicated (fst (insert_reviews e data category t)).
Proof.
  intros Ht. destruct (insert_reviews_case e data category t)
    as [| | | reviews ? Hrv | reviews ? Hrv | reviews c old ? Hrv W0 G Hold]; cbn [fst];
    try assumption; try now apply duplicated_reviews_grow.
  set (pd := imap (process e) data) in *.
  assert (Ht1 : duplicated (<["reviews" := (reviews ++ pd)%list]> t))
    by now apply duplicated_reviews_grow.
  assert (Hgrow : duplicated (<[_get_table_name c := (old ++ pd)%list]>
                                (<["reviews" := (reviews ++ pd)%list]> t))).
  { destruct (decide (_get_table_name c = "reviews")) as [E|E].
    - rewrite E in *. now apply duplicated_reviews_grow.
    - apply (duplicated_partition_grow _ _ _ (reviews ++ pd)%list); try assumption.
      + apply lookup_insert_eq.
      + intros d Hd. apply elem_of_app. now right. }
  now destruct (write e 1).
Qed.

Lemma run_duplicated calls t : duplicated t -> duplicated (run calls t).
Proof.
  revert t; induction calls as [|c calls IH]; intros t Ht; [exact Ht|].
  cbn [run foldl]. apply IH. now apply insert_reviews_duplicated.
Qed.

End WithBuiltins.

(** C2. In one call of [insert_reviews], whatever is appended to a
    category partition is among what the same call appends to
    'reviews'; the call keeps the property that every document of a
    category partition is in 'reviews'; and the property holds after
    any sequence of calls on a new store. *)
Theorem partition_duplication `{Builtins} :
  (forall e data category t name old new,
     category_partition name -> t !! name = Some old ->
     fst (insert_reviews e data category t) !! name = Some new ->
     exists added, new = (old ++ added)%list /\
       forall d, d ∈ added ->
         exists reviews written,
           t !! "reviews" = Some reviews /\
           fst (insert_reviews e data category t) !! "reviews"
           = Some (reviews ++ written)%list /\
           d ∈ written) /\
  (forall e data category t,
     duplicated t -> duplicated (fst (insert_reviews e data category t))) /\
  (forall calls name docs d,
     category_partition name -> run calls init_tables !! name = Some docs -> d ∈ docs ->
     exists reviews, run calls init_tables !! "reviews" = Some reviews /\ d ∈ reviews).
Proof.
  split; [|split].
  - intros e data category t name old new Hname Hold.
    pose proof (category_partition_not_reviews name Hname) as Hne.
    assert (Hsame : forall t' : tables, t' !! name = t !! name -> t' !! name = Some new ->
      exists added, new = (old ++ added)%list /\
        forall d, d ∈ added -> exists reviews written,
          t !! "reviews" = Some reviews /\ t' !! "reviews" = Some (reviews ++ written)%list /\
          d ∈ written).
    { intros t' E Hnew. rewrite E, Hold in Hnew. injection Hnew as <-.
      exists []. split; [now rewrite app_nil_r|]. intros d Hd. inversion Hd. }
    destruct (insert_reviews_case e data category t)
      as [| | | reviews ? Hrv | reviews ? Hrv | reviews c old' ? Hrv W0 G Hold']; cbn [fst];
      try (apply Hsame; try reflexivity; now rewrite lookup_insert_ne by congruence).
    set (pd := imap (process e) data) in *.
    destruct (decide (_get_table_name c = name)) as [E|E].
    + rewrite E in *. rewrite lookup_insert_ne in Hold' by congruence.
      rewrite Hold in Hold'. injection Hold' as <-.
      destruct (write e 1).
      * rewrite lookup_insert_eq. intros [= <-]. exists pd. split; [reflexivity|].
        intros d Hd. exists reviews, pd.
        rewrite lookup_insert_ne by exact Hne. now rewrite lookup_insert_eq.
      * apply Hsame. now rewrite lookup_insert_ne by congruence.
      * rewrite lookup_insert_eq. intros [= <-]. exists pd. split; [reflexivity|].
        intros d Hd. exists reviews, pd.
        rewrite lookup_insert_ne by exact Hne. now rewrite lookup_insert_eq.
    + destruct (write e 1); apply Hsame;
        repeat rewrite lookup_insert_ne by congruence; reflexivity.
  - intros e data category t. apply insert_reviews_duplicated.
  - intros calls name docs d. apply run_duplicated, duplicated_init.
Qed.

Lemma partition_duplication_witness :
  (exists added, [stored "A" "P1" (VFloat f5) "great"] = ([] ++ added)%list /\
     forall d, d ∈ added ->
       exists reviews written,
         init_tables !! "reviews" = Some reviews /\
         fst (insert_reviews (H := Reference.builtins) calm [a_p1] (Some "Books") init_tables)
           !! "reviews" = Some (reviews ++ written)%list /\
         d ∈ written) /\
  duplicated
    (fst (insert_reviews (H := Reference.builtins) calm [a_p1] (Some "Books") init_tables)) /\
  exists reviews,
    run (H := Reference.builtins)
      [{| call_env := calm; call_data := [a_p1]; call_category := Some "Books" |}]
      init_tables !! "reviews" = Some reviews /\
    stored "A" "P1" (VFloat f5) "great" ∈ reviews.
Proof.
  destruct (@partition_duplication Reference.builtins) as (H1 & H2 & H3).
  split; [|split].
  - apply (H1 calm [a_p1] (Some "Books") init_tables "books").
    + exists "Books". vm_refl.
    + vm_refl.
    + vm_refl.
  - apply H2. exact duplicated_init.
  - apply (H3 [{| call_env := calm; call_data := [a_p1]; call_category := Some "Books" |}]
              "books" [stored "A" "P1" (VFloat f5) "great"]).
    + exists "Books". vm_refl.
    + vm_refl.
    + left.
Defined.

(** C9 as the code has it: [insert_reviews] returns a truth value. An
    empty batch returns [False] and leaves the store as it was; [True]
    is returned only for a non-empty batch none of whose writes
    failed, and then the documents of the batch are in 'reviews'; and
    a non-empty batch whose writes all go through returns [True]. *)
Theorem insert_reviews_returns_success `{Builtins} e data category (t : tables) :
  (data = [] -> insert_reviews e data category t = (t, false)) /\
  (snd (insert_reviews e data category t) = true ->
     data <> [] /\ write e 0 = Written /\
     (given category = None \/ write e 1 = Written \/
      exists c, given category = Some c /\ t !! _get_table_name c = None) /\
     exists reviews more,
       t !! "reviews" = Some reviews /\
       fst (insert_reviews e data category t) !! "reviews"
       = Some (reviews ++ imap (process e) data ++ more)%list) /\
  (data <> [] -> is_Some (t !! "reviews") -> write e 0 = Written ->
     (given category = None \/ write e 1 = Written) ->
     snd (insert_reviews e data category t) = true).
Proof.
  split; [|split].
  - intros ->. reflexivity.
  - destruct (insert_reviews_case e data category t)
      as [| | | reviews ? Hrv | reviews ? Hrv W0 Hcat | reviews c old ? Hrv W0 G Hold];
      cbn [fst snd]; try discriminate.
    + intros _. repeat split; try assumption.
      * destruct Hcat as [Hcat|(c & G & Hnone)]; [now left|].
        right. right. exists c. split; [exact G|].
        destruct (decide (_get_table_name c = "reviews")) as [E|E].
        -- rewrite E, lookup_insert_eq in Hnone. discriminate.
        -- now rewrite lookup_insert_ne in Hnone by congruence.
      * exists reviews, []. split; [exact Hrv|].
        now rewrite lookup_insert_eq, app_nil_r.
    + set (pd := imap (process e) data) in *.
      destruct (write e 1) eqn:W1; try discriminate. intros _.
      repeat split; try assumption; [now (right; left)|].
      destruct (decide (_get_table_name c = "reviews")) as [E|E].
      * rewrite E in *. rewrite lookup_insert_eq in Hold. injection Hold as <-.
        exists reviews, pd. split; [exact Hrv|].
        now rewrite lookup_insert_eq, app_assoc.
      * exists reviews, []. split; [exact Hrv|].
        rewrite lookup_insert_ne by exact E.
        now rewrite lookup_insert_eq, app_nil_r.
  - intros Hdata (reviews & Hrv) W0 Hcat.
    destruct (insert_reviews_case e data category t)
      as [| | | | | reviews' c old ? Hrv' W0' G Hold]; cbn [snd]; try congruence.
    destruct Hcat as [Hcat|Hcat]; [congruence|]. now rewrite Hcat.
Qed.

Lemma insert_reviews_returns_success_witness :
  ([a_p1; b_p1] = [] ->
   insert_reviews (H := Reference.builtins) calm [a_p1; b_p1] None init_tables
   = (init_tables, false)) /\
  (snd (insert_reviews (H := Reference.builtins) calm [a_p1; b_p1] None init_tables) = true ->
     [a_p1; b_p1] <> [] /\ write calm 0 = Written /\
     (given None = None \/ write calm 1 = Written \/
      exists c, given None = Some c /\ init_tables !! _get_table_name c = None) /\
     exists reviews more,
       init_tables !! "reviews" = Some reviews /\
       fst (insert_reviews (H := Reference.builtins) calm [a_p1; b_p1] None init_tables)
         !! "reviews"
       = Some (reviews ++ imap (process (H := Reference.builtins) calm) [a_p1; b_p1] ++ more)%list) /\
  ([a_p1; b_p1] <> [] -> is_Some (init_tables !! "reviews") -> write calm 0 = Written ->
     (given None = None \/ write calm 1 = Written) ->
     snd (insert_reviews (H := Reference.builtins) calm [a_p1; b_p1] None init_tables) = true).
Proof.
  exact (@insert_reviews_returns_success Reference.builtins calm [a_p1; b_p1] None init_tables).
Defined.

(** C9 as stated fails: for a batch of two documents written without
    any error the value returned is [True], which is not 2; and the
    empty batch gets [False], the value of a failed write. *)
Lemma insert_reviews_not_a_count :
  (forall B : Builtins,
     snd (insert_reviews (H := B) calm [a_p1; b_p1] None init_tables) = true /\
     py_eqb (VBool (snd (insert_reviews (H := B) calm [a_p1; b_p1] None init_tables)))
            (VInt 2) = false) /\
  (forall B : Builtins,
     insert_reviews (H := B) calm [] None init_tables = (init_tables, false)) /\
  (forall B : Builtins,
     snd (insert_reviews (H := B) broken [a_p1] None init_tables) = false).
Proof. repeat split; vm_refl. Qed.

Lemma insert_reviews_fallback `{Builtins}
    e data (c : string) (t : tables) (reviews : list document) :
  data <> [] -> c <> "" -> mapping !! c = None ->
  t !! "reviews" = Some reviews ->
  write e 0 = Written -> write e 1 = Written ->
  insert_reviews e data (Some c) t
  = (<["reviews" := (reviews ++ imap (process e) data ++ imap (process e) data)%list]> t,
     true) /\
  forall name, name <> "reviews" ->
    fst (insert_reviews e data (Some c) t) !! name = t !! name.
Proof.
  intros Hdata Hc Hmap Hrv W0 W1.
  assert (G : given (Some c) = Some c).
  { cbn [given]. destruct (String.eqb_spec c ""); [contradiction|reflexivity]. }
  assert (N : _get_table_name c = "reviews").
  { unfold _get_table_name. now rewrite Hmap. }
  assert (E : insert_reviews e data (Some c) t
    = (<["reviews" := (reviews ++ imap (process e) data ++ imap (process e) data)%list]> t,
       true)).
  { destruct (insert_reviews_case e data (Some c) t)
      as [| | | | reviews' ? Hrv' W0' [G'|(c' & G' & Hnone)]
          | reviews' c' old ? Hrv' W0' G' Hold]; try congruence.
    - rewrite G in G'. injection G' as <-. rewrite N, lookup_insert_eq in Hnone.
      discriminate.
    - rewrite G in G'. injection G' as <-. rewrite N in *.
      rewrite lookup_insert_eq in Hold. injection Hold as <-.
      rewrite Hrv in Hrv'. injection Hrv' as <-.
      rewrite W1. now rewrite insert_insert_eq, app_assoc. }
  split; [exact E|].
  intros name Hne. rewrite E. cbn [fst]. now rewrite lookup_insert_ne by congruence.
Qed.

(** C10 as the code has it: for a non-empty batch and a non-empty
    category name outside the six of the routing table, when both
    writes go through, each document of the batch is appended to
    'reviews' twice, and no other table changes. *)
Theorem unknown_category_written_twice `{Builtins}
    e data (c : string) (t : tables) (reviews : list document) :
  data <> [] -> c <> "" -> mapping !! c = None ->
  t !! "reviews" = Some reviews ->
  write e 0 = Written -> write e 1 = Written ->
  insert_reviews e data (Some c) t
  = (<["reviews" := (reviews ++ imap (process e) data ++ imap (process e) data)%list]> t,
     true) /\
  forall name, name <> "reviews" ->
    fst (insert_reviews e data (Some c) t) !! name = t !! name.
Proof. apply insert_reviews_fallback. Qed.

Lemma unknown_category_written_twice_witness :
  insert_reviews (H := Reference.builtins) calm [a_p1] (Some "Gadgets") init_tables
  = (<["reviews" :=
        ([] ++ imap (process (H := Reference.builtins) calm) [a_p1]
            ++ imap (process (H := Reference.builtins) calm) [a_p1])%list]> init_tables,
     true) /\
  forall name, name <> "reviews" ->
    fst (insert_reviews (H := Reference.builtins) calm [a_p1] (Some "Gadgets") init_tables)
      !! name = init_tables !! name.
Proof.
  apply (@unknown_category_written_twice Reference.builtins calm [a_p1] "Gadgets"
           init_tables []);
    try discriminate; vm_refl.
Defined.

(** C10 as stated fails for the empty name: it is outside the six
    known categories, and the batch is written to 'reviews' once. It
    also fails when the flush of the first write fails: the batch is in
    'reviews' once, and the second write is not attempted. *)
Lemma empty_category_written_once :
  mapping !! "" = None /\ mapping !! "Gadgets" = None /\
  forall B : Builtins,
    insert_reviews (H := B) calm [a_p1] (Some "") init_tables
    = (<["reviews" := [stored "A" "P1" (VFloat f5) "great"]]> init_tables, true) /\
    insert_reviews (H := B) broken [a_p1] (Some "Gadgets") init_tables
    = (<["reviews" := [stored "A" "P1" (VFloat f5) "great"]]> init_tables, false).
Proof. repeat split; vm_refl. Qed.

End InsertSpec.

(** ** Properties of [NoSQLManager]: querying *)

Module QueryFacts.
Import NoSQL PyFacts ReferenceFacts.

Lemma select_table_unknown (t : tables) c :
  mapping !! c = None -> select_table t (Some c) = select_table t None.
Proof.
  intros Hm. unfold select_table. cbn [given].
  destruct (String.eqb c ""); [reflexivity|].
  unfold _get_table_name. rewrite Hm. cbn [default].
  now destruct (t !! "reviews").
Qed.

Lemma head_elem_of {A} n (l : list A) x : x ∈ head n l -> x ∈ l.
Proof. unfold head. destruct (0 <=? n); apply subseteq_take. Qed.


(** *** [map_result] *)

Lemma map_result_Forall2 {A B} (f : A -> result B) (l : list A) (bs : list B) :
  map_result f l = Ok bs -> Forall2 (fun a b => f a = Ok b) l bs.
Proof.
  revert bs; induction l as [|a l IH]; intros bs E.
  - injection E as <-. constructor.
  - cbn [map_result] in E. apply bind_Ok in E as (b & Hb & E).
    apply bind_Ok in E as (bs' & Hbs & E). injection E as <-.
    constructor; [exact Hb|now apply IH].
Qed.


Lemma map_result_raises {A B} (f : A -> result B) (l : list A) a e :
  a ∈ l -> f a = Raise e -> exists e', map_result f l = Raise e'.
Proof.
  intros Hin He. induction l as [|x l IH]; [inversion Hin|].
  cbn [map_result]. apply elem_of_cons in Hin as [<-|Hin].
  - rewrite He. cbn [bind]. eauto.
  - destruct (f x); cbn [bind]; [|eauto].
    destruct (IH Hin) as (e' & ->). cbn [bind]. eauto.
Qed.

Lemma Forall2_filter {A B} (R : A -> B -> Prop) (P : A -> Prop) (Q : B -> Prop)
    `{forall a, Decision (P a)} `{forall b, Decision (Q b)} (l : list A) (k : list B) :
  Forall2 (fun a b => R a b /\ (P a <-> Q b)) l k ->
  Forall2 R (filter P l) (filter Q k).
Proof.
  induction 1 as [|a b l k [HR HPQ] _ IH]; [constructor|].
  rewrite !filter_cons. destruct (decide (P a)) as [Ha|Ha].
  - rewrite decide_True by now apply HPQ. now constructor.
  - rewrite decide_False by (intros Hb; now apply Ha, HPQ). exact IH.
Qed.

(** *** Keys *)

Lemma key_cell_Some cell v :
  key_cell cell = Ok (Some v) -> cell = Some v /\ is_null (Some v) = false.
Proof.
  unfold key_cell. destruct (is_null cell) eqn:E; [discriminate|].
  destruct cell as [[]|]; try discriminate; intros [= <-]; now split.
Qed.

Lemma key_cell_None cell : key_cell cell = Ok None -> is_null cell = true.
Proof.
  unfold key_cell. destruct (is_null cell) eqn:E; [reflexivity|].
  destruct cell as [[]|]; discriminate.
Qed.

Lemma SFcompare_refl (f : float) : is_nan f = false -> SFcompare f f = Some Eq.
Proof.
  destruct f as [s|s| |s m e]; try discriminate; intros _; cbn [SFcompare].
  - reflexivity.
  - now destruct s.
  - rewrite Z.compare_refl. change (Pos.compare_cont Eq m m) with (m ?= m)%positive.
    rewrite Pos.compare_refl. now destruct s.
Qed.

Lemma SFcompare_total (a b : float) :
  is_nan a = false -> is_nan b = false -> exists c, SFcompare a b = Some c.
Proof. destruct a, b; try discriminate; intros _ _; cbn [SFcompare]; eauto. Qed.

Lemma fcompare_Z_total (f : float) z : is_nan f = false -> exists c, fcompare_Z f z = Some c.
Proof.
  destruct f; try discriminate; intros _; cbn [fcompare_Z]; eauto.
  destruct (Z.leb 0 e); eauto.
Qed.

Lemma num_compare_antisym (x y : num) :
  num_compare y x = CompOpp <$> num_compare x y.
Proof.
  destruct x as [x|f], y as [y|g]; cbn [num_compare].
  - cbn. now rewrite (Z.compare_antisym x y).
  - cbn. now destruct (fcompare_Z g x) as [[]|].
  - reflexivity.
  - apply SFcompare_antisym.
Qed.

Lemma num_compare_total (x y : num) :
  ordinary x -> ordinary y -> exists c, num_compare x y = Some c.
Proof.
  destruct x as [x|f], y as [y|g]; cbn [num_compare ordinary]; intros Hx Hy; eauto.
  - destruct (fcompare_Z_total g x Hy) as (c & ->). cbn. eauto.
  - now apply fcompare_Z_total.
  - now apply SFcompare_total.
Qed.

Lemma num_leb_total (x y : num) :
  ordinary x -> ordinary y -> num_leb x y = false -> num_leb y x = true.
Proof.
  intros Hx Hy. unfold num_leb. rewrite (num_compare_antisym x y).
  destruct (num_compare_total x y Hx Hy) as (c & ->). now destruct c.
Qed.

Lemma num_eqb_refl (x : num) : ordinary x -> num_eqb x x = true.
Proof.
  unfold num_eqb. destruct x as [x|f]; cbn [num_compare ordinary].
  - now rewrite Z.compare_refl.
  - intros Hf. now rewrite SFcompare_refl.
Qed.

Lemma as_num_ordinary (k : pyval) n :
  is_null (Some k) = false -> as_num k = Some n -> ordinary n.
Proof.
  destruct k as [|b|z|f|s|l|l]; cbn [as_num]; try discriminate; intros Hk [= <-];
    cbn [ordinary]; try exact I.
  now destruct f.
Qed.

Lemma key_leb_total (a b : pyval) :
  is_null (Some a) = false -> is_null (Some b) = false ->
  key_leb a b = false -> key_leb b a = true.
Proof.
  intros Ha Hb. unfold key_leb.
  destruct (as_num a) as [x|] eqn:Ex, (as_num b) as [y|] eqn:Ey; try easy.
  - apply num_leb_total; eauto using as_num_ordinary.
  - destruct a, b; try discriminate; try easy.
    intros E. destruct (String.leb_total s s0) as [E'|E']; congruence.
Qed.

Lemma is_key_not_null k : is_key k -> is_null (Some k) = false.
Proof. intros Hk. now apply key_cell_Some in Hk. Qed.

Lemma key_cell_is_key cell k : key_cell cell = Ok (Some k) -> is_key k.
Proof. intros E. destruct (key_cell_Some _ _ E) as [-> _]. exact E. Qed.

Lemma py_eqb_refl (k : pyval) : is_key k -> py_eqb k k = true.
Proof.
  intros Hk. pose proof (is_key_not_null k Hk) as Hn.
  destruct k as [|b|z|f|s|l|l]; try discriminate; cbn [py_eqb as_num].
  - apply (num_eqb_refl (NInt _)). exact I.
  - apply (num_eqb_refl (NInt _)). exact I.
  - apply (num_eqb_refl (NFloat f)). cbn. now destruct f.
  - apply String.eqb_refl.
Qed.

Lemma py_eqb_null (v k : pyval) :
  is_null (Some v) = true -> is_null (Some k) = false -> py_eqb v k = false.
Proof.
  destruct v as [|b|z|f|s|l|l]; try discriminate.
  - intros _. now destruct k.
  - destruct f; try discriminate. intros _ _.
    destruct k as [|b|z|g|s|l|l]; try reflexivity.
Qed.

(** *** The keys in sorted order *)

Lemma insert_key_elem k keys x : x ∈ insert_key k keys -> x = k \/ x ∈ keys.
Proof.
  induction keys as [|k' keys IH]; cbn [insert_key].
  - intros ->%list_elem_of_singleton. now left.
  - destruct (py_eqb k k'); [now right|].
    destruct (key_leb k k').
    + intros [->|Hx]%elem_of_cons; [now left|now right].
    + intros [->|Hx]%elem_of_cons; [right; now left|].
      destruct (IH Hx) as [->|Hin]; [now left|right; now right].
Qed.

Lemma insert_key_keeps k keys x : x ∈ keys -> x ∈ insert_key k keys.
Proof.
  induction keys as [|k' keys IH]; [inversion 1|]. cbn [insert_key].
  destruct (py_eqb k k'); [easy|]. destruct (key_leb k k'); [now right|].
  intros [->|Hx]%elem_of_cons; [now left|right; now apply IH].
Qed.

Lemma insert_key_has k keys :
  py_eqb k k = true -> exists k', k' ∈ insert_key k keys /\ py_eqb k k' = true.
Proof.
  intros Hk. induction keys as [|k' keys IH]; cbn [insert_key].
  - exists k. split; [now left|exact Hk].
  - destruct (py_eqb k k') eqn:E; [exists k'; split; [now left|exact E]|].
    destruct (key_leb k k'); [exists k; split; [now left|exact Hk]|].
    destruct IH as (x & Hx & Ex). exists x. split; [now right|exact Ex].
Qed.

Lemma insert_key_sorted k keys :
  is_null (Some k) = false -> Forall (fun x => is_null (Some x) = false) keys ->
  ascending keys -> ascending (insert_key k keys).
Proof.
  intros Hk Hkeys Hs. induction keys as [|k' keys IH]; cbn [insert_key].
  - repeat constructor.
  - apply Forall_cons in Hkeys as [Hk' Hkeys]. apply Sorted_inv in Hs as [Hs Hd].
    destruct (py_eqb k k'); [now constructor|].
    destruct (key_leb k k') eqn:E; [constructor; [now constructor|now constructor]|].
    pose proof (key_leb_total k k' Hk Hk' E) as E'.
    constructor; [now apply IH|].
    destruct keys as [|r keys]; cbn [insert_key]; [now constructor|].
    apply HdRel_inv in Hd. destruct (py_eqb k r); [now constructor|].
    destruct (key_leb k r); now constructor.
Qed.

Lemma sorted_keys_fold cells (acc : list pyval) :
  let keys := foldl (fun keys k => insert_key k keys) acc cells in
  (forall x, x ∈ keys -> x ∈ acc \/ x ∈ cells) /\
  (forall x, x ∈ acc -> x ∈ keys) /\
  (forall k, k ∈ cells -> py_eqb k k = true ->
     exists k', k' ∈ keys /\ py_eqb k k' = true) /\
  (Forall (fun x => is_null (Some x) = false) cells ->
   Forall (fun x => is_null (Some x) = false) acc -> ascending acc -> ascending keys).
Proof.
  revert acc; induction cells as [|c cells IH]; intros acc; cbn [foldl].
  - repeat split; try tauto. intros k Hk. inversion Hk.
  - destruct (IH (insert_key c acc)) as (H1 & H2 & H3 & H4). repeat split.
    + intros x Hx. destruct (H1 x Hx) as [Hin|Hin]; [|right; now right].
      destruct (insert_key_elem _ _ _ Hin) as [->|Hacc]; [right; now left|now left].
    + intros x Hx. now apply H2, insert_key_keeps.
    + intros k [->|Hk]%elem_of_cons Hrefl; [|now apply H3].
      destruct (insert_key_has c acc Hrefl) as (k' & Hk' & E).
      exists k'. split; [now apply H2|exact E].
    + intros [Hc Hcells]%Forall_cons Hacc Hs. apply H4; [exact Hcells| |].
      * apply Forall_forall. intros x Hx.
        destruct (insert_key_elem _ _ _ Hx) as [->|Hin]; [exact Hc|].
        now apply (proj1 (Forall_forall _ _) Hacc).
      * now apply insert_key_sorted.
Qed.

Lemma sorted_keys_elem cells x : x ∈ sorted_keys cells -> x ∈ cells.
Proof.
  intros Hx. destruct (sorted_keys_fold cells []) as (H1 & _).
  destruct (H1 x Hx) as [Hin|Hin]; [inversion Hin|exact Hin].
Qed.

Lemma sorted_keys_has cells k :
  k ∈ cells -> py_eqb k k = true ->
  exists k', k' ∈ sorted_keys cells /\ py_eqb k k' = true.
Proof. intros Hk Hr. now apply (sorted_keys_fold cells []). Qed.


(** *** The frame and its groups *)

Lemma to_row_Ok d row :
  to_row d = Ok row ->
  key_cell (d !! "asin") = Ok (row_key row) /\ row_rating row = d !! "overall".
Proof.
  unfold to_row. intros E. apply bind_Ok in E as (key & Hkey & E).
  injection E as <-. now split.
Qed.

Lemma to_frame_Forall2 records df :
  to_frame records = Ok df -> Forall2 (fun d row => to_row d = Ok row) records df.
Proof.
  revert df; induction records as [|d rest IH]; intros df E.
  - injection E as <-. constructor.
  - cbn [to_frame] in E. apply bind_Ok in E as (row & Hrow & E).
    apply bind_Ok in E as (rows & Hrows & E). injection E as <-.
    constructor; [exact Hrow|now apply IH].
Qed.

Lemma to_row_in_group d row k :
  to_row d = Ok row -> is_null (Some k) = false ->
  in_group k row = reviews_product k d.
Proof.
  intros [Hkey _]%to_row_Ok Hk. unfold in_group, reviews_product.
  destruct (row_key row) as [k'|].
  - apply key_cell_Some in Hkey as [-> _]. reflexivity.
  - apply key_cell_None in Hkey. destruct (d !! "asin") as [v|]; [|reflexivity].
    symmetry. now apply py_eqb_null.
Qed.

Lemma frame_group records df k :
  Forall2 (fun d row => to_row d = Ok row) records df -> is_null (Some k) = false ->
  Forall2 (fun (d : document) row => row_rating row = d !! "overall")
    (product_reviews k records) (filter (fun row => in_group k row = true) df).
Proof.
  intros Hf Hk. unfold product_reviews.
  apply (Forall2_filter _ (fun d => reviews_product k d = true)
           (fun row => in_group k row = true)).
  eapply Forall2_impl; [exact Hf|]. intros d row Hrow. split.
  - now apply to_row_Ok in Hrow.
  - now rewrite (to_row_in_group d row k Hrow Hk).
Qed.

Lemma frame_row_document records df row :
  Forall2 (fun d row => to_row d = Ok row) records df -> row ∈ df ->
  exists d, d ∈ records /\ to_row d = Ok row.
Proof.
  induction 1 as [|d r records df Hr _ IH]; [inversion 1|].
  intros [->|Hin]%elem_of_cons.
  - exists d. split; [now left|exact Hr].
  - destruct (IH Hin) as (d' & Hd' & E). exists d'. split; [now right|exact E].
Qed.

Lemma frame_document_row records df d :
  Forall2 (fun d row => to_row d = Ok row) records df -> d ∈ records ->
  exists row, row ∈ df /\ to_row d = Ok row.
Proof.
  induction 1 as [|d' r records df Hr _ IH]; [inversion 1|].
  intros [->|Hin]%elem_of_cons.
  - exists r. split; [now left|exact Hr].
  - destruct (IH Hin) as (r' & Hr' & E). exists r'. split; [now right|exact E].
Qed.

Lemma frame_key records df k :
  Forall2 (fun d row => to_row d = Ok row) records df -> k ∈ omap row_key df ->
  is_key k /\ exists d, d ∈ records /\ key_cell (d !! "asin") = Ok (Some k).
Proof.
  intros Hf Hk. apply list_elem_of_omap in Hk as (row & Hrow & Hkey).
  destruct (frame_row_document records df row Hf Hrow) as (d & Hd & E).
  apply to_row_Ok in E as [E _]. rewrite Hkey in E.
  split; [now apply key_cell_is_key in E|eauto].
Qed.

Lemma group_cells (docs : list document) (group : list frame_row) :
  Forall2 (fun (d : document) row => row_rating row = d !! "overall") docs group ->
  row_rating <$> group = (fun d : document => d !! "overall") <$> docs.
Proof.
  induction 1 as [|d row docs group Hrow _ IH]; [reflexivity|].
  cbn [fmap list_fmap]. now f_equal.
Qed.

Lemma length_filter_fmap {A B} (f : A -> B) (P : B -> Prop) `{forall b, Decision (P b)}
    (l : list A) :
  length (filter P (f <$> l)) = length (filter (fun a => P (f a)) l).
Proof.
  induction l as [|a l IH]; [reflexivity|].
  cbn [fmap list_fmap]. rewrite !filter_cons.
  destruct (decide (P (f a))); cbn [length]; now rewrite IH.
Qed.


Lemma textual_not_numeric (cells : list (option pyval)) cell :
  cell ∈ cells -> textual cell = true -> numeric_dtype cells = false.
Proof.
  intros Hin Ht. unfold numeric_dtype, column_of.
  assert (E : existsb textual cells = true).
  { apply existsb_exists. exists cell. split; [now apply list_elem_of_In|exact Ht]. }
  now rewrite E.
Qed.

Section WithPandas.
Context `{Pandas}.

Lemma frame_ratings records df :
  Forall2 (fun d row => to_row d = Ok row) records df ->
  row_rating <$> df = (fun d : document => d !! "overall") <$> records.
Proof.
  induction 1 as [|d row records df Hrow _ IH]; [reflexivity|].
  apply to_row_Ok in Hrow as [_ Hrow]. cbn [fmap list_fmap]. now f_equal.
Qed.

Lemma aggregate_group_count records df k p :
  Forall2 (fun d row => to_row d = Ok row) records df -> is_null (Some k) = false ->
  aggregate_group df k = Ok p ->
  asin p = k /\ review_count p = rated_reviews k records.
Proof.
  intros Hf Hk E. unfold aggregate_group in E.
  apply bind_Ok in E as (average & _ & E). injection E as <-.
  cbn [asin review_count]. split; [reflexivity|].
  rewrite (group_cells _ _ (frame_group records df k Hf Hk)).
  unfold rated_reviews. apply length_filter_fmap.
Qed.




Lemma product_ratings_elem records df prs p :
  to_frame records = Ok df -> product_ratings df = Ok prs -> p ∈ prs ->
  exists k, is_key k /\ aggregate_group df k = Ok p.
Proof.
  intros Hdf%to_frame_Forall2 E Hp. apply map_result_Forall2 in E.
  apply list_elem_of_lookup in Hp as (i & Hi).
  destruct (Forall2_lookup_r _ _ _ _ _ E Hi) as (k & Hk & Hagg).
  exists k. split; [|exact Hagg].
  apply list_elem_of_lookup_2, sorted_keys_elem in Hk.
  now apply (frame_key records df k Hdf).
Qed.

Lemma product_ratings_counts records df prs :
  to_frame records = Ok df -> product_ratings df = Ok prs ->
  Forall (fun p => review_count p = rated_reviews (asin p) records) prs.
Proof.
  intros Hdf E. apply Forall_forall. intros p Hp.
  destruct (product_ratings_elem records df prs p Hdf E Hp) as (k & Hk & Hagg).
  destruct (aggregate_group_count records df k p (to_frame_Forall2 _ _ Hdf)
              (is_key_not_null k Hk) Hagg) as [-> Hc].
  exact Hc.
Qed.


(** What [top_products_of] returns when it returns rows. *)
Lemma top_products_of_Ok records limit rows :
  top_products_of records limit = Ok rows ->
  rows = [] \/
  exists df prs,
    to_frame records = Ok df /\ product_ratings df = Ok prs /\
    rows = head limit
             (sort_values (filter (fun p => (2 <=? review_count p)%nat = true) prs)).
Proof.
  unfold top_products_of. destruct records as [|d rest]; [intros [= <-]; now left|].
  destruct (negb _ || negb _); [intros [= <-]; now left|].
  destruct (negb _); [discriminate|].
  intros E. apply bind_Ok in E as (df & Hdf & E). apply bind_Ok in E as (prs & Hprs & E).
  injection E as <-. right. now exists df, prs.
Qed.

Lemma top_products_of_elem records limit rows p :
  top_products_of records limit = Ok rows -> p ∈ rows ->
  (2 <= review_count p)%nat /\ review_count p = rated_reviews (asin p) records.
Proof.
  intros E Hp. apply top_products_of_Ok in E as [->|(df & prs & Hdf & Hprs & ->)];
    [inversion Hp|].
  apply head_elem_of in Hp.
  rewrite <- (elem_of_Permutation_proper _ _ _ (sort_values_perm _)) in Hp.
  apply list_elem_of_filter in Hp as [Hc Hp]. apply Nat.leb_le in Hc.
  split; [exact Hc|].
  pose proof (product_ratings_counts records df prs Hdf Hprs) as Hrows.
  now apply (proj1 (Forall_forall _ _) Hrows).
Qed.

Lemma query_top_products_eq (t : tables) category limit records df prs :
  select_table t category = Ok records ->
  records <> [] ->
  has_column "asin" records = true -> has_column "overall" records = true ->
  has_column "reviewText" records = true ->
  to_frame records = Ok df -> product_ratings df = Ok prs ->
  query_top_products t category limit
  = head limit
      (sort_values (filter (fun p => (2 <=? review_count p)%nat = true) prs)).
Proof.
  intros Hsel Hne Ha Ho Ht Hdf Hprs. unfold query_top_products, top_products_of.
  rewrite Hsel. cbn [bind]. destruct records; [contradiction|].
  rewrite Ha, Ho, Ht. cbn [negb orb]. rewrite Hdf. cbn [bind]. now rewrite Hprs.
Qed.

(** The two ways [query_top_products] ends. *)
Lemma query_top_products_cases (t : tables) category limit :
  query_top_products t category limit = [] \/
  exists records,
    select_table t category = Ok records /\
    top_products_of records limit = Ok (query_top_products t category limit).
Proof.
  unfold query_top_products, or_else.
  destruct (select_table t category) as [records|e]; cbn [bind]; [|now left].
  destruct (top_products_of records limit) as [rows|e] eqn:E; [|now left].
  right. now exists records.
Qed.



(** A document with a product id whose rating is a string, a list or a
    dict makes the aggregation raise. *)
Lemma textual_group_raises records df (d : document) k :
  to_frame records = Ok df -> d ∈ records ->
  key_cell (d !! "asin") = Ok (Some k) -> textual (d !! "overall") = true ->
  exists e, product_ratings df = Raise e.
Proof.
  intros Hdf%to_frame_Forall2 Hd Hk Ht.
  assert (Hnum : numeric_dtype (row_rating <$> df) = false).
  { rewrite (frame_ratings records df Hdf).
    exact (textual_not_numeric _ _ (list_elem_of_fmap_2 _ _ _ Hd) Ht). }
  destruct (frame_document_row records df d Hdf Hd) as (row & Hrow & E).
  apply to_row_Ok in E as [Hkey Hrating]. rewrite Hk in Hkey. injection Hkey as Hkey.
  destruct (sorted_keys_has (omap row_key df) k) as (k' & Hk' & Heq).
  { apply list_elem_of_omap. exists row. split; [exact Hrow|now symmetry]. }
  { now apply py_eqb_refl, (key_cell_is_key (d !! "asin")). }
  apply (map_result_raises _ _ k' TypeError Hk').
  unfold aggregate_group, group_average. rewrite Hnum.
  assert (E : existsb textual
                (row_rating <$> filter (fun row => in_group k' row = true) df) = true).
  { apply existsb_exists. exists (row_rating row). split; [|now rewrite Hrating].
    apply list_elem_of_In, list_elem_of_fmap. exists row. split; [reflexivity|].
    apply list_elem_of_filter. split; [|exact Hrow].
    unfold in_group. now rewrite <- Hkey. }
  now rewrite E.
Qed.

End WithPandas.
End QueryFacts.


(** ** The claims about the queries *)

Module QuerySpec.
Import NoSQL PyFacts InsertFacts InsertSpec StoreSamples QueryFacts QuerySamples.

(** C3. The number of reviews of a row of [query_top_products] is the
    number of documents of the selected table that review its product
    and have a rating, and it is at least two; so a product that fewer
    than two such documents review is the product of no row, whatever
    its rating, the category and the limit. *)
Theorem single_review_product_excluded `{Pandas}
    (t : tables) category limit (records : list document) :
  select_table t category = Ok records ->
  Forall (fun p => review_count p = rated_reviews (asin p) records /\
                   (2 <= review_count p)%nat)
    (query_top_products t category limit) /\
  (forall k, (rated_reviews k records < 2)%nat ->
     Forall (fun p => asin p <> k) (query_top_products t category limit)).
Proof.
  intros Hsel.
  assert (Hrows : Forall (fun p => review_count p = rated_reviews (asin p) records /\
                                   (2 <= review_count p)%nat)
                    (query_top_products t category limit)).
  { apply Forall_forall. intros p Hp.
    destruct (query_top_products_cases t category limit) as [E|(records' & Hsel' & Htop)].
    - rewrite E in Hp. inversion Hp.
    - rewrite Hsel in Hsel'. injection Hsel' as <-.
      destruct (top_products_of_elem _ _ _ p Htop Hp) as [H2 Hcount]. now split. }
  split; [exact Hrows|].
  intros k Hlt. apply Forall_forall. intros p Hp Heq.
  destruct (proj1 (Forall_forall _ _) Hrows p Hp) as [Hcount H2].
  rewrite Heq in Hcount. lia.
Qed.

Lemma single_review_product_excluded_witness :
  Forall (fun p => review_count p
                   = rated_reviews (asin p)
                       [stored "A" "P1" (VFloat f5) "great"; stored "B" "P1" (VFloat f4) "good";
                        stored "A" "P2" (VFloat f5) "superb"] /\
                   (2 <= review_count p)%nat)
    (query_top_products (H := ReferenceFacts.pandas) mixed None 10) /\
  Forall (fun p => asin p <> VStr "P2")
    (query_top_products (H := ReferenceFacts.pandas) mixed None 10).
Proof.
  destruct (@single_review_product_excluded ReferenceFacts.pandas mixed None 10
              [stored "A" "P1" (VFloat f5) "great"; stored "B" "P1" (VFloat f4) "good";
               stored "A" "P2" (VFloat f5) "superb"]) as [Hrows Hout]; [vm_refl|].
  split; [exact Hrows|]. apply Hout. vm_compute. lia.
Defined.




(** C4 as the code has it: a category name outside the routing table
    is not an error, and it is not read as an empty partition either:
    the name is routed to 'reviews', so that [query_by_rating] and
    [query_top_products] return what they return without a category;
    and a non-empty batch inserted under such a (non-empty) name is
    written to 'reviews' and the call returns [True]. *)
Theorem unknown_category_falls_back `{Builtins} `{Pandas} (t : tables) (c : string) :
  mapping !! c = None ->
  _get_table_name c = "reviews" /\
  (forall min_rating max_rating,
     query_by_rating t min_rating max_rating (Some c)
     = query_by_rating t min_rating max_rating None) /\
  (forall limit, query_top_products t (Some c) limit = query_top_products t None limit) /\
  (forall e data reviews,
     data <> [] -> c <> "" -> t !! "reviews" = Some reviews ->
     write e 0 = Written -> write e 1 = Written ->
     snd (insert_reviews e data (Some c) t) = true /\
     fst (insert_reviews e data (Some c) t) !! "reviews"
     = Some (reviews ++ imap (process e) data ++ imap (process e) data)%list).
Proof.
  intros Hm. split; [|split; [|split]].
  - unfold _get_table_name. now rewrite Hm.
  - intros lo hi. unfold query_by_rating. now rewrite select_table_unknown.
  - intros limit. unfold query_top_products. now rewrite select_table_unknown.
  - intros e data reviews Hd Hc Hrv W0 W1.
    destruct (insert_reviews_fallback e data c t reviews Hd Hc Hm Hrv W0 W1) as [E _].
    rewrite E. cbn [fst snd]. split; [reflexivity|apply lookup_insert_eq].
Qed.

Lemma unknown_category_falls_back_witness :
  _get_table_name "nonexistent_partition" = "reviews" /\
  (forall min_rating max_rating,
     query_by_rating loaded min_rating max_rating (Some "nonexistent_partition")
     = query_by_rating loaded min_rating max_rating None) /\
  (forall limit,
     query_top_products (H := ReferenceFacts.pandas) loaded (Some "nonexistent_partition") limit
     = query_top_products (H := ReferenceFacts.pandas) loaded None limit) /\
  (forall e data reviews,
     data <> [] -> "nonexistent_partition" <> "" -> loaded !! "reviews" = Some reviews ->
     write e 0 = Written -> write e 1 = Written ->
     snd (insert_reviews (H := Reference.builtins) e data (Some "nonexistent_partition") loaded)
       = true /\
     fst (insert_reviews (H := Reference.builtins) e data (Some "nonexistent_partition") loaded)
       !! "reviews"
     = Some (reviews ++ imap (process (H := Reference.builtins) e) data
                     ++ imap (process (H := Reference.builtins) e) data)%list).
Proof.
  apply (@unknown_category_falls_back Reference.builtins ReferenceFacts.pandas loaded
           "nonexistent_partition").
  vm_refl.
Defined.

(** C4 as stated fails: read under a name that is no partition, the
    store answers with the documents and the products of 'reviews'. *)
Lemma unknown_category_not_empty :
  mapping !! "nonexistent_partition" = None /\
  loaded !! "nonexistent_partition" = None /\
  query_by_rating loaded f4_5 f5 (Some "nonexistent_partition")
    = [stored "A" "P1" (VFloat f5) "great"] /\
  asin <$> query_top_products (H := ReferenceFacts.pandas) loaded
             (Some "nonexistent_partition") 10
    = [VStr "P1"] /\
  forall P : Pandas,
    length (query_top_products (H := P) loaded (Some "nonexistent_partition") 10) = 1%nat.
Proof.
  repeat split; try (vm_refl).
  intros P.
  rewrite (query_top_products_eq loaded (Some "nonexistent_partition") 10
             [stored "A" "P1" (VFloat f5) "great"; stored "B" "P1" (VFloat f4) "good"]
             (or_else (to_frame [stored "A" "P1" (VFloat f5) "great";
                                 stored "B" "P1" (VFloat f4) "good"]) [])
             (or_else
                (product_ratings
                   (or_else (to_frame [stored "A" "P1" (VFloat f5) "great";
                                       stored "B" "P1" (VFloat f4) "good"]) [])) []));
    try (vm_refl); try discriminate.
  unfold head. cbn [Z.leb Z.compare]. rewrite length_take.
  rewrite <- (Permutation_length (sort_values_perm _)).
  vm_refl.
Qed.

Section Aggregation.
Context `{Pandas}.


Lemma aggregate_loop_Ok (t : tables) items (acc : gmap string agg_data) :
  stats_computable t items ->
  exists m, aggregate_loop t items acc = Ok m /\
    dom m =@{gset string} dom acc ∪ list_to_set (nonempty_displays t items).
Proof.
  revert acc; induction items as [|[table display] items IH]; intros acc Hall.
  - exists acc. split; [reflexivity|]. cbn. set_solver.
  - assert (Hrest : stats_computable t items).
    { intros item records Hin. apply Hall. now right. }
    cbn [aggregate_loop nonempty_displays omap list_omap fst snd].
    destruct (t !! table) as [[|d records]|] eqn:Ht.
    + destruct (IH acc Hrest) as (m & Hm & Hdom). exists m. split; [exact Hm|]. exact Hdom.
    + destruct (Hall (table, display) (d :: records)) as (a & Ha);
        [left|exact Ht|discriminate|].
      rewrite Ha. cbn [bind].
      destruct (IH (<[display := a]> acc) Hrest) as (m & Hm & Hdom).
      exists m. split; [exact Hm|]. rewrite Hdom, dom_insert_L.
      fold (nonempty_displays t items). set_solver.
    + destruct (IH acc Hrest) as (m & Hm & Hdom). exists m. split; [exact Hm|]. exact Hdom.
Qed.

Lemma aggregate_loop_Raise (t : tables) items (acc : gmap string agg_data)
    item records e :
  item ∈ items -> t !! item.1 = Some records -> records <> [] ->
  category_stats records = Raise e ->
  exists e', aggregate_loop t items acc = Raise e'.
Proof.
  intros Hin Ht Hne He. revert acc.
  induction items as [|[table display] items IH]; intros acc; [inversion Hin|].
  cbn [aggregate_loop].
  apply elem_of_cons in Hin as [->|Hin].
  - cbn [fst] in Ht. rewrite Ht. destruct records as [|d records]; [contradiction|].
    rewrite He. cbn [bind]. eauto.
  - destruct (t !! table) as [[|d rs]|]; try now apply IH.
    destruct (category_stats (d :: rs)); cbn [bind]; [now apply IH|eauto].
Qed.

(** A check of [stats_computable] by evaluation. *)
Definition stats_ok (t : tables) (items : list (string * string)) : bool :=
  forallb (fun item : string * string =>
             match t !! item.1 with
             | Some ((_ :: _) as records) =>
                 match category_stats records with Ok _ => true | Raise _ => false end
             | _ => true
             end) items.

Lemma stats_ok_computable (t : tables) items :
  stats_ok t items = true -> stats_computable t items.
Proof.
  unfold stats_ok. rewrite forallb_forall. intros Hall item records Hin Ht Hne.
  specialize (Hall item (proj1 (list_elem_of_In _ _) Hin)). cbv beta in Hall.
  rewrite Ht in Hall. destruct records as [|d records]; [contradiction|].
  destruct (category_stats (d :: records)); [eauto|discriminate].
Qed.

End Aggregation.

(** C5 as the code has it: when the statistics of every non-empty
    category table can be computed, the keys of
    [aggregate_by_category] are exactly the display names of the
    non-empty category tables; when computing them raises for some
    table, the result is the empty mapping. *)
Theorem aggregate_by_category_keys `{Pandas} (t : tables) :
  (stats_computable t category_mapping ->
   dom (aggregate_by_category t)
   =@{gset string} list_to_set (nonempty_displays t category_mapping)) /\
  (forall item records e,
     item ∈ category_mapping -> t !! item.1 = Some records -> records <> [] ->
     category_stats records = Raise e ->
     aggregate_by_category t = ∅).
Proof.
  split.
  - intros Hall. unfold aggregate_by_category.
    destruct (aggregate_loop_Ok t category_mapping ∅ Hall) as (m & -> & Hdom).
    cbn [or_else]. rewrite Hdom, dom_empty_L. set_solver.
  - intros item records e Hin Ht Hne He. unfold aggregate_by_category.
    destruct (aggregate_loop_Raise t category_mapping ∅ item records e Hin Ht Hne He)
      as (e' & ->).
    reflexivity.
Qed.

Lemma aggregate_by_category_keys_witness :
  dom (aggregate_by_category (H := ReferenceFacts.pandas) loaded) =@{gset string} {["Books"]} /\
  aggregate_by_category (H := ReferenceFacts.pandas) garbled = ∅.
Proof.
  destruct (@aggregate_by_category_keys ReferenceFacts.pandas loaded) as [Hkeys _].
  destruct (@aggregate_by_category_keys ReferenceFacts.pandas garbled) as [_ Hfail].
  split.
  - rewrite Hkeys; [vm_refl|].
    apply stats_ok_computable. vm_refl.
  - apply (Hfail ("books", "Books") [stored "A" "P1" (VStr "abc") "great"] TypeError).
    + left.
    + vm_refl.
    + discriminate.
    + vm_refl.
Defined.

(** C5 as stated fails: 'books' holds a document, whose rating is the
    string "abc"; averaging the ratings raises, and the result has no
    key at all. *)
Lemma aggregate_by_category_drops_nonempty :
  garbled !! "books" = Some [stored "A" "P1" (VStr "abc") "great"] /\
  nonempty_displays garbled category_mapping = ["Books"] /\
  forall P : Pandas, aggregate_by_category (H := P) garbled = ∅.
Proof. repeat split; intros; vm_refl. Qed.

End QuerySpec.

(** ** More properties of [DataCleaner] *)

Module CleanerExtra.
Import Notions Cleaner PyFacts CleanerFacts SecondPass.

Section WithBuiltins.
Context `{Builtins}.

Lemma keep_if_nonblank_truthy v s w :
  truthy (VStr s) = true -> keep_if_nonblank v (VStr s) = Ok w -> truthy w = true.
Proof.
  intros Hs. unfold keep_if_nonblank. destruct (truthy v) eqn:Tv.
  - destruct v; cbn [call_strip bind]; try discriminate.
    destruct (truthy (VStr (strip s0))); intros [= <-]; assumption.
  - now intros [= <-].
Qed.

Lemma cleaned_validates (r d : gmap string pyval) :
  clean_review_data r = Ok d ->
  exists kept : bool, has_content d = Ok kept /\ validate_review_quality d = Ok kept.
Proof.
  intros E.
  apply clean_review_data_inv in E as (rid & name & ov & ut & Hrid & _ & Hov & _ & Hd).
  apply clean_overall_range in Hov as (f & -> & Hlo & Hhi).
  destruct (clean_text_is_str (Some 1000%nat) (dict_get r "reviewText" (VStr ""))) as (t & Ht).
  destruct (clean_text_is_str (Some 200%nat) (dict_get r "summary" (VStr ""))) as (u & Hu).
  rewrite Ht, Hu in Hd.
  set (a := if truthy (dict_get r "asin" (VStr "UNKNOWN"))
            then dict_get r "asin" (VStr "UNKNOWN") else VStr "UNKNOWN") in Hd.
  assert (Ta : truthy a = true).
  { subst a. destruct (truthy (dict_get r "asin" (VStr "UNKNOWN"))) eqn:Ta;
      [exact Ta|reflexivity]. }
  clearbody a.
  assert (Hcontent : exists kept, has_content d = Ok kept).
  { unfold has_content, dict_get. subst d.
    rewrite assemble_reviewText, assemble_summary. cbn [call_strip bind].
    destruct (truthy (VStr (strip t))); eauto. }
  destruct Hcontent as (kept & Hkept). exists kept. split; [exact Hkept|].
  rewrite <- Hkept. unfold validate_review_quality, required_fields, missing_or_empty.
  cbn [existsb]. unfold dict_get. subst d.
  rewrite assemble_reviewerID, assemble_asin, assemble_overall.
  rewrite (keep_if_nonblank_truthy _ "UNKNOWN" rid eq_refl Hrid), Ta.
  cbn [truthy negb orb]. rewrite (ge_one_nonzero f Hlo). cbn [negb orb].
  unfold in_rating_range, float_le_val, val_le_float. cbn [as_num bind].
  rewrite num_leb_float, Hlo. cbn [bind]. now rewrite num_leb_float, Hhi.
Qed.

Lemma clean_batch_as_filter (rs : list (gmap string pyval)) :
  clean_batch rs
  = let* cleaned := clean_each rs in Ok (filter (fun d => with_content d = true) cleaned).
Proof.
  induction rs as [|r rs IH]; [reflexivity|].
  cbn [clean_batch clean_each].
  destruct (clean_review_data r) as [d|e] eqn:E; cbn [bind]; [|reflexivity].
  destruct (cleaned_validates r d E) as (kept & Hc & Hv).
  rewrite Hv. cbn [bind]. rewrite IH.
  destruct (clean_each rs) as [ds|e]; cbn [bind]; [|reflexivity].
  assert (W : with_content d = kept) by (unfold with_content; now rewrite Hc).
  rewrite filter_cons.
  destruct kept;
    [rewrite decide_True by exact W|rewrite decide_False by (rewrite W; discriminate)];
    reflexivity.
Qed.

Lemma clean_each_raises (rs : list (gmap string pyval)) r e :
  r ∈ rs -> clean_review_data r = Raise e -> exists e', clean_each rs = Raise e'.
Proof.
  intros Hin He. induction rs as [|r' rs IH]; [inversion Hin|].
  cbn [clean_each]. apply elem_of_cons in Hin as [<-|Hin].
  - rewrite He. cbn [bind]. eauto.
  - destruct (clean_review_data r'); cbn [bind]; [|eauto].
    destruct (IH Hin) as (e' & ->). cbn [bind]. eauto.
Qed.

Lemma clean_each_length (rs cs : list (gmap string pyval)) :
  clean_each rs = Ok cs -> length cs = length rs.
Proof.
  revert cs; induction rs as [|r rs IH]; intros cs E.
  - now injection E as <-.
  - cbn [clean_each] in E. apply bind_Ok in E as (d & _ & E).
    apply bind_Ok in E as (ds & Hds & E). injection E as <-.
    cbn [length]. f_equal. now apply IH.
Qed.

Lemma str_take_starts_nonblank n s : starts_nonblank s -> starts_nonblank (str_take n s).
Proof. destruct n, s; cbn; easy. Qed.

Lemma strip_starts_nonblank s : starts_nonblank (strip s).
Proof. apply rstrip_starts_nonblank, lstrip_starts_nonblank. Qed.

Lemma keep_if_nonblank_is_str v s w :
  strip s <> "" -> keep_if_nonblank v (VStr s) = Ok w ->
  exists t, w = VStr t /\ strip t <> "".
Proof.
  intros Hs. unfold keep_if_nonblank. destruct (truthy v) eqn:Tv.
  - destruct v; cbn [call_strip bind]; try discriminate.
    destruct (truthy (VStr (strip s0))) eqn:Ts; intros [= <-]; [|eauto].
    exists s0. split; [reflexivity|]. intros E. rewrite E in Ts. discriminate.
  - intros [= <-]. eauto.
Qed.

End WithBuiltins.

(** X1. Validation never rejects a cleaned record for its ids or its
    rating, and never raises on it: for a document that
    [clean_review_data] produced, [validate_review_quality] returns
    what the content check returns. *)
Theorem cleaned_record_validates `{Builtins} (r d : gmap string pyval) :
  clean_review_data r = Ok d ->
  exists kept : bool, has_content d = Ok kept /\ validate_review_quality d = Ok kept.
Proof. apply cleaned_validates. Qed.

Lemma cleaned_record_validates_witness :
  exists kept : bool,
    has_content (Samples.cleaned (VFloat f3)) = Ok kept /\
    validate_review_quality (Samples.cleaned (VFloat f3)) = Ok kept.
Proof.
  apply (@cleaned_record_validates Reference.builtins (Samples.raw (VStr "abc"))).
  vm_refl.
Defined.


(** X3. One record that cannot be cleaned makes [clean_batch] raise:
    no partial batch is returned; and a batch that is returned is no
    longer than the batch given. *)
Theorem clean_batch_all_or_nothing `{Builtins} (rs : list (gmap string pyval)) :
  (forall r e, r ∈ rs -> clean_review_data r = Raise e ->
     exists e', clean_batch rs = Raise e') /\
  (forall ds, clean_batch rs = Ok ds -> (length ds <= length rs)%nat).
Proof.
  split.
  - intros r e Hin He. rewrite clean_batch_as_filter.
    destruct (clean_each_raises rs r e Hin He) as (e' & ->). cbn [bind]. eauto.
  - intros ds. rewrite clean_batch_as_filter.
    destruct (clean_each rs) as [cs|e] eqn:E; cbn [bind]; [|discriminate].
    intros [= <-]. rewrite <- (clean_each_length rs cs E). apply length_filter.
Qed.

Lemma clean_batch_all_or_nothing_witness :
  (exists e', clean_batch (H := Reference.builtins)
                [Samples.raw (VFloat f5); <["reviewerID" := VInt 7]> (Samples.raw (VFloat f5))]
              = Raise e') /\
  (length [Samples.cleaned (VFloat f5)] <= length [Samples.raw (VFloat f5)])%nat.
Proof.
  destruct (@clean_batch_all_or_nothing Reference.builtins
              [Samples.raw (VFloat f5); <["reviewerID" := VInt 7]> (Samples.raw (VFloat f5))])
    as [H1 _].
  destruct (@clean_batch_all_or_nothing Reference.builtins [Samples.raw (VFloat f5)])
    as [_ H2].
  split.
  - apply (H1 (<["reviewerID" := VInt 7]> (Samples.raw (VFloat f5))) AttributeError).
    + right. left.
    + vm_refl.
  - apply H2. vm_refl.
Defined.

(** X4. A cleaned record has exactly the nine fields of the cleaner,
    whatever other keys the raw record had; its rating is a float and
    its review time an integer. *)
Theorem cleaned_record_fields `{Builtins} (r d : gmap string pyval) :
  clean_review_data r = Ok d ->
  dom d = cleaned_fields /\
  (exists f, d !! "overall" = Some (VFloat f)) /\
  (exists z, d !! "unixReviewTime" = Some (VInt z) /\
     (py_int (dict_get r "unixReviewTime" (VInt 0)) = Ok z \/
      (z = 0 /\ exists e, py_int (dict_get r "unixReviewTime" (VInt 0)) = Raise e))).
Proof.
  intros E.
  apply clean_review_data_inv in E as (rid & name & ov & ut & _ & _ & Hov & Hut & ->).
  split; [|split].
  - vm_refl.
  - apply clean_overall_range in Hov as (f & -> & _). exists f. apply assemble_overall.
  - unfold clean_unix_time, try_except, bind in Hut.
    destruct (py_int _) as [z|e] eqn:Ei.
    + injection Hut as <-. exists z. split; [apply assemble_unixReviewTime|now left].
    + destruct (value_or_type_error e); [|discriminate]. injection Hut as <-.
      exists 0. split; [apply assemble_unixReviewTime|]. right. eauto.
Qed.

Lemma cleaned_record_fields_witness :
  dom (Samples.cleaned (VFloat f5)) = cleaned_fields /\
  (exists f, Samples.cleaned (VFloat f5) !! "overall" = Some (VFloat f)) /\
  (exists z, Samples.cleaned (VFloat f5) !! "unixReviewTime" = Some (VInt z) /\
     (py_int (H := Reference.builtins)
        (dict_get (<["category" := VStr "Books"]> (Samples.raw (VFloat f5)))
           "unixReviewTime" (VInt 0)) = Ok z \/
      (z = 0 /\ exists e,
         py_int (H := Reference.builtins)
           (dict_get (<["category" := VStr "Books"]> (Samples.raw (VFloat f5)))
              "unixReviewTime" (VInt 0)) = Raise e))).
Proof.
  apply (@cleaned_record_fields Reference.builtins
           (<["category" := VStr "Books"]> (Samples.raw (VFloat f5)))).
  vm_refl.
Defined.

(** X5. In a cleaned record the review text has at most 1000
    characters and the summary at most 200, neither begins with white
    space, and the review time is trimmed at both ends. *)
Theorem cleaned_texts_bounded `{Builtins} (r d : gmap string pyval) :
  clean_review_data r = Ok d ->
  exists text summary time,
    d !! "reviewText" = Some (VStr text) /\
    (String.length text <= 1000)%nat /\ starts_nonblank text /\
    d !! "summary" = Some (VStr summary) /\
    (String.length summary <= 200)%nat /\ starts_nonblank summary /\
    d !! "reviewTime" = Some (VStr time) /\ strip time = time.
Proof.
  intros E.
  apply clean_review_data_inv in E as (rid & name & ov & ut & _ & _ & _ & _ & ->).
  assert (G : forall n v, exists t, clean_text (Some n) v = VStr t /\
                                    (String.length t <= n)%nat /\ starts_nonblank t).
  { intros n v. destruct v; cbn [clean_text];
      try (exists ""; repeat split; cbn; lia).
    eexists. split; [reflexivity|]. split; [apply str_take_length|].
    apply str_take_starts_nonblank, strip_starts_nonblank. }
  destruct (G 1000%nat (dict_get r "reviewText" (VStr ""))) as (t & Ht & Lt & Nt).
  destruct (G 200%nat (dict_get r "summary" (VStr ""))) as (u & Hu & Lu & Nu).
  assert (exists rt, clean_text None (dict_get r "reviewTime" (VStr "")) = VStr rt /\
                     strip rt = rt) as (rt & Hrt & Srt).
  { destruct (dict_get r "reviewTime" (VStr "")); cbn [clean_text];
      try (exists ""; split; reflexivity).
    eexists. split; [reflexivity|apply strip_idem]. }
  exists t, u, rt. rewrite Ht, Hu, Hrt.
  rewrite assemble_reviewText, assemble_summary, assemble_reviewTime. easy.
Qed.

Lemma cleaned_texts_bounded_witness :
  exists text summary time,
    Samples.cleaned_long_summary (Samples.a199 ++ " ") !! "reviewText" = Some (VStr text) /\
    (String.length text <= 1000)%nat /\ starts_nonblank text /\
    Samples.cleaned_long_summary (Samples.a199 ++ " ") !! "summary" = Some (VStr summary) /\
    (String.length summary <= 200)%nat /\ starts_nonblank summary /\
    Samples.cleaned_long_summary (Samples.a199 ++ " ") !! "reviewTime" = Some (VStr time) /\
    strip time = time.
Proof.
  apply (@cleaned_texts_bounded Reference.builtins Samples.raw_long_summary).
  vm_refl.
Defined.

(** X6. In a cleaned record [helpful] is a list of exactly two
    elements: the first two of the raw list when it has at least two,
    and [0, 0] otherwise (a shorter list, another type, or no field). *)
Theorem cleaned_helpful_pair `{Builtins} (r d : gmap string pyval) :
  clean_review_data r = Ok d ->
  exists a b, d !! "helpful" = Some (VList [a; b]) /\
    ((exists rest, r !! "helpful" = Some (VList (a :: b :: rest))) \/
     (a = VInt 0 /\ b = VInt 0)).
Proof.
  intros E.
  apply clean_review_data_inv in E as (rid & name & ov & ut & _ & _ & _ & _ & ->).
  rewrite assemble_helpful. unfold dict_get.
  destruct (r !! "helpful") as [[| | | | |l|]|]; cbn [clean_helpful];
    try (exists (VInt 0), (VInt 0); split; [reflexivity|now right]).
  destruct l as [|a [|b rest]]; cbn [length Nat.leb take];
    try (exists (VInt 0), (VInt 0); split; [reflexivity|now right]).
  exists a, b. split; [reflexivity|]. left. now exists rest.
Qed.

Lemma cleaned_helpful_pair_witness :
  exists a b, Samples.cleaned (VFloat f5) !! "helpful" = Some (VList [a; b]) /\
    ((exists rest,
        <["helpful" := VList [VInt 3]]> (Samples.raw (VFloat f5)) !! "helpful"
        = Some (VList (a :: b :: rest))) \/
     (a = VInt 0 /\ b = VInt 0)).
Proof.
  apply (@cleaned_helpful_pair Reference.builtins
           (<["helpful" := VList [VInt 3]]> (Samples.raw (VFloat f5)))).
  vm_refl.
Defined.

(** X7. In a cleaned record the reviewer id and the reviewer name are
    strings that are not blank, and the product id is not empty. *)
Theorem cleaned_ids_not_blank `{Builtins} (r d : gmap string pyval) :
  clean_review_data r = Ok d ->
  exists reviewer name product,
    d !! "reviewerID" = Some (VStr reviewer) /\ strip reviewer <> "" /\
    d !! "reviewerName" = Some (VStr name) /\ strip name <> "" /\
    d !! "asin" = Some product /\ truthy product = true.
Proof.
  intros E.
  apply clean_review_data_inv in E as (rid & name & ov & ut & Hrid & Hname & _ & _ & ->).
  apply (keep_if_nonblank_is_str _ "UNKNOWN") in Hrid as (s & -> & Hs); [|discriminate].
  apply (keep_if_nonblank_is_str _ "Anonymous") in Hname as (n & -> & Hn); [|discriminate].
  eexists s, n, _.
  rewrite assemble_reviewerID, assemble_reviewerName, assemble_asin.
  repeat split; try assumption.
  destruct (truthy (dict_get r "asin" (VStr "UNKNOWN"))) eqn:Ta; [exact Ta|reflexivity].
Qed.

Lemma cleaned_ids_not_blank_witness :
  exists reviewer name product,
    Samples.cleaned_no_ids !! "reviewerID" = Some (VStr reviewer) /\ strip reviewer <> "" /\
    Samples.cleaned_no_ids !! "reviewerName" = Some (VStr name) /\ strip name <> "" /\
    Samples.cleaned_no_ids !! "asin" = Some product /\ truthy product = true.
Proof.
  apply (@cleaned_ids_not_blank Reference.builtins Samples.raw_no_ids).
  vm_refl.
Defined.

(** X8. On a record that was not cleaned, [validate_review_quality]
    returns [False] as soon as a required field is missing or empty
    (a rating of 0 included), and raises [TypeError] when the three
    fields are there and the rating is a string. *)
Theorem validate_review_quality_on_raw (d : gmap string pyval) :
  (forall field, field ∈ required_fields -> missing_or_empty d field = true ->
     validate_review_quality d = Ok false) /\
  (forall s, Forall (fun field => missing_or_empty d field = false) required_fields ->
     d !! "overall" = Some (VStr s) ->
     validate_review_quality d = Raise TypeError).
Proof.
  split.
  - intros field Hin Hm. unfold validate_review_quality.
    rewrite (proj2 (existsb_exists _ _)); [reflexivity|].
    exists field. split; [now apply list_elem_of_In|exact Hm].
  - intros s Hall Ho. unfold validate_review_quality.
    assert (E : existsb (missing_or_empty d) required_fields = false).
    { apply Forall_cons in Hall as [H1 Hall]. apply Forall_cons in Hall as [H2 Hall].
      apply Forall_cons in Hall as [H3 _]. cbn [required_fields existsb].
      now rewrite H1, H2, H3. }
    rewrite E. unfold dict_get. rewrite Ho. reflexivity.
Qed.

Lemma validate_review_quality_on_raw_witness :
  validate_review_quality (<["overall" := VInt 0]> (Samples.raw (VFloat f5))) = Ok false /\
  validate_review_quality (Samples.raw (VStr "abc")) = Raise TypeError.
Proof.
  split.
  - apply (proj1 (validate_review_quality_on_raw _) "overall").
    + right. right. left.
    + vm_refl.
  - apply (proj2 (validate_review_quality_on_raw _) "abc").
    + repeat constructor.
    + vm_refl.
Defined.

End CleanerExtra.

(** ** More properties of [insert_reviews] *)

Module StoreExtra.
Import Notions NoSQL PyFacts InsertFacts StoreSamples.

Lemma extends_refl t : extends t t.
Proof.
  split; [|reflexivity]. intros name old Hold. exists []. now rewrite app_nil_r.
Qed.

Lemma extends_insert (t : tables) name old extra :
  t !! name = Some old -> extends t (<[name := (old ++ extra)%list]> t).
Proof.
  intros Hold. split.
  - intros name' old' Hold'. destruct (decide (name = name')) as [<-|Hne].
    + rewrite lookup_insert_eq. exists extra. congruence.
    + rewrite lookup_insert_ne by exact Hne. exists []. now rewrite app_nil_r.
  - apply dom_insert_lookup_L. now exists old.
Qed.

Lemma extends_trans t1 t2 t3 : extends t1 t2 -> extends t2 t3 -> extends t1 t3.
Proof.
  intros [H12 D12] [H23 D23]. split; [|congruence].
  intros name old Hold. destruct (H12 name old Hold) as (a & Ha).
  destruct (H23 name _ Ha) as (b & Hb). exists (a ++ b)%list. now rewrite app_assoc.
Qed.

Section WithBuiltins.
Context `{Builtins}.

Lemma insert_reviews_extends e data category (t : tables) :
  extends t (fst (insert_reviews e data category t)).
Proof.
  destruct (insert_reviews_case e data category t)
    as [| | | reviews ? Hrv | reviews ? Hrv | reviews c old ? Hrv W0 G Hold]; cbn [fst];
    try apply extends_refl; try now apply extends_insert.
  assert (E1 := extends_insert t "reviews" reviews (imap (process e) data) Hrv).
  destruct (write e 1); try exact E1;
    exact (extends_trans _ _ _ E1 (extends_insert _ _ old (imap (process e) data) Hold)).
Qed.

Lemma run_extends calls (t : tables) : extends t (run calls t).
Proof.
  revert t; induction calls as [|c calls IH]; intros t; [apply extends_refl|].
  cbn [run foldl]. eapply extends_trans; [apply insert_reviews_extends|apply IH].
Qed.

Lemma insert_reviews_known e data (c name : string) (t : tables) reviews old :
  data <> [] -> mapping !! c = Some name ->
  t !! "reviews" = Some reviews -> t !! name = Some old ->
  write e 0 = Written -> write e 1 = Written ->
  insert_reviews e data (Some c) t
  = (<[name := (old ++ imap (process e) data)%list]>
       (<["reviews" := (reviews ++ imap (process e) data)%list]> t), true).
Proof.
  intros Hdata Hmap Hrv Hold W0 W1.
  assert (Hc : c <> "").
  { intros ->. vm_compute in Hmap. discriminate. }
  assert (G : given (Some c) = Some c).
  { cbn [given]. destruct (String.eqb_spec c ""); [contradiction|reflexivity]. }
  assert (N : _get_table_name c = name).
  { unfold _get_table_name. now rewrite Hmap. }
  assert (Hne : name <> "reviews").
  { apply category_partition_not_reviews. now exists c. }
  destruct (insert_reviews_case e data (Some c) t)
    as [| | | | reviews' ? Hrv' W0' [G'|(c' & G' & Hnone)]
        | reviews' c' old' ? Hrv' W0' G' Hold']; try congruence.
  - rewrite G in G'. injection G' as <-. rewrite N in Hnone.
    rewrite lookup_insert_ne in Hnone by congruence. congruence.
  - rewrite G in G'. injection G' as <-. rewrite N in *.
    rewrite lookup_insert_ne in Hold' by congruence.
    rewrite Hold in Hold'. injection Hold' as <-.
    rewrite Hrv in Hrv'. injection Hrv' as <-.
    now rewrite W1.
Qed.

Lemma process_lookup e i (record : document) :
  process e i record !! "inserted_at" = Some (VStr (now e i)) /\
  process e i record !! "db_id" = Some (VStr (db_id record)) /\
  forall k, k <> "inserted_at" -> k <> "db_id" -> process e i record !! k = record !! k.
Proof.
  unfold process. split; [|split].
  - now rewrite lookup_insert_ne, lookup_insert_eq.
  - now rewrite lookup_insert_eq.
  - intros k H1 H2. now rewrite !lookup_insert_ne by congruence.
Qed.

End WithBuiltins.

(** X9. [insert_reviews] only appends: whatever the batch, the
    category and the outcome of the writes, every table keeps its
    documents, in their order, at the front of what it holds after the
    call, and no table is created or removed. *)
Theorem insert_reviews_append_only `{Builtins} e data category (t : tables) :
  (forall name old, t !! name = Some old ->
     exists added,
       fst (insert_reviews e data category t) !! name = Some (old ++ added)%list) /\
  dom (fst (insert_reviews e data category t)) = dom t.
Proof. apply insert_reviews_extends. Qed.

(** X10. A non-empty batch inserted under one of the six known
    categories, with both writes going through, is appended once to
    'reviews' and once to the table of the category; no other table
    changes and the call returns [True]. *)
Theorem known_category_written_to_both `{Builtins}
    e data (c name : string) (t : tables) reviews old :
  data <> [] -> mapping !! c = Some name ->
  t !! "reviews" = Some reviews -> t !! name = Some old ->
  write e 0 = Written -> write e 1 = Written ->
  insert_reviews e data (Some c) t
  = (<[name := (old ++ imap (process e) data)%list]>
       (<["reviews" := (reviews ++ imap (process e) data)%list]> t), true).
Proof. apply insert_reviews_known. Qed.

Lemma known_category_written_to_both_witness :
  insert_reviews (H := Reference.builtins) calm [a_p1] (Some "Books") init_tables
  = (<["books" := ([] ++ imap (process (H := Reference.builtins) calm) [a_p1])%list]>
       (<["reviews" := ([] ++ imap (process (H := Reference.builtins) calm) [a_p1])%list]>
          init_tables), true).
Proof.
  apply (@known_category_written_to_both Reference.builtins calm [a_p1] "Books" "books");
    try discriminate; vm_refl.
Defined.

Section WithBuiltins.
Context `{Builtins}.

(** What one call appends to a table: nothing, the processed batch, or
    the processed batch twice. *)
Lemma insert_reviews_added e data category (t : tables) name old added :
  t !! name = Some old ->
  (insert_reviews e data category t).1 !! name = Some (old ++ added)%list ->
  added = [] \/ added = imap (process e) data \/
  added = (imap (process e) data ++ imap (process e) data)%list.
Proof.
  intros Hold. set (pd := imap (process e) data).
  assert (Hsame : forall t' : tables,
            t' !! name = Some old -> t' !! name = Some (old ++ added)%list -> added = []).
  { intros t' E1 E2. rewrite E1 in E2. injection E2 as E2.
    apply (app_inv_head old). now rewrite app_nil_r. }
  assert (Hone : forall rv, t !! "reviews" = Some rv ->
            <["reviews" := (rv ++ pd)%list]> t !! name = Some (old ++ added)%list ->
            added = [] \/ added = pd).
  { intros rv Hrv. destruct (decide (name = "reviews")) as [->|Hne].
    - rewrite lookup_insert_eq. rewrite Hold in Hrv. injection Hrv as <-.
      intros [= E%app_inv_head]. right. now symmetry.
    - rewrite lookup_insert_ne by congruence. intros E. left.
      exact (Hsame t Hold E). }
  destruct (insert_reviews_case e data category t)
    as [| | | rv ? Hrv | rv ? Hrv | rv c old' ? Hrv W0 G Hold']; cbn [fst];
    try (intros E; left; exact (Hsame t Hold E));
    try (intros E; destruct (Hone rv Hrv E) as [->| ->]; tauto).
  fold pd in Hold' |- *.
  assert (Htwo : <[_get_table_name c := (old' ++ pd)%list]>
                   (<["reviews" := (rv ++ pd)%list]> t) !! name
                 = Some (old ++ added)%list ->
                 added = [] \/ added = pd \/ added = (pd ++ pd)%list).
  { destruct (decide (name = _get_table_name c)) as [->|Hne].
    - rewrite lookup_insert_eq. intros [= E].
      destruct (decide (_get_table_name c = "reviews")) as [Er|Er].
      + rewrite Er in *. rewrite lookup_insert_eq in Hold'. injection Hold' as <-.
        rewrite Hold in Hrv. injection Hrv as <-.
        rewrite <- app_assoc in E. apply app_inv_head in E. rewrite <- E. tauto.
      + rewrite lookup_insert_ne in Hold' by congruence.
        rewrite Hold in Hold'. injection Hold' as <-.
        apply app_inv_head in E. rewrite <- E. tauto.
    - rewrite lookup_insert_ne by congruence. intros E.
      destruct (Hone rv Hrv E) as [->| ->]; tauto. }
  destruct (write e 1); try exact Htwo.
  intros E. destruct (Hone rv Hrv E) as [->| ->]; tauto.
Qed.

End WithBuiltins.

(** X11. What a call of [insert_reviews] appends to a table is
    nothing, the processed batch, or (to 'reviews', under a category
    that is routed there) the processed batch twice; and every
    document it appends is a record of the batch with two fields set:
    [inserted_at], the clock read for that record, and [db_id], the
    reviewer id and the product id joined by "_" ("unknown" for an id
    that is missing); every other field is the record's. *)
Theorem written_documents `{Builtins}
    e (data : list document) category (t : tables) name old added :
  t !! name = Some old ->
  (insert_reviews e data category t).1 !! name = Some (old ++ added)%list ->
  (added = [] \/ added = imap (process e) data \/
   added = (imap (process e) data ++ imap (process e) data)%list) /\
  forall d, d ∈ added ->
    exists i record,
      data !! i = Some record /\
      d !! "inserted_at" = Some (VStr (now e i)) /\
      d !! "db_id" = Some (VStr (py_format (dict_get record "reviewerID" (VStr "unknown"))
                                  ++ "_"
                                  ++ py_format (dict_get record "asin" (VStr "unknown")))) /\
      forall k, k <> "inserted_at" -> k <> "db_id" -> d !! k = record !! k.
Proof.
  intros Hold Hnew.
  pose proof (insert_reviews_added e data category t name old added Hold Hnew) as Hadded.
  split; [exact Hadded|]. intros d Hd.
  assert (Hin : d ∈ imap (process e) data).
  { destruct Hadded as [->|[->| ->]]; [inversion Hd|exact Hd|].
    apply elem_of_app in Hd. tauto. }
  apply elem_of_lookup_imap in Hin as (i & record & -> & Hi).
  exists i, record. split; [exact Hi|]. apply process_lookup.
Qed.

Lemma written_documents_witness :
  ([stored "A" "P1" (VFloat f5) "great"; stored "B" "P1" (VFloat f4) "good"] = [] \/
   [stored "A" "P1" (VFloat f5) "great"; stored "B" "P1" (VFloat f4) "good"]
   = imap (process (H := Reference.builtins) calm) [a_p1; b_p1] \/
   [stored "A" "P1" (VFloat f5) "great"; stored "B" "P1" (VFloat f4) "good"]
   = (imap (process (H := Reference.builtins) calm) [a_p1; b_p1]
      ++ imap (process (H := Reference.builtins) calm) [a_p1; b_p1])%list) /\
  forall d,
    d ∈ [stored "A" "P1" (VFloat f5) "great"; stored "B" "P1" (VFloat f4) "good"] ->
    exists i record,
      [a_p1; b_p1] !! i = Some record /\
      d !! "inserted_at" = Some (VStr (now calm i)) /\
      d !! "db_id"
      = Some (VStr (py_format (H := Reference.builtins)
                      (dict_get record "reviewerID" (VStr "unknown"))
                    ++ "_"
                    ++ py_format (H := Reference.builtins)
                         (dict_get record "asin" (VStr "unknown")))) /\
      forall k, k <> "inserted_at" -> k <> "db_id" -> d !! k = record !! k.
Proof.
  apply (@written_documents Reference.builtins calm [a_p1; b_p1] (Some "Books")
           init_tables "books" []); vm_refl.
Defined.

(** X12. The table that [_get_table_name] names always exists in a
    store set up by [_init_tinydb], also after any sequence of
    inserts, and it is never 'metadata'; two known categories never
    share a table. *)
Theorem routed_table_exists `{Builtins} :
  (forall calls c, is_Some (run calls init_tables !! _get_table_name c)) /\
  (forall c, _get_table_name c <> "metadata") /\
  (forall c1 c2 name, mapping !! c1 = Some name -> mapping !! c2 = Some name -> c1 = c2).
Proof.
  split; [|split].
  - intros calls c. destruct (run_extends calls init_tables) as [_ Hdom].
    apply elem_of_dom. rewrite Hdom. apply elem_of_dom.
    destruct (get_table_name_cases c) as [[_ ->]|Hc%category_partition_cases].
    + now exists [].
    + repeat (apply elem_of_cons in Hc as [->|Hc]; [now exists []|]). inversion Hc.
  - intros c.
    destruct (get_table_name_cases c) as [[_ ->]|Hc%category_partition_cases];
      [discriminate|].
    intros E. rewrite E in Hc.
    repeat (apply elem_of_cons in Hc as [Hc|Hc]; [discriminate Hc|]). inversion Hc.
  - intros c1 c2 name H1 H2.
    apply elem_of_list_to_map_2 in H1. apply elem_of_list_to_map_2 in H2.
    rewrite !elem_of_cons, elem_of_nil in H1, H2. naive_solver.
Qed.

End StoreExtra.

(** ** More properties of [query_by_rating] *)

Module QueryExtra.
Import Notions Cleaner NoSQL PyFacts CleanerFacts SecondPass InsertFacts StoreSamples
  QueryFacts QuerySamples.

Lemma query_condition_numeric lo hi (doc : document) :
  (forall v, doc !! "overall" = Some v -> is_Some (as_num v)) ->
  query_condition lo hi doc = Ok (rating_between lo hi doc).
Proof.
  unfold query_condition, rating_between, float_le_val, val_le_float. intros Hn.
  destruct (doc !! "overall") as [v|]; [|reflexivity].
  destruct (Hn v eq_refl) as (n & ->). cbn [bind].
  now destruct (num_leb (NFloat lo) n).
Qed.

Lemma search_numeric lo hi (docs : list document) :
  numeric_ratings docs ->
  search (query_condition lo hi) docs
  = Ok (filter (fun d => rating_between lo hi d = true) docs).
Proof.
  induction docs as [|doc docs IH]; intros Hn; [reflexivity|].
  cbn [search]. rewrite query_condition_numeric by (intros v; apply Hn; left).
  cbn [bind]. rewrite IH by (intros d v Hd; apply Hn; now right). cbn [bind].
  rewrite filter_cons.
  destruct (rating_between lo hi doc) eqn:E;
    [now rewrite decide_True|now rewrite decide_False].
Qed.

Lemma search_raises (cond : document -> result bool) (docs : list document) doc e :
  doc ∈ docs -> cond doc = Raise e -> exists e', search cond docs = Raise e'.
Proof.
  intros Hin He. induction docs as [|d docs IH]; [inversion Hin|].
  cbn [search]. apply elem_of_cons in Hin as [<-|Hin].
  - rewrite He. cbn [bind]. eauto.
  - destruct (cond d); cbn [bind]; [|eauto].
    destruct (IH Hin) as (e' & ->). cbn [bind]. eauto.
Qed.

Lemma filter_all {A} (P : A -> Prop) `{forall x, Decision (P x)} (l : list A) :
  Forall P l -> filter P l = l.
Proof.
  induction 1 as [|x l Hx _ IH]; [reflexivity|].
  rewrite filter_cons, decide_True by exact Hx. now rewrite IH.
Qed.

Lemma query_by_rating_exact_aux (t : tables) lo hi category (docs : list document) :
  select_table t category = Ok docs -> numeric_ratings docs ->
  query_by_rating t lo hi category = filter (fun d => rating_between lo hi d = true) docs.
Proof.
  intros Hsel Hn. unfold query_by_rating. rewrite Hsel. cbn [bind].
  now rewrite search_numeric.
Qed.

(** X13. On a table whose ratings are all numbers, [query_by_rating]
    returns exactly the documents whose rating [r] satisfies
    [min_rating <= r <= max_rating], in the order of the table; a
    document without a rating is not returned. *)
Theorem query_by_rating_exact (t : tables) lo hi category (docs : list document) :
  select_table t category = Ok docs -> numeric_ratings docs ->
  query_by_rating t lo hi category = filter (fun d => rating_between lo hi d = true) docs.
Proof. apply query_by_rating_exact_aux. Qed.

Lemma query_by_rating_exact_witness :
  query_by_rating loaded f4_5 f5 (Some "Books")
  = filter (fun d => rating_between f4_5 f5 d = true)
      [stored "A" "P1" (VFloat f5) "great"; stored "B" "P1" (VFloat f4) "good"].
Proof.
  apply query_by_rating_exact; [vm_refl|].
  intros doc v Hd Hv.
  repeat (apply elem_of_cons in Hd as [->|Hd];
          [assert (E : v = VFloat f5 \/ v = VFloat f4)
             by (vm_compute in Hv; injection Hv as <-; auto);
           destruct E as [-> | ->]; now eexists|]).
  inversion Hd.
Defined.

(** X14. One document whose rating is there but is not a number (a
    string, a list, a dict, [None]) makes [query_by_rating] return the
    empty list, whatever the bounds and the other documents: the
    [TypeError] of the comparison is caught. *)
Theorem query_by_rating_swallows_type_error
    (t : tables) lo hi category (docs : list document) (doc : document) v :
  select_table t category = Ok docs ->
  doc ∈ docs -> doc !! "overall" = Some v -> as_num v = None ->
  query_by_rating t lo hi category = [].
Proof.
  intros Hsel Hin Hv Hn. unfold query_by_rating. rewrite Hsel. cbn [bind].
  destruct (search_raises (query_condition lo hi) docs doc TypeError Hin) as (e' & ->);
    [|reflexivity].
  unfold query_condition, float_le_val. now rewrite Hv, Hn.
Qed.

Lemma query_by_rating_swallows_type_error_witness :
  query_by_rating garbled f1 f5 None = [].
Proof.
  apply (query_by_rating_swallows_type_error garbled f1 f5 None
           [stored "A" "P1" (VStr "abc") "great"]
           (stored "A" "P1" (VStr "abc") "great") (VStr "abc"));
    first [vm_refl | left].
Defined.

Section WithBuiltins.
Context `{Builtins}.

Lemma insert_reviews_general e data (t : tables) reviews :
  data <> [] -> t !! "reviews" = Some reviews -> write e 0 = Written ->
  insert_reviews e data None t
  = (<["reviews" := (reviews ++ imap (process e) data)%list]> t, true).
Proof.
  intros Hd Hrv W0.
  destruct (insert_reviews_case e data None t)
    as [| | | | reviews' ? Hrv' W0' _ | reviews' c' old ? Hrv' W0' G']; try congruence.
  discriminate G'.
Qed.

Lemma cleaned_batch_rating (rs ds : list (gmap string pyval)) d :
  clean_batch rs = Ok ds -> d ∈ ds ->
  exists f, d !! "overall" = Some (VFloat f) /\ fleb f1 f = true /\ fleb f f5 = true.
Proof.
  intros E Hd. destruct (clean_batch_inv rs ds E d Hd) as (r & _ & Hr & _).
  apply clean_review_data_inv in Hr as (rid & name & ov & ut & _ & _ & Hov & _ & ->).
  apply clean_overall_range in Hov as (f & -> & Hlo & Hhi).
  exists f. split; [apply assemble_overall|easy].
Qed.

End WithBuiltins.

(** X15. From the cleaner to the query: when a cleaned batch is
    inserted into a store whose 'reviews' table is empty and the write
    goes through, [query_by_rating(1.0, 5.0)] returns the whole batch,
    as it was written. *)
Theorem cleaned_batch_is_found `{Builtins}
    (rs ds : list (gmap string pyval)) e (t : tables) :
  clean_batch rs = Ok ds -> ds <> [] ->
  t !! "reviews" = Some [] -> write e 0 = Written ->
  query_by_rating (fst (insert_reviews e ds None t)) f1 f5 None = imap (process e) ds.
Proof.
  intros Hclean Hne Hrv W0.
  rewrite (insert_reviews_general e ds t [] Hne Hrv W0). cbn [fst app].
  assert (Hsel : select_table (<["reviews" := imap (process e) ds]> t) None
                 = Ok (imap (process e) ds)).
  { unfold select_table. cbn [given]. now rewrite lookup_insert_eq. }
  assert (Hall : forall d, d ∈ imap (process e) ds ->
            exists f, d !! "overall" = Some (VFloat f) /\
                      fleb f1 f = true /\ fleb f f5 = true).
  { intros d Hd. apply elem_of_lookup_imap in Hd as (i & record & -> & Hi).
    destruct (cleaned_batch_rating rs ds record Hclean) as (f & Hf & Hlo & Hhi).
    { apply list_elem_of_lookup. eauto. }
    exists f. unfold process. now rewrite !lookup_insert_ne by discriminate. }
  rewrite (query_by_rating_exact_aux _ f1 f5 None _ Hsel).
  - apply filter_all. apply Forall_forall. intros d Hd.
    destruct (Hall d Hd) as (f & Hf & Hlo & Hhi).
    unfold rating_between. rewrite Hf. cbn [as_num].
    now rewrite !num_leb_float, Hlo, Hhi.
  - intros d v Hd Hv. destruct (Hall d Hd) as (f & Hf & _).
    rewrite Hf in Hv. injection Hv as <-. now eexists.
Qed.

Lemma cleaned_batch_is_found_witness :
  query_by_rating
    (fst (insert_reviews (H := Reference.builtins) calm [Samples.cleaned (VFloat f5)] None
            init_tables)) f1 f5 None
  = imap (process (H := Reference.builtins) calm) [Samples.cleaned (VFloat f5)].
Proof.
  apply (@cleaned_batch_is_found Reference.builtins [Samples.raw (VFloat f5)]);
    first [vm_refl | discriminate].
Defined.

End QueryExtra.

(** ** Properties of [get_basic_stats] *)

Module StatsExtra.
Import Notions NoSQL Loader PyFacts InsertFacts StoreSamples StoreExtra.

Lemma category_sum_insert_other (t : tables) name docs :
  name ∉ category_tables -> category_sum (<[name := docs]> t) = category_sum t.
Proof.
  intros Hn. unfold category_sum. f_equal. apply list_fmap_ext.
  intros _ n Hin%list_elem_of_lookup_2. unfold table_size.
  rewrite lookup_insert_ne; [reflexivity|]. intros ->. contradiction.
Qed.

Lemma sum_list_bump (f g : string -> nat) (names : list string) name k :
  NoDup names -> name ∈ names -> g name = (f name + k)%nat ->
  (forall n, n <> name -> g n = f n) ->
  sum_list (g <$> names) = (sum_list (f <$> names) + k)%nat.
Proof.
  intros Hnd Hin Hg Hother.
  induction names as [|n names IH]; [inversion Hin|].
  apply NoDup_cons in Hnd as [Hn Hnd]. cbn [fmap list_fmap sum_list_with].
  apply elem_of_cons in Hin as [Heq|Hin'].
  - subst n. rewrite Hg.
    assert (E : g <$> names = f <$> names).
    { apply list_fmap_ext. intros _ m Hm%list_elem_of_lookup_2.
      apply Hother. intros ->. contradiction. }
    change (list_fmap _ _ g names) with (g <$> names).
    change (list_fmap _ _ f names) with (f <$> names).
    rewrite E. unfold id. lia.
  - change (list_fmap _ _ g names) with (g <$> names).
    change (list_fmap _ _ f names) with (f <$> names).
    rewrite (IH Hnd Hin'), Hother by (intros ->; contradiction). unfold id. lia.
Qed.

Lemma category_tables_NoDup : NoDup category_tables.
Proof. apply (bool_decide_unpack _). vm_compute. exact I. Qed.

Lemma category_sum_insert_in (t : tables) name old extra :
  name ∈ category_tables -> t !! name = Some old ->
  category_sum (<[name := (old ++ extra)%list]> t) = (category_sum t + length extra)%nat.
Proof.
  intros Hin Hold. unfold category_sum.
  apply (sum_list_bump _ _ _ name (length extra));
    [apply category_tables_NoDup|exact Hin| |].
  - unfold table_size. rewrite lookup_insert_eq, Hold. cbn [default from_option id].
    now rewrite length_app.
  - intros n Hn. unfold table_size. now rewrite lookup_insert_ne by congruence.
Qed.

Lemma reviews_not_category : "reviews" ∉ category_tables.
Proof.
  unfold category_tables. intros Hin.
  repeat (apply elem_of_cons in Hin as [Hin|Hin]; [discriminate Hin|]). inversion Hin.
Qed.

Lemma counted_reviews_grow (t : tables) old extra :
  counted t -> t !! "reviews" = Some old ->
  counted (<["reviews" := (old ++ extra)%list]> t) /\
  table_size (<["reviews" := (old ++ extra)%list]> t) "reviews"
  = (table_size t "reviews" + length extra)%nat.
Proof.
  unfold counted. intros Hc Hold.
  rewrite category_sum_insert_other by apply reviews_not_category.
  unfold table_size in *. rewrite lookup_insert_eq. rewrite Hold in *.
  cbn [default from_option id] in *. rewrite length_app. lia.
Qed.

Section WithBuiltins.
Context `{Builtins}.

Lemma insert_reviews_counted e data category (t : tables) :
  counted t -> counted (fst (insert_reviews e data category t)).
Proof.
  intros Ht. destruct (insert_reviews_case e data category t)
    as [| | | reviews ? Hrv | reviews ? Hrv | reviews c old ? Hrv W0 G Hold]; cbn [fst];
    try assumption; try now apply counted_reviews_grow.
  set (pd := imap (process e) data) in *.
  destruct (counted_reviews_grow t reviews pd Ht Hrv) as [Ht1 Hsize].
  assert (Hgrow : counted (<[_get_table_name c := (old ++ pd)%list]>
                             (<["reviews" := (reviews ++ pd)%list]> t))).
  { destruct (get_table_name_cases c) as [[_ E]|Hc].
    - rewrite E in *. now apply counted_reviews_grow.
    - pose proof (category_partition_not_reviews _ Hc) as Hne.
      apply category_partition_cases in Hc. unfold counted.
      rewrite (category_sum_insert_in _ _ old pd Hc Hold).
      assert (E : table_size (<[_get_table_name c := (old ++ pd)%list]>
                                (<["reviews" := (reviews ++ pd)%list]> t)) "reviews"
                  = table_size (<["reviews" := (reviews ++ pd)%list]> t) "reviews")
        by (unfold table_size; now rewrite lookup_insert_ne by congruence).
      rewrite E, Hsize. unfold counted in Ht.
      rewrite category_sum_insert_other by apply reviews_not_category. lia. }
  now destruct (write e 1).
Qed.

Lemma run_counted calls (t : tables) : counted t -> counted (run calls t).
Proof.
  revert t; induction calls as [|c calls IH]; intros t Ht; [exact Ht|].
  cbn [run foldl]. apply IH. now apply insert_reviews_counted.
Qed.

End WithBuiltins.

(** What the loop of [get_basic_stats] leaves under a name. *)
Lemma categories_fold_lookup (t : tables) (names : list string) (acc : gmap string nat) name :
  foldl (fun cats table_name =>
           match t !! table_name with
           | Some docs => <[table_name := length docs]> cats
           | None => cats
           end) acc names !! name
  = if decide (name ∈ names)
    then match t !! name with Some docs => Some (length docs) | None => acc !! name end
    else acc !! name.
Proof.
  revert acc; induction names as [|n names IH]; intros acc; [reflexivity|].
  cbn [foldl]. rewrite IH.
  destruct (decide (name ∈ names)) as [Hin|Hin].
  - rewrite decide_True by now right.
    destruct (t !! name) eqn:E; [reflexivity|].
    destruct (t !! n) eqn:En; [|reflexivity].
    rewrite lookup_insert_ne; [reflexivity|]. intros ->. congruence.
  - destruct (decide (name = n)) as [->|Hne].
    + rewrite decide_True by now left.
      destruct (t !! n); [apply lookup_insert_eq|reflexivity].
    + rewrite decide_False by (intros [?|?]%elem_of_cons; contradiction).
      destruct (t !! n); [now rewrite lookup_insert_ne by congruence|reflexivity].
Qed.

Lemma get_basic_stats_totals (db : db_file) size (t : tables) reviews :
  size_mb db = Ok size -> t !! "reviews" = Some reviews ->
  exists stats,
    get_basic_stats db t = Some stats /\
    total_reviews stats = table_size t "reviews" /\
    category_total stats = category_sum t.
Proof.
  intros Hsize Hrv. unfold get_basic_stats. rewrite Hrv, Hsize.
  eexists. split; [reflexivity|]. split.
  - unfold table_size. now rewrite Hrv.
  - unfold category_total, category_sum. cbn [categories]. f_equal.
    apply list_fmap_ext. intros _ n Hin%list_elem_of_lookup_2.
    rewrite categories_fold_lookup, decide_True by exact Hin.
    unfold table_size. destruct (t !! n); reflexivity.
Qed.

(** X16. After any sequence of inserts into a store set up by
    [_init_tinydb], [get_basic_stats] (when the size of the file can
    be read) reports a number of reviews that is at least the sum of
    the counts it reports for the six categories. *)
Theorem basic_stats_categories_within_total `{Builtins} (db : db_file) size calls :
  size_mb db = Ok size ->
  exists stats,
    get_basic_stats db (run calls init_tables) = Some stats /\
    (category_total stats <= total_reviews stats)%nat.
Proof.
  intros Hsize.
  destruct (run_extends calls init_tables) as [Hext _].
  destruct (Hext "reviews" [] eq_refl) as (reviews & Hrv). cbn [app] in Hrv.
  destruct (get_basic_stats_totals db size _ reviews Hsize Hrv) as (stats & Hs & Ht & Hc).
  exists stats. split; [exact Hs|]. rewrite Ht, Hc.
  apply run_counted. unfold counted. vm_compute. lia.
Qed.

Lemma basic_stats_categories_within_total_witness :
  exists stats,
    get_basic_stats {| db_type := "tinydb"; db_path := "data/amazon_reviews.json";
                       size_mb := Ok (VInt 0) |}
      (run (H := Reference.builtins)
         [{| call_env := calm; call_data := [a_p1; b_p1]; call_category := Some "Books" |};
          {| call_env := broken; call_data := [a_p1]; call_category := Some "Tools" |}]
         init_tables) = Some stats /\
    (category_total stats <= total_reviews stats)%nat.
Proof.
  apply (@basic_stats_categories_within_total Reference.builtins _ (VInt 0)). reflexivity.
Defined.

End StatsExtra.

(** ** Properties of [load_all_categories] *)

Module LoaderExtra.
Import Notions LoadSamples NoSQL Loader PyFacts InsertFacts StoreSamples StoreExtra
  StatsExtra.

Lemma load_categories_known :
  Forall (fun c : string * string =>
            mapping !! c.1 = Some c.2 /\ c.2 ∈ table_names /\ c.2 <> "reviews" /\
            c.2 <> "metadata")
    load_categories.
Proof. apply (bool_decide_unpack _). vm_compute. exact I. Qed.

Lemma load_categories_NoDup : NoDup (load_categories.*2).
Proof. apply (bool_decide_unpack _). vm_compute. exact I. Qed.

Lemma complete_init : complete init_tables.
Proof.
  assert (E : Forall (fun name => is_Some (init_tables !! name)) table_names)
    by (apply (bool_decide_unpack _); vm_compute; exact I).
  intros name Hn. now apply (proj1 (Forall_forall _ _) E).
Qed.

Lemma extends_complete (t t' : tables) : extends t t' -> complete t -> complete t'.
Proof.
  intros [_ Hdom] Hc name Hn. apply elem_of_dom. rewrite Hdom. apply elem_of_dom.
  now apply Hc.
Qed.

Lemma extends_same_size (t t' : tables) name old :
  extends t t' -> t !! name = Some old -> table_size t' name = table_size t name ->
  t' !! name = Some old.
Proof.
  intros [Hext _] Hold. destruct (Hext name old Hold) as (added & Ha).
  unfold table_size. rewrite Ha, Hold. cbn [default from_option id].
  rewrite length_app. intros E. assert (length added = 0%nat) as ->%nil_length_inv by lia.
  now rewrite app_nil_r.
Qed.

Lemma grown_reviews e cats :
  grown e cats "reviews"
  = sum_list ((fun c : string * string => file_records (file e c.1)) <$> cats).
Proof.
  induction cats as [|c cats IH]; [reflexivity|].
  unfold grown in *. cbn [fmap list_fmap sum_list_with].
  rewrite bool_decide_eq_true_2 by (now left). now f_equal.
Qed.

Lemma grown_other e cats n :
  n <> "reviews" -> n ∉ cats.*2 -> grown e cats n = 0%nat.
Proof.
  intros Hr. unfold grown. induction cats as [|c cats IH]; [reflexivity|].
  cbn [fmap list_fmap sum_list_with]. intros Hn%not_elem_of_cons. destruct Hn as [Hc Hn].
  rewrite bool_decide_eq_false_2 by (intros [?|?]; congruence).
  unfold id at 1. cbn [Nat.add]. now apply IH.
Qed.

Lemma grown_category e cats c name :
  NoDup cats.*2 -> (c, name) ∈ cats -> name <> "reviews" ->
  grown e cats name = file_records (file e c).
Proof.
  intros Hnd Hin Hr. induction cats as [|c0 cats IH]; [inversion Hin|].
  cbn [fmap list_fmap] in Hnd. apply NoDup_cons in Hnd as [Hc0 Hnd].
  change (grown e (c0 :: cats) name)
    with ((if bool_decide (name = "reviews" \/ name = c0.2)
           then file_records (file e c0.1) else 0%nat) + grown e cats name)%nat.
  apply elem_of_cons in Hin as [Heq|Hin'].
  - subst c0. cbn [fst snd] in *.
    rewrite bool_decide_eq_true_2 by (now right).
    rewrite grown_other by assumption. lia.
  - assert (Hne : name <> c0.2).
    { intros ->. apply Hc0. apply list_elem_of_fmap. now exists (c, c0.2). }
    rewrite bool_decide_eq_false_2 by (intros [?|?]; congruence).
    now rewrite IH.
Qed.

Section WithBuiltins.
Context `{Builtins}.

Lemma load_step_written e (t : tables) k c name :
  mapping !! c = Some name -> name ∈ table_names -> name <> "reviews" ->
  complete t -> all_written e ->
  exists t',
    load_step e (t, k) (c, name) = (t', k + Z.of_nat (file_records (file e c))) /\
    extends t t' /\
    forall n, table_size t' n
              = (table_size t n + (if bool_decide (n = "reviews" \/ n = name)
                                   then file_records (file e c) else 0))%nat.
Proof.
  intros Hmap Hname Hne Hc Hw. unfold load_step. cbn [fst].
  assert (Hsame : exists t',
            (t, k) = (t', k + Z.of_nat 0) /\ extends t t' /\
            forall n, table_size t' n
                      = (table_size t n + (if bool_decide (n = "reviews" \/ n = name)
                                           then 0 else 0))%nat).
  { exists t. rewrite Z.add_0_r. split; [reflexivity|]. split; [apply extends_refl|].
    intros n. destruct (bool_decide _); lia. }
  destruct (file e c) as [| |[|d data]]; cbn [file_records length]; try exact Hsame.
  destruct (Hc "reviews") as [reviews Hrv]; [now left|].
  destruct (Hc name Hname) as [old Hold].
  rewrite (insert_reviews_known (insert_env e c) (d :: data) c name t reviews old)
    by first [assumption | discriminate | apply Hw].
  set (pd := imap (process (insert_env e c)) (d :: data)).
  assert (Hlen : length pd = S (length data)) by (subst pd; now rewrite length_imap).
  eexists. split; [reflexivity|]. split.
  - eapply extends_trans; [apply (extends_insert t "reviews" reviews pd Hrv)|].
    apply extends_insert. now rewrite lookup_insert_ne by congruence.
  - intros n. unfold table_size.
    destruct (decide (n = name)) as [->|Hn].
    + rewrite lookup_insert_eq, Hold, bool_decide_eq_true_2 by (now right).
      cbn [default from_option id]. rewrite length_app. lia.
    + rewrite lookup_insert_ne by congruence.
      destruct (decide (n = "reviews")) as [->|Hn'].
      * rewrite lookup_insert_eq, Hrv, bool_decide_eq_true_2 by (now left).
        cbn [default from_option id]. rewrite length_app. lia.
      * rewrite lookup_insert_ne by congruence.
        rewrite bool_decide_eq_false_2 by (intros [?|?]; congruence). lia.
Qed.

Lemma load_fold_written e cats :
  forall (t : tables) k,
    Forall (fun c : string * string =>
              mapping !! c.1 = Some c.2 /\ c.2 ∈ table_names /\ c.2 <> "reviews" /\
              c.2 <> "metadata") cats ->
    complete t -> all_written e ->
    exists t',
      foldl (load_step e) (t, k) cats = (t', k + Z.of_nat (grown e cats "reviews")) /\
      extends t t' /\
      forall n, table_size t' n = (table_size t n + grown e cats n)%nat.
Proof.
  induction cats as [|[c name] cats IH]; intros t k Hk Hc Hw.
  - exists t. cbn [foldl]. unfold grown. cbn. rewrite Z.add_0_r.
    split; [reflexivity|]. split; [apply extends_refl|]. intros n. lia.
  - apply Forall_cons in Hk as [(Hmap & Hname & Hne & _) Hk]. cbn [fst snd] in *.
    destruct (load_step_written e t k c name Hmap Hname Hne Hc Hw)
      as (t1 & E1 & X1 & S1).
    destruct (IH t1 (k + Z.of_nat (file_records (file e c))) Hk
                (extends_complete _ _ X1 Hc) Hw) as (t2 & E2 & X2 & S2).
    exists t2. cbn [foldl]. rewrite E1, E2. split; [|split].
    + f_equal.
      change (grown e ((c, name) :: cats) "reviews")
        with ((if bool_decide ("reviews" = "reviews" \/ "reviews" = name)
               then file_records (file e c) else 0%nat) + grown e cats "reviews")%nat.
      rewrite bool_decide_eq_true_2 by (now left). lia.
    + exact (extends_trans _ _ _ X1 X2).
    + intros n. rewrite S2, S1.
      change (grown e ((c, name) :: cats) n)
        with ((if bool_decide (n = "reviews" \/ n = name)
               then file_records (file e c) else 0%nat) + grown e cats n)%nat.
      lia.
Qed.

Lemma load_step_nothing e (acc : tables * Z) (c : string * string) :
  file_records (file e c.1) = 0%nat -> load_step e acc c = acc.
Proof.
  destruct acc as [t k]. unfold load_step.
  destruct (file e c.1) as [| |[|d data]]; cbn [file_records length]; try reflexivity.
  discriminate.
Qed.

Lemma load_fold_nothing e cats (acc : tables * Z) :
  sum_list ((fun c : string * string => file_records (file e c.1)) <$> cats) = 0%nat ->
  foldl (load_step e) acc cats = acc.
Proof.
  induction cats as [|c cats IH]; [reflexivity|].
  cbn [fmap list_fmap sum_list_with foldl]. unfold id at 1. intros E.
  rewrite load_step_nothing by lia. apply IH. lia.
Qed.

(** What holds of the store before the call and is kept by every
    insert and by the metadata write, holds after the call. *)
Section Invariant.
Variable P : tables -> Prop.
Hypothesis insert_keeps : forall e data category t,
  P t -> P (fst (insert_reviews e data category t)).
Hypothesis metadata_keeps : forall (t : tables) old added,
  t !! "metadata" = Some old -> P t -> P (<["metadata" := (old ++ added)%list]> t).

Lemma load_step_keeps e (acc : tables * Z) c : P acc.1 -> P (load_step e acc c).1.
Proof.
  destruct acc as [t k]. unfold load_step. cbn [fst]. intros Ht.
  destruct (file e c.1) as [| |data]; try exact Ht.
  pose proof (insert_keeps (insert_env e c.1) data (Some c.1) t Ht) as Hk.
  now destruct (insert_reviews _ _ _ _).
Qed.

Lemma load_fold_keeps e cats (acc : tables * Z) :
  P acc.1 -> P (foldl (load_step e) acc cats).1.
Proof.
  revert acc; induction cats as [|c cats IH]; intros acc Ht; [exact Ht|].
  cbn [foldl]. now apply IH, load_step_keeps.
Qed.

Lemma load_all_categories_keeps db e (t : tables) :
  P t -> P (load_all_categories db e t).1.
Proof.
  intros Ht. unfold load_all_categories.
  pose proof (load_fold_keeps e load_categories (t, 0) Ht) as Hk.
  destruct (foldl _ _ _) as [t1 k]. cbn [fst] in Hk.
  unfold _save_load_metadata, insert_multiple.
  destruct (t1 !! "metadata") as [old|] eqn:Hold; [|exact Hk].
  destruct (metadata_write e); cbn [fst]; try exact Hk; now apply metadata_keeps.
Qed.

End Invariant.

Lemma counted_metadata (t : tables) old added :
  t !! "metadata" = Some old -> counted t ->
  counted (<["metadata" := (old ++ added)%list]> t).
Proof.
  intros _. unfold counted. rewrite category_sum_insert_other.
  - unfold table_size. now rewrite lookup_insert_ne by discriminate.
  - unfold category_tables. intros Hin.
    repeat (apply elem_of_cons in Hin as [Hin|Hin]; [discriminate Hin|]). inversion Hin.
Qed.

Lemma duplicated_metadata (t : tables) old added :
  t !! "metadata" = Some old -> duplicated t ->
  duplicated (<["metadata" := (old ++ added)%list]> t).
Proof.
  intros _ Ht name docs d Hname Hdocs Hd.
  assert (Hne : name <> "metadata").
  { intros ->. apply category_partition_cases in Hname.
    repeat (apply elem_of_cons in Hname as [Hname|Hname]; [discriminate Hname|]).
    inversion Hname. }
  rewrite lookup_insert_ne in Hdocs by congruence.
  rewrite lookup_insert_ne by discriminate. eauto.
Qed.

End WithBuiltins.

(** X17. When the eight tables are there and every write goes through,
    [load_all_categories] adds to 'reviews' as many documents as the
    six files offer together, adds to the table of each category as
    many as its file offers (none for a file that is missing or cannot
    be used), returns whether that total is positive, and appends to
    'metadata' one record whose [total_records] is that total and whose
    [categories_loaded] is 6, however many files were there. *)
Theorem load_all_categories_accounting `{Builtins}
    (db : db_file) (e : load_env) (t : tables) :
  complete t -> all_written e -> metadata_write e = Written ->
  exists (t' : tables) (meta : list document) (m : document),
    load_all_categories db e t = (t', Ok (0 <? Z.of_nat (offered e))) /\
    table_size t' "reviews" = (table_size t "reviews" + offered e)%nat /\
    Forall (fun c : string * string =>
              table_size t' c.2 = (table_size t c.2 + file_records (file e c.1))%nat)
      load_categories /\
    t !! "metadata" = Some meta /\
    t' !! "metadata" = Some (meta ++ [m])%list /\
    m !! "total_records" = Some (VInt (Z.of_nat (offered e))) /\
    m !! "categories_loaded" = Some (VInt 6).
Proof.
  intros Hc Hw Hm.
  destruct (load_fold_written e load_categories t 0 load_categories_known Hc Hw)
    as (t1 & E1 & X1 & S1).
  rewrite grown_reviews in E1. fold (offered e) in E1. rewrite Z.add_0_l in E1.
  destruct (Hc "metadata") as [meta Hmeta].
  { unfold table_names. rewrite !elem_of_cons. tauto. }
  assert (Hmeta1 : t1 !! "metadata" = Some meta).
  { apply (extends_same_size t t1 _ _ X1 Hmeta). rewrite S1, grown_other; [lia|discriminate|].
    intros Hin. apply list_elem_of_fmap in Hin as (c & Hn & Hin).
    pose proof (proj1 (Forall_forall _ _) load_categories_known c Hin) as (_ & _ & _ & Hx).
    congruence. }
  unfold load_all_categories. rewrite E1.
  unfold _save_load_metadata, insert_multiple. rewrite Hmeta1, Hm.
  eexists _, meta, _. split; [reflexivity|].
  assert (Hother : forall (docs : list document) n, n <> "metadata" ->
            table_size (<["metadata" := docs]> t1) n = table_size t1 n).
  { intros docs n Hn. unfold table_size. now rewrite lookup_insert_ne by congruence. }
  split; [|split; [|split; [exact Hmeta|split; [apply lookup_insert_eq|split]]]].
  - rewrite Hother by discriminate. rewrite S1, grown_reviews. reflexivity.
  - apply Forall_forall. intros [c name] Hin.
    pose proof (proj1 (Forall_forall _ _) load_categories_known _ Hin)
      as (_ & _ & Hr & Hx).
    cbn [fst snd] in *. rewrite Hother by exact Hx.
    rewrite S1. f_equal. now apply grown_category; [apply load_categories_NoDup| |].
  - now rewrite !lookup_insert_ne, lookup_insert_eq by discriminate.
  - now rewrite !lookup_insert_ne, lookup_insert_eq by discriminate.
Qed.

Lemma load_all_categories_accounting_witness :
  exists (t' : tables) (meta : list document) (m : document),
    load_all_categories (H := Reference.builtins) sample_db books_only init_tables
    = (t', Ok (0 <? Z.of_nat (offered books_only))) /\
    table_size t' "reviews" = (table_size init_tables "reviews" + offered books_only)%nat /\
    Forall (fun c : string * string =>
              table_size t' c.2
              = (table_size init_tables c.2 + file_records (file books_only c.1))%nat)
      load_categories /\
    init_tables !! "metadata" = Some meta /\
    t' !! "metadata" = Some (meta ++ [m])%list /\
    m !! "total_records" = Some (VInt (Z.of_nat (offered books_only))) /\
    m !! "categories_loaded" = Some (VInt 6).
Proof.
  apply (@load_all_categories_accounting Reference.builtins sample_db books_only init_tables).
  - apply complete_init.
  - intros c k. reflexivity.
  - reflexivity.
Defined.

(** X18. When the files offer nothing (each is missing, cannot be used
    or holds an empty list), [load_all_categories] leaves every review
    table as it is, whatever the writes would do, and still records
    the load: with the metadata write going through it returns [False]
    and 'metadata' has one more record, with [total_records] 0 and
    [categories_loaded] 6; with the metadata write failing the call
    raises. *)
Theorem load_all_categories_nothing_offered `{Builtins}
    (db : db_file) (e : load_env) (t : tables) (meta : list document) :
  offered e = 0%nat -> t !! "metadata" = Some meta ->
  exists m : document,
    m !! "total_records" = Some (VInt 0) /\
    m !! "categories_loaded" = Some (VInt 6) /\
    load_all_categories db e t
    = match metadata_write e with
      | Written => (<["metadata" := (meta ++ [m])%list]> t, Ok false)
      | FlushFailed => (<["metadata" := (meta ++ [m])%list]> t, Raise IOError)
      | ReadFailed => (t, Raise IOError)
      end.
Proof.
  intros Hoff Hmeta. unfold load_all_categories.
  rewrite (load_fold_nothing e load_categories (t, 0) Hoff).
  unfold _save_load_metadata, insert_multiple. rewrite Hmeta.
  eexists. split; [|split].
  3: destruct (metadata_write e); reflexivity.
  - now rewrite !lookup_insert_ne, lookup_insert_eq by discriminate.
  - now rewrite !lookup_insert_ne, lookup_insert_eq by discriminate.
Qed.

Lemma load_all_categories_nothing_offered_witness :
  exists m : document,
    m !! "total_records" = Some (VInt 0) /\
    m !! "categories_loaded" = Some (VInt 6) /\
    load_all_categories (H := Reference.builtins) sample_db nothing_there init_tables
    = (<["metadata" := ([] ++ [m])%list]> init_tables, Raise IOError).
Proof.
  apply (@load_all_categories_nothing_offered Reference.builtins sample_db nothing_there
           init_tables []); reflexivity.
Defined.

(** X19. Whatever the files hold and whichever writes fail,
    [load_all_categories] only appends to the tables and creates or
    removes none; it keeps every document of a category table in
    'reviews', and the category tables together no larger than
    'reviews'. *)
Theorem load_all_categories_only_appends `{Builtins}
    (db : db_file) (e : load_env) (t : tables) :
  extends t (load_all_categories db e t).1 /\
  (duplicated t -> duplicated (load_all_categories db e t).1) /\
  (counted t -> counted (load_all_categories db e t).1).
Proof.
  split; [|split].
  - apply (load_all_categories_keeps (extends t)); [| |apply extends_refl].
    + intros e' data category t1 Ht1.
      exact (extends_trans _ _ _ Ht1 (insert_reviews_extends e' data category t1)).
    + intros t1 old added Hold Ht1.
      exact (extends_trans _ _ _ Ht1 (extends_insert t1 "metadata" old added Hold)).
  - apply load_all_categories_keeps.
    + intros e' data category t1. apply InsertSpec.insert_reviews_duplicated.
    + apply duplicated_metadata.
  - apply load_all_categories_keeps.
    + intros e' data category t1. apply insert_reviews_counted.
    + apply counted_metadata.
Qed.

Lemma load_all_categories_only_appends_witness :
  extends init_tables
    (load_all_categories (H := Reference.builtins) sample_db books_only init_tables).1 /\
  duplicated
    (load_all_categories (H := Reference.builtins) sample_db books_only init_tables).1 /\
  counted
    (load_all_categories (H := Reference.builtins) sample_db books_only init_tables).1.
Proof.
  destruct (@load_all_categories_only_appends Reference.builtins sample_db books_only
              init_tables) as (Hx & Hd & Hc).
  split; [exact Hx|]. split; [apply Hd, duplicated_init|].
  apply Hc. unfold counted. vm_compute. lia.
Defined.

End LoaderExtra.

(** ** The transformer and the schema *)

Module PipelineExtra.
Import Notions Cleaner NoSQL Transformer Schema PyFacts CleanerFacts StoreSamples.

Lemma unknown_category c :
  c ∉ known_categories -> mapping !! c = None /\ category_mapping !! c = None.
Proof.
  intros Hc. split; apply not_elem_of_list_to_map_1; exact Hc.
Qed.

Lemma required_fields_eq :
  Schema.required_fields = ["reviewerID"; "asin"; "overall"; "original_category"].
Proof. vm_refl. Qed.

Lemma present (d : document) field v :
  d !! field = Some v -> negb (bool_decide (is_Some (d !! field))) = false.
Proof. intros ->. now rewrite bool_decide_eq_true_2 by eauto. Qed.

(** X20. The transformer and the store know the same categories: a
    category gets the group 'Other', and the analysis type 'General',
    exactly when [_get_table_name] sends it to 'reviews', that is when
    it is none of the six known categories. *)
Theorem known_categories_agree (c : string) :
  (category_group c = "Other" <-> _get_table_name c = "reviews") /\
  (analysis_type (category_group c) = "General" <-> _get_table_name c = "reviews") /\
  (_get_table_name c = "reviews" <-> c ∉ known_categories).
Proof.
  destruct (decide (c ∈ known_categories)) as [Hin|Hout].
  - assert (E : category_group c <> "Other" /\
                analysis_type (category_group c) <> "General" /\
                _get_table_name c <> "reviews").
    { unfold known_categories in Hin. rewrite !elem_of_cons, elem_of_nil in Hin.
      destruct Hin as [->|[->|[->|[->|[->|[->|[]]]]]]];
        (split; [|split]); intros E; vm_compute in E; discriminate E. }
    destruct E as (E1 & E2 & E3). repeat split; intros; contradiction.
  - destruct (unknown_category c Hout) as [E1 E2].
    assert (G : category_group c = "Other") by (unfold category_group; now rewrite E2).
    assert (T : _get_table_name c = "reviews") by (unfold _get_table_name; now rewrite E1).
    rewrite G, T. repeat split; intros; first [reflexivity | assumption].
Qed.

(** X21. A record that [clean_review_data] returns does not fit the
    review schema as it is (it has no [original_category]); once
    [enrich_review_data] has been applied to it, under any category
    and at any time, [validate_review_schema] accepts it. *)
Theorem cleaned_then_enriched_fits_schema `{Builtins}
    (r d : gmap string pyval) (ts : float) (c : string) :
  clean_review_data r = Ok d ->
  validate_review_schema d = false /\
  validate_review_schema (enrich_review_data ts d c) = true.
Proof.
  intros E.
  apply clean_review_data_inv in E as (rid & name & ov & ut & _ & _ & Hov & _ & ->).
  apply clean_overall_range in Hov as (f & -> & Hlo & Hhi).
  match goal with |- context [assemble ?a ?b ?c ?d ?e ?f ?g ?h ?i] =>
    set (cleaned := assemble a b c d e f g h i)
  end.
  assert (Hrid : cleaned !! "reviewerID" = Some rid) by apply assemble_reviewerID.
  assert (Hasin : is_Some (cleaned !! "asin")) by (eexists; apply assemble_asin).
  assert (Hovl : cleaned !! "overall" = Some (VFloat f)) by apply assemble_overall.
  assert (Hnone : cleaned !! "original_category" = None).
  { subst cleaned. unfold assemble. now rewrite !lookup_insert_ne by discriminate. }
  destruct Hasin as [asin Hasin]. clearbody cleaned. split.
  - unfold validate_review_schema. rewrite required_fields_eq. cbn [existsb].
    rewrite (present _ _ _ Hrid), (present _ _ _ Hasin), (present _ _ _ Hovl), Hnone.
    now rewrite bool_decide_eq_false_2 by (intros [? ?]; discriminate).
  - unfold validate_review_schema, enrich_review_data.
    rewrite required_fields_eq. cbn [existsb].
    rewrite !lookup_insert_ne by discriminate.
    rewrite (present _ _ _ Hrid), (present _ _ _ Hasin), (present _ _ _ Hovl).
    rewrite lookup_insert_eq, bool_decide_eq_true_2 by eauto.
    cbn [negb orb]. rewrite Hovl. cbn [as_num].
    now rewrite !num_leb_float, Hlo, Hhi.
Qed.

Lemma cleaned_then_enriched_fits_schema_witness :
  validate_review_schema (Samples.cleaned (VFloat f5)) = false /\
  validate_review_schema (enrich_review_data f0 (Samples.cleaned (VFloat f5)) "Books") = true.
Proof.
  apply (@cleaned_then_enriched_fits_schema Reference.builtins (Samples.raw (VFloat f5))).
  vm_refl.
Defined.

End PipelineExtra.

(** ** More properties of [aggregate_by_category] *)

Module AggregationExtra.
Import Notions NoSQL Loader PyFacts StoreSamples QuerySamples StatsExtra.

Lemma display_names_NoDup : NoDup (category_mapping.*2).
Proof. apply (bool_decide_unpack _). vm_compute. exact I. Qed.

Lemma bump_total {A} (eqb leb : A -> A -> bool) x (dist : list (A * nat)) :
  sum_list (bump eqb leb x dist).*2 = S (sum_list dist.*2).
Proof.
  induction dist as [|[y n] dist IH]; [reflexivity|].
  cbn [bump]. destruct (eqb x y); [reflexivity|].
  destruct (leb x y); [reflexivity|].
  cbn [fmap list_fmap sum_list_with snd] in *. rewrite IH. unfold id. lia.
Qed.

Lemma value_counts_total {A} (eqb leb : A -> A -> bool) (values : list A) :
  sum_list (value_counts eqb leb values).*2 = length values.
Proof.
  unfold value_counts.
  assert (G : forall dist,
            sum_list (foldl (fun dist x => bump eqb leb x dist) dist values).*2
            = (sum_list dist.*2 + length values)%nat).
  { induction values as [|x values IH]; intros dist; cbn [foldl length]; [lia|].
    rewrite IH, bump_total. lia. }
  now rewrite G.
Qed.

Lemma distribution_counts {A} (key : A -> pyval) (dist : list (A * nat)) :
  (prod_map key id <$> dist).*2 = dist.*2.
Proof.
  induction dist as [|[x n] dist IH]; [reflexivity|].
  cbn [fmap list_fmap prod_map fst snd id] in *. now f_equal.
Qed.

Lemma distribution_keys {A} (key : A -> pyval) (dist : list (A * nat)) :
  Forall (fun entry : pyval * nat => exists x, entry.1 = key x) (prod_map key id <$> dist).
Proof.
  induction dist as [|[x n] dist IH]; [constructor|].
  cbn [fmap list_fmap]. constructor; [now exists x|exact IH].
Qed.

Lemma fold_min_least (z : Z) (zs : list Z) :
  foldl Z.min z zs ∈ z :: zs /\ forall x, x ∈ z :: zs -> foldl Z.min z zs <= x.
Proof.
  revert z; induction zs as [|y zs IH]; intros z; cbn [foldl].
  - split; [now left|]. intros x ->%list_elem_of_singleton. lia.
  - destruct (IH (Z.min z y)) as [Hin Hle]. split.
    + apply elem_of_cons in Hin as [->|Hin]; [|right; now right].
      destruct (Z.min_spec z y) as [[_ ->]|[_ ->]]; [now left|right; now left].
    + intros x Hx. assert (Hm : foldl Z.min (Z.min z y) zs <= Z.min z y)
        by (apply Hle; now left).
      apply elem_of_cons in Hx as [->|[->|Hx]%elem_of_cons]; [lia|lia|].
      apply Hle. now right.
Qed.

Lemma fold_max_greatest (z : Z) (zs : list Z) :
  foldl Z.max z zs ∈ z :: zs /\ forall x, x ∈ z :: zs -> x <= foldl Z.max z zs.
Proof.
  revert z; induction zs as [|y zs IH]; intros z; cbn [foldl].
  - split; [now left|]. intros x ->%list_elem_of_singleton. lia.
  - destruct (IH (Z.max z y)) as [Hin Hle]. split.
    + apply elem_of_cons in Hin as [->|Hin]; [|right; now right].
      destruct (Z.max_spec z y) as [[_ ->]|[_ ->]]; [right; now left|now left].
    + intros x Hx. assert (Hm : Z.max z y <= foldl Z.max (Z.max z y) zs)
        by (apply Hle; now left).
      apply elem_of_cons in Hx as [->|[->|Hx]%elem_of_cons]; [lia|lia|].
      apply Hle. now right.
Qed.

(** A column in which every record has an integer of 64 bits. *)
Lemma int_column (records : list document) :
  (forall d, d ∈ records ->
     exists z, d !! "overall" = Some (VInt z) /\ int64 z = true) ->
  exists zs,
    int_cells ((fun d : document => d !! "overall") <$> records) = Some zs /\
    existsb textual ((fun d : document => d !! "overall") <$> records) = false /\
    length zs = length records /\
    forall z, z ∈ zs <-> exists d, d ∈ records /\ d !! "overall" = Some (VInt z).
Proof.
  induction records as [|d records IH]; intros Hall.
  - exists []. repeat split; try reflexivity; [inversion 1|].
    intros (d & Hd & _). inversion Hd.
  - destruct (Hall d) as (z & Hz & Hr); [now left|].
    destruct IH as (zs & Hzs & Ht & Hlen & Hin); [intros x Hx; apply Hall; now right|].
    exists (z :: zs). cbn [fmap list_fmap int_cells existsb].
    change (list_fmap _ _ ?f records) with (f <$> records).
    rewrite Hz, Hr, Hzs, Ht. cbn [textual orb length]. repeat split; [now f_equal| |].
    + intros [->|Hx]%elem_of_cons; [exists d; split; [now left|exact Hz]|].
      apply Hin in Hx as (d' & Hd' & E). exists d'. split; [now right|exact E].
    + intros (d' & [->|Hd']%elem_of_cons & E).
      * rewrite Hz in E. injection E as ->. now left.
      * right. apply Hin. eauto.
Qed.

(** A column in which every cell is a float or null. *)
Lemma float_column (records : list document) :
  (forall d, d ∈ records ->
     is_null (d !! "overall") = true \/ exists f, d !! "overall" = Some (VFloat f)) ->
  existsb textual ((fun d : document => d !! "overall") <$> records) = false /\
  (records <> [] -> forall zs,
     int_cells ((fun d : document => d !! "overall") <$> records) = Some zs -> zs = []) /\
  exists values,
    float_cells ((fun d : document => d !! "overall") <$> records) = Some values /\
    length (omap id values) = rated records /\
    forall f, f ∈ omap id values ->
      exists d, d ∈ records /\ d !! "overall" = Some (VFloat f).
Proof.
  intros Hall. split; [|split].
  - induction records as [|d records IH]; [reflexivity|].
    cbn [fmap list_fmap existsb].
    change (list_fmap _ _ ?f records) with (f <$> records).
    rewrite IH by (intros x Hx; apply Hall; now right).
    destruct (Hall d) as [Hn|(f & ->)]; [now left| |reflexivity].
    now destruct (d !! "overall") as [[]|].
  - intros Hne zs. destruct records as [|d records]; [contradiction|].
    cbn [fmap list_fmap int_cells].
    destruct (Hall d) as [Hn|(f & ->)]; [now left| |discriminate].
    destruct (d !! "overall") as [[]|]; try discriminate.
  - induction records as [|d records IH]; [exists []; repeat split; inversion 1|].
    destruct IH as (values & Hv & Hlen & Hin); [intros x Hx; apply Hall; now right|].
    unfold rated in *. cbn [fmap list_fmap float_cells].
    change (list_fmap _ _ ?f records) with (f <$> records).
    rewrite Hv, filter_cons. destruct (Hall d) as [Hn|(f & Hf)]; [now left| |].
    + rewrite Hn. exists (None :: values). cbn [fmap option_fmap option_map].
      rewrite decide_False by discriminate.
      repeat split; [exact Hlen|].
      intros f Hf. destruct (Hin f Hf) as (d' & Hd' & E). exists d'. split; [now right|easy].
    + rewrite Hf. destruct (is_null (Some (VFloat f))) eqn:Hn.
      * exists (None :: values). cbn [fmap option_fmap option_map].
        rewrite decide_False by discriminate.
        repeat split; [exact Hlen|].
        intros g Hg. destruct (Hin g Hg) as (d' & Hd' & E).
        exists d'. split; [now right|easy].
      * exists (Some f :: values). cbn [fmap option_fmap option_map].
        rewrite decide_True by reflexivity.
        cbn [omap list_omap id length]. repeat split; [now f_equal|].
        intros g [->|Hg]%elem_of_cons; [exists d; split; [now left|exact Hf]|].
        destruct (Hin g Hg) as (d' & Hd' & E). exists d'. split; [now right|easy].
Qed.

Lemma fold_choice {A} (choose : A -> A -> bool) (values : list A) (v : A) :
  foldl (fun m x => if choose m x then x else m) v values ∈ v :: values.
Proof.
  revert v; induction values as [|x values IH]; intros v; [now left|].
  cbn [foldl]. destruct (choose v x).
  - right. apply IH.
  - specialize (IH v). apply elem_of_cons in IH as [->|IH]; [now left|now right; right].
Qed.

Lemma series_min_occurs (values : list float) :
  values <> [] -> series_min values ∈ values.
Proof.
  destruct values as [|v values]; [contradiction|]. intros _. unfold series_min.
  apply (fold_choice (fun m x => fleb x m)).
Qed.

Lemma series_max_occurs (values : list float) :
  values <> [] -> series_max values ∈ values.
Proof.
  destruct values as [|v values]; [contradiction|]. intros _. unfold series_max.
  apply (fold_choice (fun m x => fleb m x)).
Qed.

Lemma basic_stats_category (db : db_file) (t : tables) stats name :
  get_basic_stats db t = Some stats -> name ∈ category_tables ->
  categories stats !! name = length <$> t !! name.
Proof.
  unfold get_basic_stats. destruct (t !! "reviews"); [|discriminate].
  destruct (size_mb db); [|discriminate]. intros E%(inj Some) Hin. rewrite <- E.
  cbn [categories]. rewrite categories_fold_lookup, decide_True by exact Hin.
  now destruct (t !! name).
Qed.

Section WithPandas.
Context `{Pandas}.

Lemma category_stats_figures (records : list document) a :
  category_stats records = Ok a ->
  agg_count a = length records /\
  (has_column "overall" records = true ->
   exists figs,
     column_figures ((fun d : document => d !! "overall") <$> records) = Ok figs /\
     agg_avg_rating a = fig_avg figs /\
     agg_min_rating a = fig_min figs /\ agg_max_rating a = fig_max figs /\
     agg_rating_distribution a = Some (fig_distribution figs)).
Proof.
  unfold category_stats. intros E.
  apply bind_Ok in E as (ratings & Hr & E). apply bind_Ok in E as (users & _ & E).
  apply bind_Ok in E as (products & _ & E). injection E as <-.
  split; [reflexivity|]. intros Hcol. rewrite Hcol in Hr.
  apply bind_Ok in Hr as (figs & Hfigs & Hr). injection Hr as <-.
  exists figs. now repeat split.
Qed.

Lemma category_stats_count (records : list document) a :
  category_stats records = Ok a -> agg_count a = length records.
Proof. intros E. now apply category_stats_figures in E. Qed.

Lemma aggregate_loop_other (t : tables) items (acc m : gmap string agg_data) display :
  aggregate_loop t items acc = Ok m -> display ∉ items.*2 ->
  m !! display = acc !! display.
Proof.
  revert acc; induction items as [|[table display'] items IH]; intros acc E Hout.
  - now injection E as <-.
  - cbn [fmap list_fmap snd] in Hout. apply not_elem_of_cons in Hout as [Hne Hout].
    cbn [aggregate_loop] in E.
    destruct (t !! table) as [[|d records]|]; try now apply IH.
    apply bind_Ok in E as (a & _ & E).
    rewrite (IH _ E Hout). now rewrite lookup_insert_ne by congruence.
Qed.

Lemma aggregate_loop_entry (t : tables) items (acc m : gmap string agg_data)
    table display :
  aggregate_loop t items acc = Ok m -> NoDup items.*2 -> (table, display) ∈ items ->
  match t !! table with
  | Some ((_ :: _) as records) => exists a, category_stats records = Ok a /\
                                            m !! display = Some a
  | _ => m !! display = acc !! display
  end.
Proof.
  revert acc; induction items as [|[table' display'] items IH]; intros acc E Hnd Hin;
    [inversion Hin|].
  cbn [fmap list_fmap snd] in Hnd. apply NoDup_cons in Hnd as [Hfresh Hnd].
  cbn [aggregate_loop] in E.
  apply elem_of_cons in Hin as [Heq|Hin'].
  - injection Heq as <- <-.
    destruct (t !! table) as [[|d records]|]; try now apply (aggregate_loop_other t items).
    apply bind_Ok in E as (a & Ha & E). exists a. split; [exact Ha|].
    rewrite (aggregate_loop_other t items _ m display E Hfresh). apply lookup_insert_eq.
  - assert (Hne : display' <> display).
    { intros ->. apply Hfresh. apply list_elem_of_fmap. now exists (table, display). }
    destruct (t !! table') as [[|d' records']|].
    + now apply IH.
    + apply bind_Ok in E as (a' & _ & E). specialize (IH _ E Hnd Hin').
      destruct (t !! table) as [[|d records]|]; try exact IH;
        now rewrite IH, lookup_insert_ne by congruence.
    + now apply IH.
Qed.

End WithPandas.

(** X25. Every entry of [aggregate_by_category] stands for a category
    table that holds a document: it is the statistics of that table,
    its [count] is the number of documents of the table, and it is
    the count that [get_basic_stats] reports for the table. *)
Theorem aggregate_by_category_entries `{Pandas}
    (t : tables) (table display : string) (a : agg_data) :
  (table, display) ∈ category_mapping ->
  aggregate_by_category t !! display = Some a ->
  exists records,
    t !! table = Some records /\ records <> [] /\
    category_stats records = Ok a /\
    agg_count a = length records /\
    forall db stats, get_basic_stats db t = Some stats ->
      categories stats !! table = Some (agg_count a).
Proof.
  intros Hin. unfold aggregate_by_category.
  destruct (aggregate_loop t category_mapping ∅) as [m|e] eqn:E; cbn [or_else];
    [|now rewrite lookup_empty].
  pose proof (aggregate_loop_entry t category_mapping ∅ m table display E
                display_names_NoDup Hin) as Hentry.
  destruct (t !! table) as [[|d records]|] eqn:Ht;
    try (rewrite Hentry, lookup_empty; discriminate).
  destruct Hentry as (a' & Ha' & Hm). rewrite Hm. intros [= <-].
  exists (d :: records). split; [reflexivity|]. split; [discriminate|].
  split; [exact Ha'|]. pose proof (category_stats_count _ _ Ha') as Hcount.
  split; [exact Hcount|]. intros db stats Hstats.
  rewrite (basic_stats_category db t stats table Hstats), Ht, Hcount; [reflexivity|].
  apply (list_elem_of_fmap_2 fst) in Hin. exact Hin.
Qed.

Lemma aggregate_by_category_entries_witness :
  exists a records,
    aggregate_by_category (H := ReferenceFacts.pandas) loaded !! "Books" = Some a /\
    loaded !! "books" = Some records /\ records <> [] /\
    category_stats (H := ReferenceFacts.pandas) records = Ok a /\
    agg_count a = length records /\
    forall db stats, get_basic_stats db loaded = Some stats ->
      categories stats !! "books" = Some (agg_count a).
Proof.
  destruct (aggregate_by_category (H := ReferenceFacts.pandas) loaded !! "Books")
    as [a|] eqn:E.
  - destruct (@aggregate_by_category_entries ReferenceFacts.pandas loaded "books" "Books" a)
      as (records & Hr); [left|exact E|].
    exists a, records. split; [reflexivity|exact Hr].
  - exfalso. vm_compute in E. discriminate E.
Defined.

(** X26. The figures of a rating column have the type of the column.
    When every record of the table has an integer rating (of 64 bits),
    [min_rating] and [max_rating] are integers, the least and the
    greatest rating of the table, and the rating distribution has
    integer keys and counts every record once. When every rating is a
    float or null, [min_rating] and [max_rating] are floats, the
    rating distribution counts every record with a rating once, and
    when there is such a record [min_rating] and [max_rating] are
    ratings of the table. *)
Theorem rated_table_figures `{Pandas} (records : list document) (a : agg_data) :
  category_stats records = Ok a -> has_column "overall" records = true ->
  ((forall d, d ∈ records ->
      exists z, d !! "overall" = Some (VInt z) /\ int64 z = true) ->
   exists lo hi dist,
     agg_min_rating a = VInt lo /\ agg_max_rating a = VInt hi /\
     (exists d, d ∈ records /\ d !! "overall" = Some (VInt lo)) /\
     (exists d, d ∈ records /\ d !! "overall" = Some (VInt hi)) /\
     (forall d z, d ∈ records -> d !! "overall" = Some (VInt z) -> lo <= z <= hi) /\
     agg_rating_distribution a = Some dist /\
     Forall (fun entry : pyval * nat => exists z, entry.1 = VInt z) dist /\
     sum_list dist.*2 = length records) /\
  ((forall d, d ∈ records ->
      is_null (d !! "overall") = true \/ exists f, d !! "overall" = Some (VFloat f)) ->
   exists lo hi dist,
     agg_min_rating a = VFloat lo /\ agg_max_rating a = VFloat hi /\
     agg_rating_distribution a = Some dist /\
     Forall (fun entry : pyval * nat => exists f, entry.1 = VFloat f) dist /\
     sum_list dist.*2 = rated records /\
     ((0 < rated records)%nat ->
      (exists d, d ∈ records /\ d !! "overall" = Some (VFloat lo)) /\
      (exists d, d ∈ records /\ d !! "overall" = Some (VFloat hi)))).
Proof.
  intros E Hcol.
  destruct (category_stats_figures records a E) as [_ Hfigs].
  destruct (Hfigs Hcol) as (figs & Hcf & _ & Hmin & Hmax & Hdist). clear Hfigs.
  assert (Hne : records <> []) by (intros ->; discriminate Hcol).
  unfold column_figures, column_of in Hcf. split.
  - intros Hall. destruct (int_column records Hall) as (zs & Hzs & Ht & Hlen & Hin).
    rewrite Ht, Hzs in Hcf. destruct zs as [|z zs].
    { destruct records; [contradiction|discriminate Hlen]. }
    injection Hcf as <-. cbn [fig_min fig_max fig_distribution] in *.
    destruct (fold_min_least z zs) as [Hlo Hlo'].
    destruct (fold_max_greatest z zs) as [Hhi Hhi'].
    eexists _, _, _. split; [exact Hmin|]. split; [exact Hmax|].
    split; [now apply Hin|]. split; [now apply Hin|].
    split; [|split; [exact Hdist|split]].
    + intros d x Hd Hx. assert (Hz : x ∈ z :: zs) by (apply Hin; eauto).
      split; [now apply Hlo'|now apply Hhi'].
    + apply (distribution_keys VInt).
    + now rewrite distribution_counts, value_counts_total.
  - intros Hall. destruct (float_column records Hall) as (Ht & Hint & values & Hv & Hlen & Hin).
    rewrite Ht in Hcf.
    assert (Hcf' : Ok {| fig_avg := VFloat (series_mean (omap id values));
                         fig_min := VFloat (series_min (omap id values));
                         fig_max := VFloat (series_max (omap id values));
                         fig_distribution :=
                           prod_map VFloat id
                             <$> value_counts feqb fleb (omap id values) |} = Ok figs).
    { destruct (int_cells _) as [zs|] eqn:Ez.
      - rewrite (Hint Hne zs eq_refl) in Hcf. now rewrite Hv in Hcf.
      - now rewrite Hv in Hcf. }
    injection Hcf' as <-. cbn [fig_min fig_max fig_distribution] in *.
    eexists _, _, _. split; [exact Hmin|]. split; [exact Hmax|].
    split; [exact Hdist|]. split; [apply (distribution_keys VFloat)|]. split.
    + now rewrite distribution_counts, value_counts_total.
    + intros Hpos. assert (Hsome : omap id values <> []).
      { intros E0. rewrite E0 in Hlen. cbn in Hlen. lia. }
      split; apply Hin; [now apply series_min_occurs|now apply series_max_occurs].
Qed.

Lemma rated_table_figures_witness :
  exists a lo hi dist,
    category_stats (H := ReferenceFacts.pandas)
      [stored "A" "P1" (VInt 5) "great"; stored "B" "P1" (VInt 4) "good"] = Ok a /\
    agg_min_rating a = VInt lo /\ agg_max_rating a = VInt hi /\
    (exists d, d ∈ [stored "A" "P1" (VInt 5) "great"; stored "B" "P1" (VInt 4) "good"] /\
               d !! "overall" = Some (VInt lo)) /\
    (exists d, d ∈ [stored "A" "P1" (VInt 5) "great"; stored "B" "P1" (VInt 4) "good"] /\
               d !! "overall" = Some (VInt hi)) /\
    (forall d z,
       d ∈ [stored "A" "P1" (VInt 5) "great"; stored "B" "P1" (VInt 4) "good"] ->
       d !! "overall" = Some (VInt z) -> lo <= z <= hi) /\
    agg_rating_distribution a = Some dist /\
    Forall (fun entry : pyval * nat => exists z, entry.1 = VInt z) dist /\
    sum_list dist.*2
    = length [stored "A" "P1" (VInt 5) "great"; stored "B" "P1" (VInt 4) "good"].
Proof.
  destruct (category_stats (H := ReferenceFacts.pandas)
              [stored "A" "P1" (VInt 5) "great"; stored "B" "P1" (VInt 4) "good"])
    as [a|e] eqn:E.
  - destruct (@rated_table_figures ReferenceFacts.pandas _ a E) as [Hint _]; [vm_refl|].
    destruct Hint as (lo & hi & dist & Hr).
    { intros d Hd.
      repeat (apply elem_of_cons in Hd as [->|Hd];
              [eexists; split; [vm_compute; reflexivity|reflexivity]|]).
      inversion Hd. }
    exists a, lo, hi, dist. split; [reflexivity|exact Hr].
  - exfalso. vm_compute in E. discriminate E.
Defined.

End AggregationExtra.

(** ** More properties of [query_top_products] *)

Module TopProductsExtra.
Import Notions NoSQL PyFacts QueryFacts StoreSamples QuerySamples.

(** X27. [query_top_products] has nothing to rank, and returns the
    empty list, when the table it reads is empty and when no document
    of the table has an [asin], an [overall] or a [reviewText] field;
    the last case is an error of the aggregation, which is caught. *)
Theorem query_top_products_needs_columns `{Pandas}
    (t : tables) category limit (records : list document) :
  select_table t category = Ok records ->
  records = [] \/ has_column "asin" records = false \/
  has_column "overall" records = false \/ has_column "reviewText" records = false ->
  query_top_products t category limit = [].
Proof.
  intros Hsel Hc. unfold query_top_products. rewrite Hsel. cbn [bind].
  unfold top_products_of. destruct records as [|d records]; [reflexivity|].
  destruct Hc as [Hc|[Hc|[Hc|Hc]]]; [discriminate| | |]; rewrite Hc.
  - reflexivity.
  - cbn [negb]. now rewrite orb_true_r.
  - cbn [negb]. now destruct (negb _ || negb _).
Qed.

Lemma query_top_products_needs_columns_witness :
  query_top_products (H := ReferenceFacts.pandas)
    (with_reviews [<["overall" := VFloat f5]> (<["asin" := VStr "P1"]> ∅);
                   <["overall" := VFloat f4]> (<["asin" := VStr "P1"]> ∅)]) None 10 = [].
Proof.
  apply (@query_top_products_needs_columns ReferenceFacts.pandas _ None 10
           [<["overall" := VFloat f5]> (<["asin" := VStr "P1"]> ∅);
            <["overall" := VFloat f4]> (<["asin" := VStr "P1"]> ∅)]).
  - vm_refl.
  - right. right. right. vm_refl.
Defined.

(** X28. One document that has a product id and whose rating is
    there but is neither a number nor [None] (a string, a list, a
    dict) makes [query_top_products] return the empty list, whatever
    the other documents and the limit: the error of the aggregation
    of its group is caught. *)
Theorem query_top_products_swallows_type_error `{Pandas}
    (t : tables) category limit (records : list document) (doc : document) k v :
  select_table t category = Ok records -> doc ∈ records ->
  doc !! "asin" = Some k -> is_null (Some k) = false ->
  doc !! "overall" = Some v -> as_num v = None -> v <> VNone ->
  query_top_products t category limit = [].
Proof.
  intros Hsel Hin Hk Hnull Hv Hn Hnone. unfold query_top_products. rewrite Hsel.
  cbn [bind]. unfold top_products_of. destruct records as [|d records]; [reflexivity|].
  destruct (negb _ || negb _); [reflexivity|].
  destruct (negb _); [reflexivity|].
  assert (Ht : textual (doc !! "overall") = true).
  { rewrite Hv. destruct v; try discriminate; try contradiction; reflexivity. }
  destruct (to_frame (d :: records)) as [df|e] eqn:Hdf; [|reflexivity]. cbn [bind].
  assert (Hkey : key_cell (doc !! "asin") = Ok (Some k)).
  { destruct (frame_document_row _ _ doc (to_frame_Forall2 _ _ Hdf) Hin) as (row & _ & E).
    apply to_row_Ok in E as [E _]. rewrite Hk in *. unfold key_cell in *.
    rewrite Hnull in *. destruct k; try discriminate E; reflexivity. }
  destruct (textual_group_raises (d :: records) df doc k Hdf Hin Hkey Ht) as (e' & ->).
  reflexivity.
Qed.

Lemma query_top_products_swallows_type_error_witness :
  query_top_products (H := ReferenceFacts.pandas) garbled None 10 = [].
Proof.
  apply (@query_top_products_swallows_type_error ReferenceFacts.pandas garbled None 10
           [stored "A" "P1" (VStr "abc") "great"]
           (stored "A" "P1" (VStr "abc") "great") (VStr "P1") (VStr "abc"));
    first [vm_refl | left | discriminate].
Defined.

End TopProductsExtra.

(** ** From the cleaner to the statistics *)

Module CleanedStats.
Import Notions Cleaner NoSQL PyFacts CleanerFacts SecondPass CleanerExtra QueryExtra
  AggregationExtra StoreSamples.

Lemma map_result_Forall {A B} (f : A -> result B) (Q : B -> Prop) (l : list A) :
  (forall a, a ∈ l -> exists b, f a = Ok b /\ Q b) ->
  exists bs, map_result f l = Ok bs /\ Forall Q bs /\ length bs = length l.
Proof.
  induction l as [|a l IH]; intros Hall.
  - exists []. repeat split. constructor.
  - destruct (Hall a) as (b & Hb & Qb); [now left|].
    destruct IH as (bs & Hbs & Qbs & Hlen); [intros x Hx; apply Hall; now right|].
    exists (b :: bs). cbn [map_result]. rewrite Hb, Hbs. cbn [bind length].
    repeat split; [now constructor|now f_equal].
Qed.

Lemma has_column_first c (d : document) (records : list document) :
  is_Some (d !! c) -> has_column c (d :: records) = true.
Proof.
  intros Hd. unfold has_column. cbn [existsb]. now rewrite bool_decide_eq_true_2.
Qed.

Section WithPandas.
Context `{Pandas}.

(** The statistics of a table whose ratings are floats within two
    bounds and whose ids are strings. *)
Lemma stats_of_tidy (records : list document) :
  records <> [] ->
  (forall d, d ∈ records ->
     exists f s u, d !! "overall" = Some (VFloat f) /\
                   fleb f1 f = true /\ fleb f f5 = true /\
                   d !! "asin" = Some (VStr s) /\ d !! "reviewerID" = Some (VStr u)) ->
  exists a lo hi,
    category_stats records = Ok a /\
    agg_min_rating a = VFloat lo /\ agg_max_rating a = VFloat hi /\
    (fleb f1 lo = true /\ fleb lo f5 = true) /\ (fleb f1 hi = true /\ fleb hi f5 = true).
Proof.
  intros Hne Hall. destruct records as [|d0 records]; [contradiction|].
  destruct (Hall d0) as (f0' & s0 & u0 & Hov0 & _ & _ & Has0 & Hid0); [now left|].
  assert (Hfloat : forall d, d ∈ d0 :: records ->
            is_null (d !! "overall") = true \/ exists f, d !! "overall" = Some (VFloat f)).
  { intros d Hd. destruct (Hall d Hd) as (f & _ & _ & Hf & _). right. eauto. }
  destruct (float_column (d0 :: records) Hfloat) as (Ht & Hint & values & Hv & Hlen & Hin).
  assert (Hrated : rated (d0 :: records) = length (d0 :: records)).
  { unfold rated. f_equal. apply filter_all, Forall_forall. intros d Hd.
    destruct (Hall d Hd) as (f & _ & _ & -> & Hlo & _). now destruct f. }
  assert (Hsome : omap id values <> []).
  { intros E. rewrite E, Hrated in Hlen. discriminate. }
  assert (Hcf : column_figures ((fun d : document => d !! "overall") <$> d0 :: records)
                = Ok {| fig_avg := VFloat (series_mean (omap id values));
                        fig_min := VFloat (series_min (omap id values));
                        fig_max := VFloat (series_max (omap id values));
                        fig_distribution :=
                          prod_map VFloat id
                            <$> value_counts feqb fleb (omap id values) |}).
  { unfold column_figures, column_of. rewrite Ht.
    destruct (int_cells _) as [zs|] eqn:Ez.
    - rewrite (Hint Hne zs eq_refl). now rewrite Hv.
    - now rewrite Hv. }
  destruct (map_result_Forall (fun d : document => key_cell (d !! "reviewerID"))
              (fun _ => True) (d0 :: records)) as (users & Husers & _ & _).
  { intros d Hd. destruct (Hall d Hd) as (_ & _ & u & _ & _ & _ & _ & ->). eauto. }
  destruct (map_result_Forall (fun d : document => key_cell (d !! "asin"))
              (fun _ => True) (d0 :: records)) as (products & Hproducts & _ & _).
  { intros d Hd. destruct (Hall d Hd) as (_ & s & _ & _ & _ & _ & -> & _). eauto. }
  unfold category_stats, nunique.
  rewrite !has_column_first by eauto.
  rewrite Hcf. cbn [bind]. rewrite Husers. cbn [bind]. rewrite Hproducts. cbn [bind].
  eexists _, (series_min (omap id values)), (series_max (omap id values)).
  split; [reflexivity|]. split; [reflexivity|]. split; [reflexivity|].
  assert (Hrange : forall f, f ∈ omap id values -> fleb f1 f = true /\ fleb f f5 = true).
  { intros f Hf. destruct (Hin f Hf) as (d & Hd & E).
    destruct (Hall d Hd) as (g & _ & _ & Hg & Hlo & Hhi & _).
    rewrite E in Hg. injection Hg as ->. now split. }
  split; apply Hrange.
  - now apply series_min_occurs.
  - now apply series_max_occurs.
Qed.

End WithPandas.

(** X29. From the cleaner to the statistics: for a cleaned batch whose
    product ids are strings, written by [insert_reviews], the
    statistics of the table can be computed, so that
    [aggregate_by_category] does not fall back to the empty mapping on
    it; [count] is the size of the batch, and [min_rating] and
    [max_rating] lie between 1.0 and 5.0. *)
Theorem cleaned_table_statistics `{Builtins} `{Pandas}
    (rs ds : list (gmap string pyval)) (e : env) :
  clean_batch rs = Ok ds -> ds <> [] ->
  (forall d, d ∈ ds -> exists s, d !! "asin" = Some (VStr s)) ->
  exists a lo hi,
    category_stats (imap (process e) ds) = Ok a /\
    agg_count a = length ds /\
    agg_min_rating a = VFloat lo /\ agg_max_rating a = VFloat hi /\
    (fleb f1 lo = true /\ fleb lo f5 = true) /\ (fleb f1 hi = true /\ fleb hi f5 = true).
Proof.
  intros Hclean Hne Hasin.
  destruct (stats_of_tidy (imap (process e) ds)) as (a & lo & hi & Ha & Hlo & Hhi & Hr).
  - destruct ds; [contradiction|discriminate].
  - intros d Hd. apply elem_of_lookup_imap in Hd as (i & record & -> & Hi).
    assert (Hrec : record ∈ ds) by (apply list_elem_of_lookup; eauto).
    destruct (cleaned_batch_rating rs ds record Hclean Hrec) as (f & Hf & Hflo & Hfhi).
    destruct (Hasin record Hrec) as (s & Hs).
    destruct (clean_batch_inv rs ds Hclean record Hrec) as (r & _ & Hr & _).
    apply clean_review_data_inv in Hr as (rid & name & ov & ut & Hrid & _ & _ & _ & Hd).
    apply (keep_if_nonblank_is_str _ "UNKNOWN") in Hrid as (u & -> & _); [|discriminate].
    exists f, s, u. unfold process. rewrite !lookup_insert_ne by discriminate.
    repeat split; try assumption. rewrite Hd. apply assemble_reviewerID.
  - exists a, lo, hi. split; [exact Ha|]. split; [|easy].
    rewrite (category_stats_count _ _ Ha). apply length_imap.
Qed.

Lemma cleaned_table_statistics_witness :
  exists a lo hi,
    category_stats (H := ReferenceFacts.pandas)
      (imap (process (H := Reference.builtins) calm) [Samples.cleaned (VFloat f5)]) = Ok a /\
    agg_count a = length [Samples.cleaned (VFloat f5)] /\
    agg_min_rating a = VFloat lo /\ agg_max_rating a = VFloat hi /\
    (fleb f1 lo = true /\ fleb lo f5 = true) /\ (fleb f1 hi = true /\ fleb hi f5 = true).
Proof.
  apply (@cleaned_table_statistics Reference.builtins ReferenceFacts.pandas
           [Samples.raw (VFloat f5)]).
  - vm_refl.
  - discriminate.
  - intros d Hd. apply list_elem_of_singleton in Hd as ->. exists "P1". vm_refl.
Defined.

End CleanedStats.
